(** * rn2md: RedNotebook-to-Markdown line formatters

    A shallow embedding of [rn2md/formatters.py] and the properties of its
    line pipeline, followed by the transformers of the earlier module
    [rn2md/rn2md_transformers.py] and what relates them to the formatters.

    Lines are Python [str] values.  A [str] is a sequence of code points; the
    development models the code points 0..255 as [ascii], and a line as a
    [list ascii].  The character classes [\s], [\w] and [.] are the ones
    Python's [re] module uses for [str] patterns on that range. *)

From Stdlib Require Import Ascii String DecimalString.
From Stdlib Require Import List Arith Lia Bool ZArith PeanoNat.
Import ListNotations.

Set Implicit Arguments.

(** ** Python strings *)

Definition pystr := list ascii.

Definition str (s : string) : pystr := list_ascii_of_string s.

Definition dquote : ascii := "034"%char.
Definition newline : ascii := "010"%char.
Definition backslash : ascii := "\"%char.
Definition backtick : ascii := "`"%char.
Definition underscore : ascii := "_"%char.

(** The two double quote characters that delimit a RedNotebook URL; the
    comments below write them [QQ]. *)
Definition qq : pystr := [dquote; dquote].

Definition pystr_eqb (a b : pystr) : bool :=
  if list_eq_dec ascii_dec a b then true else false.

(** [s[a:b]] for non-negative [a], [b]; Python clamps both to [len s]. *)
Definition slice (a b : nat) (s : pystr) : pystr := firstn (b - a) (skipn a s).

(** [s[a:]] is [skipn a s] and [s[:b]] is [firstn b s]. *)

(** [str.isspace], which is also the class [\s] of a [str] pattern. *)
Definition is_space (c : ascii) : bool :=
  let n := nat_of_ascii c in
  ((9 <=? n) && (n <=? 13)) || ((28 <=? n) && (n <=? 32))
  || (n =? 133) || (n =? 160).

(** The class [\w] of a [str] pattern: alphanumeric code points and [_]. *)
Definition is_word (c : ascii) : bool :=
  let n := nat_of_ascii c in
  ((48 <=? n) && (n <=? 57)) || ((65 <=? n) && (n <=? 90)) || (n =? 95)
  || ((97 <=? n) && (n <=? 122)) || (n =? 170) || ((178 <=? n) && (n <=? 179))
  || (n =? 181) || ((185 <=? n) && (n <=? 186)) || ((188 <=? n) && (n <=? 190))
  || ((192 <=? n) && (n <=? 214)) || ((216 <=? n) && (n <=? 246))
  || ((248 <=? n) && (n <=? 255)).

(** The class [.] (without DOTALL): anything but a newline. *)
Definition is_dot (c : ascii) : bool := negb (Ascii.eqb c newline).

Fixpoint prefixb (p s : pystr) : bool :=
  match p, s with
  | [], _ => true
  | _ :: _, [] => false
  | a :: p', b :: s' => Ascii.eqb a b && prefixb p' s'
  end.

(** Length of the longest prefix whose characters all satisfy [f]. *)
Fixpoint count_while (f : ascii -> bool) (s : pystr) : nat :=
  match s with
  | c :: s' => if f c then S (count_while f s') else 0
  | [] => 0
  end.

(** [s.lstrip()], [s.rstrip()] and [s.strip()]. *)
Definition lstrip (s : pystr) : pystr := skipn (count_while is_space s) s.
Definition rstrip (s : pystr) : pystr := rev (lstrip (rev s)).
Definition strip (s : pystr) : pystr := rstrip (lstrip s).

(** [s.count(c)] for a one-character [c]. *)
Definition count (c : ascii) (s : pystr) : nat :=
  length (filter (Ascii.eqb c) s).

(** [c * n] for an [int] [n]: a negative [n] gives the empty string. *)
Definition repeat_char (c : ascii) (n : Z) : pystr := repeat c (Z.to_nat n).

(** [f'{n}'] for a non-negative [int]. *)
Definition str_of_nat (n : nat) : pystr :=
  str (NilEmpty.string_of_uint (Nat.to_uint n)).

(** ** Python exceptions *)

Inductive pyexn : Set := IndexError | ValueError | AttributeError.

Inductive result (A : Type) : Type :=
| Ok (a : A)
| Raise (e : pyexn).
Arguments Ok {A} a.
Arguments Raise {A} e.

Definition bind {A B : Type} (r : result A) (k : A -> result B) : result B :=
  match r with
  | Ok a => k a
  | Raise e => Raise e
  end.

Notation "x <- r ;; k" := (bind r (fun x => k))
  (at level 61, r at next level, right associativity).

(** [s[i]] for a non-negative [i]: raises [IndexError] out of range. *)
Definition getitem (s : pystr) (i : nat) : result ascii :=
  match nth_error s i with
  | Some c => Ok c
  | None => Raise IndexError
  end.

(** ** The [re] module

    A match object keeps the searched string, the span of the whole match and
    the spans of the pattern's groups.  A compiled pattern is modelled by its
    anchored matcher: the match the backtracking engine finds when it starts
    at offset [pos] of [s], if there is one. *)

Record rmatch : Type := MkMatch {
  m_string : pystr;
  m_start : nat;
  m_end : nat;
  m_groups : list (nat * nat)
}.

Definition pattern := pystr -> nat -> option rmatch.

(** [m.span()] and [m.span(n)] for a group [n >= 1] of the pattern. *)
Definition span (m : rmatch) : nat * nat := (m_start m, m_end m).
Definition span_group (n : nat) (m : rmatch) : nat * nat :=
  nth n (span m :: m_groups m) (span m).

(** [m.group()] and [m.group(n)]. *)
Definition group (m : rmatch) : pystr := slice (m_start m) (m_end m) (m_string m).
Definition group_n (n : nat) (m : rmatch) : pystr :=
  slice (fst (span_group n m)) (snd (span_group n m)) (m_string m).

(** The scan of [re.finditer]: offsets are tried from left to right, and after
    a match the search resumes at the match's end.  [fuel] counts the offsets
    [pos .. len s] still to try; none of the patterns below matches the empty
    string. *)
Fixpoint scan (pat : pattern) (s : pystr) (fuel pos from : nat) : list rmatch :=
  match fuel with
  | 0 => []
  | S fuel' =>
      if pos <? from then scan pat s fuel' (S pos) from
      else match pat s pos with
           | Some m => m :: scan pat s fuel' (S pos) (m_end m)
           | None => scan pat s fuel' (S pos) from
           end
  end.

Definition re_finditer (pat : pattern) (s : pystr) : list rmatch :=
  scan pat s (S (length s)) 0 0.

(** [re.search]: the leftmost match. *)
Definition re_search (pat : pattern) (s : pystr) : option rmatch :=
  hd_error (re_finditer pat s).

(** [re.match]: a match at offset 0 only. *)
Definition re_match (pat : pattern) (s : pystr) : option rmatch := pat s 0.

(** Left-to-right replacement of the matches [ms] of [s], from offset [cur]. *)
Fixpoint splice (repl : rmatch -> pystr) (s : pystr) (cur : nat)
  (ms : list rmatch) : pystr :=
  match ms with
  | [] => skipn cur s
  | m :: ms' =>
      slice cur (m_start m) s ++ repl m ++ splice repl s (m_end m) ms'
  end.

(** [re.sub(pat, template, s)], the template given as a function of the match. *)
Definition re_sub (pat : pattern) (repl : rmatch -> pystr) (s : pystr) : pystr :=
  splice repl s 0 (re_finditer pat s).

(** *** The patterns of [formatters.py] *)

(** A literal pattern, such as [//], [--] or two backticks. *)
Definition lit (d : pystr) : pattern := fun s pos =>
  if prefixb d (skipn pos s)
  then Some (MkMatch s pos (pos + length d) [])
  else None.

(** The lazy [.*?] followed by the literal [stop]: the least [j] such that
    [stop] follows [j] characters, none of them a newline. *)
Fixpoint lazy_dots (stop s : pystr) : option nat :=
  if prefixb stop s then Some 0
  else match s with
       | c :: s' => if is_dot c then option_map S (lazy_dots stop s') else None
       | [] => None
       end.

(** The part of the link pattern after the opening bracket:
    [([^\]]*?) QQ(.*?)QQ\]].  The lazy group 1 grows one character at a time;
    at each length the rest of the pattern is tried, and group 1 grows again
    when the rest fails.  The result is the lengths of groups 1 and 2. *)
Fixpoint link_body (s : pystr) : option (nat * nat) :=
  let rest :=
    if prefixb (" "%char :: qq) s
    then lazy_dots (qq ++ ["]"%char]) (skipn 3 s)
    else None in
  match rest with
  | Some j => Some (0, j)
  | None =>
      match s with
      | c :: s' =>
          if Ascii.eqb c "]"%char then None
          else option_map (fun kj => (S (fst kj), snd kj)) (link_body s')
      | [] => None
      end
  end.

(** [\[([^\]]*?) QQ(.*?)QQ\]] *)
Definition link_pattern : pattern := fun s pos =>
  match skipn pos s with
  | c :: s' =>
      if Ascii.eqb c "["%char then
        match link_body s' with
        | Some (k, j) =>
            Some (MkMatch s pos (pos + 1 + k + 3 + j + 3)
                    [(pos + 1, pos + 1 + k);
                     (pos + 1 + k + 3, pos + 1 + k + 3 + j)])
        | None => None
        end
      else None
  | [] => None
  end.

(** [\[QQ(.*?)QQ\]] *)
Definition image_pattern : pattern := fun s pos =>
  if prefixb ("["%char :: qq) (skipn pos s) then
    match lazy_dots (qq ++ ["]"%char]) (skipn (pos + 3) s) with
    | Some j =>
        Some (MkMatch s pos (pos + 3 + j + 3) [(pos + 3, pos + 3 + j)])
    | None => None
    end
  else None.

(** A backtick, [.*?], a backtick. *)
Definition backtick_pattern : pattern := fun s pos =>
  if prefixb [backtick] (skipn pos s) then
    match lazy_dots [backtick] (skipn (pos + 1) s) with
    | Some j => Some (MkMatch s pos (pos + 1 + j + 1) [])
    | None => None
    end
  else None.

(** The class test of a one-character look-around at offset [i]. *)
Definition class_at (f : ascii -> bool) (s : pystr) (i : nat) : bool :=
  match nth_error s i with
  | Some c => f c
  | None => false
  end.

(** [(?<=\w)_(?=\w)] *)
Definition inner_underscore_pattern : pattern := fun s pos =>
  match pos with
  | 0 => None
  | S before =>
      if class_at is_word s before
         && class_at (Ascii.eqb underscore) s pos
         && class_at is_word s (S pos)
      then Some (MkMatch s pos (S pos) [])
      else None
  end.

Definition is_equals (c : ascii) : bool := Ascii.eqb c "="%char.

(** [^=+]: [^] holds at offset 0 only, and [=+] takes the whole run. *)
Definition header_start_pattern : pattern := fun s pos =>
  match pos with
  | 0 =>
      match count_while is_equals s with
      | 0 => None
      | S k => Some (MkMatch s 0 (S k) [])
      end
  | S _ => None
  end.

(** [$] holds at the end of the string and before a final newline. *)
Definition at_dollar (s : pystr) (i : nat) : bool :=
  (i =? length s) || ((S i =? length s) && class_at (Ascii.eqb newline) s i).

(** [=+$]: the greedy run is followed by a character other than [=] or by the
    end of the string, so giving characters back never makes [$] hold. *)
Definition header_end_pattern : pattern := fun s pos =>
  match count_while is_equals (skipn pos s) with
  | 0 => None
  | S k =>
      if at_dollar s (pos + S k) then Some (MkMatch s pos (pos + S k) [])
      else None
  end.

Definition is_list_marker (c : ascii) : bool :=
  Ascii.eqb c "-"%char || Ascii.eqb c "|"%char || Ascii.eqb c "+"%char.

(** [^\s*([-|\+])\s]: the class of group 1 holds the three characters [-],
    [|] and [+].  None of them is white space, so the greedy [\s*] never
    gives a character back. *)
Definition list_item_pattern : pattern := fun s pos =>
  match pos with
  | 0 =>
      let i := count_while is_space s in
      if class_at is_list_marker s i && class_at is_space s (S i)
      then Some (MkMatch s 0 (i + 2) [(i, i + 1)])
      else None
  | S _ => None
  end.

(** ** Protected spans and filtered matches *)

(** [_spans_intersect]: [sorted] puts the two ends of each span in order; the
    test then reads both spans as closed intervals. *)
Definition _spans_intersect (span1 span2 : nat * nat) : bool :=
  let lo1 := Nat.min (fst span1) (snd span1) in
  let hi1 := Nat.max (fst span1) (snd span1) in
  let lo2 := Nat.min (fst span2) (snd span2) in
  let hi2 := Nat.max (fst span2) (snd span2) in
  (lo2 <=? hi1) && (lo1 <=? hi2).

(** [_not_in_link]: the protected span of a link is its group 2, the URL. *)
Definition _not_in_link (m : rmatch) : bool :=
  let links := re_finditer link_pattern (m_string m) in
  negb (existsb (fun l => _spans_intersect (span m) (span_group 2 l)) links).

(** [_not_in_backticks] *)
Definition _not_in_backticks (m : rmatch) : bool :=
  let backticks := re_finditer backtick_pattern (m_string m) in
  negb (existsb (fun b => _spans_intersect (span m) (span b)) backticks).

Definition pred := rmatch -> bool.

(** [_filter_matches]; [preds = None] selects the two default predicates. *)
Definition _filter_matches (pat : pattern) (s : pystr)
  (preds : option (list pred)) : list rmatch :=
  let preds :=
    match preds with
    | None => [_not_in_link; _not_in_backticks]
    | Some ps => ps
    end in
  filter (fun m => forallb (fun p => p m) preds) (re_finditer pat s).

(** ** Balanced delimiters *)

(** [zip(delims, delims)] over one shared generator: each pair takes two
    successive items, and a last item without a partner is consumed and
    dropped. *)
Fixpoint zip_shared {A : Type} (delims : list A) : list (A * A) :=
  match delims with
  | a :: b :: rest => (a, b) :: zip_shared rest
  | _ => []
  end.

(** The [sub] argument: a string or a 2-tuple of strings. *)
Inductive sub_arg : Type :=
| SubStr (s : pystr)
| SubPair (start_sub end_sub : pystr).

(** [start_sub, end_sub = sub]: unpacking a string gives its characters, and
    raises [ValueError] unless there are exactly two of them. *)
Definition unpack_sub (sub : sub_arg) : result (pystr * pystr) :=
  match sub with
  | SubPair a b => Ok (a, b)
  | SubStr [c1; c2] => Ok ([c1], [c2])
  | SubStr _ => Raise ValueError
  end.

(** The [try] block of [_sub_balanced_delims]: on [ValueError] both ends are
    [sub] itself. *)
Definition sub_ends (sub : sub_arg) : pystr * pystr :=
  match unpack_sub sub with
  | Ok p => p
  | Raise _ =>
      match sub with
      | SubStr s => (s, s)
      | SubPair a b => (a, b)
      end
  end.

(** One iteration of the substitution loop; the offsets are those of the
    matches in the original string. *)
Definition sub_pair (start_sub end_sub : pystr) (s : pystr)
  (p : rmatch * rmatch) : pystr :=
  let (start_delim, end_delim) := p in
  let start := firstn (m_start start_delim) s in
  let data := slice (m_end start_delim) (m_start end_delim) s in
  let end_ := skipn (m_end end_delim) s in
  start ++ start_sub ++ data ++ end_sub ++ end_.

Definition _sub_balanced_delims (delim_pattern : pattern) (sub : sub_arg)
  (s : pystr) (preds : option (list pred)) : pystr :=
  let (start_sub, end_sub) := sub_ends sub in
  let delims := _filter_matches delim_pattern s preds in
  let balanced_delims := zip_shared delims in
  fold_left (sub_pair start_sub end_sub) (rev balanced_delims) s.

(** ** The formatters

    Each formatter is a generator decorated with
    [util.prime_coroutine_generator] and used through [send]; it is modelled
    by one turn of its loop (see [formatter] below): a function of the state
    it keeps between turns and of the line sent. *)

Definition link_template (m : rmatch) : pystr :=
  str "[" ++ group_n 1 m ++ str "](" ++ group_n 2 m ++ str ")".

Definition format_links (line : pystr) : pystr :=
  re_sub link_pattern link_template line.

Definition image_template (m : rmatch) : pystr :=
  str "![](" ++ group_n 1 m ++ str ")".

Definition format_images (line : pystr) : pystr :=
  re_sub image_pattern image_template line.

Definition format_italic_text (line : pystr) : pystr :=
  _sub_balanced_delims (lit (str "//")) (SubStr (str "_")) line None.

Definition format_strikethrough_text (line : pystr) : pystr :=
  if negb (pystr_eqb line (repeat "-"%char (length line)))
  then _sub_balanced_delims (lit (str "--")) (SubStr (str "~")) line None
  else line.

Definition format_code_blocks (line : pystr) : pystr :=
  _sub_balanced_delims (lit (str "``")) (SubStr (str "`")) line
    (Some [_not_in_link]).

Definition format_headers (padding : Z) (line : pystr) : pystr :=
  match re_search header_start_pattern line with
  | None => line
  | Some start_delim =>
      if pystr_eqb (group start_delim) line then line
      else
        match re_search header_end_pattern line with
        | None => line
        | Some end_delim =>
            if negb (pystr_eqb (group end_delim) (group start_delim)) then line
            else
              let level := length (group start_delim) in
              repeat_char "#"%char (padding + Z.of_nat level) ++ str " "
              ++ lstrip (slice level (length line - level) line)
        end
  end.

Definition format_inner_underscores (line : pystr) : pystr :=
  let inner_underscores := _filter_matches inner_underscore_pattern line None in
  fold_left
    (fun line m =>
       firstn (m_start m) line ++ [backslash; underscore]
       ++ skipn (m_end m) line)
    (rev inner_underscores) line.

(** *** The list formatter and its [defaultlist] *)

(** [defaultlist.defaultlist(lambda: default)]: reading or writing index [i]
    first extends the list with [default] up to [i]. *)
Definition dl_fill (default : nat) (l : list nat) (i : nat) : list nat :=
  l ++ repeat default (S i - length l).

Definition dl_getitem (default : nat) (l : list nat) (i : nat)
  : list nat * nat :=
  let l' := dl_fill default l i in (l', nth i l' default).

Definition dl_setitem (default : nat) (l : list nat) (i v : nat) : list nat :=
  let l' := dl_fill default l i in firstn i l' ++ v :: skipn (S i) l'.

(** [del l[k:]] *)
Definition dl_del_from (l : list nat) (k : nat) : list nat := firstn k l.

Record lists_state : Type := MkLists {
  ordered_list_history : list nat;
  sequential_empty_lines : nat
}.

Definition lists_init : lists_state := MkLists [] 0.

Definition format_lists (st : lists_state) (line : pystr)
  : result (lists_state * pystr) :=
  match re_match list_item_pattern line with
  | Some list_item_match =>
      let i := fst (span_group 1 list_item_match) in
      c <- getitem line i ;;
      let (history, line') :=
        if Ascii.eqb c "-"%char then (ordered_list_history st, line)
        else
          let (h1, n) := dl_getitem 1 (ordered_list_history st) i in
          let line' :=
            firstn i line ++ str_of_nat n ++ str "." ++ skipn (i + 1) line in
          let (h2, n2) := dl_getitem 1 h1 i in
          (dl_setitem 1 h2 i (n2 + 1), line') in
      Ok (MkLists (dl_del_from history (i + 1)) (sequential_empty_lines st),
          line')
  | None =>
      match strip line with
      | _ :: _ => Ok (MkLists [] 0, line)
      | [] =>
          let n := sequential_empty_lines st + 1 in
          Ok (MkLists (if 2 <=? n then [] else ordered_list_history st) n,
              line)
      end
  end.

(** *** The pipeline *)

(** Modelled from the spec: the decorator [util.prime_coroutine_generator]
    is not among the sources.  The specification has every stage "accept
    next Line, return transformed Line" with a state of its own, one
    suspension-free step per call: the generator is advanced to its first
    [yield] when it is made, and [send(line)] runs one turn of its loop and
    returns the value of the next [yield].  The list formatter is the only
    one that keeps state between turns and the only one that indexes a
    string. *)
Definition formatter := lists_state -> pystr -> result (lists_state * pystr).

Definition stateless (f : pystr -> pystr) : formatter :=
  fun st line => Ok (st, f line).

Definition ordered_formatters (header_padding : Z) : list formatter :=
  [ stateless format_inner_underscores;
    stateless format_links;
    stateless format_images;
    stateless (format_headers header_padding);
    stateless format_code_blocks;
    stateless format_italic_text;
    stateless format_strikethrough_text;
    format_lists ].

(** [for formatter in ordered_formatters: line = formatter.send(line)] *)
Fixpoint send_all (fs : list formatter) (st : lists_state) (line : pystr)
  : result (lists_state * pystr) :=
  match fs with
  | [] => Ok (st, line)
  | f :: fs' =>
      r <- f st line ;;
      send_all fs' (fst r) (snd r)
  end.

Definition format_rednotebook_as_markdown (header_padding : Z)
  (st : lists_state) (line : pystr) : result (lists_state * pystr) :=
  send_all (ordered_formatters header_padding) st line.

(** Feeding a document: the lines are sent one after the other to one
    pipeline, whose state starts at [st]. *)
Fixpoint feed (f : formatter) (st : lists_state) (lines : list pystr)
  : result (lists_state * list pystr) :=
  match lines with
  | [] => Ok (st, [])
  | line :: rest =>
      r <- f st line ;;
      r' <- feed f (fst r) rest ;;
      Ok (fst r', snd r :: snd r')
  end.

(** ** The transformers of [rn2md_transformers.py]

    The module [rn2md_transformers.py] (and its copy [transformers.py]) holds
    an earlier version of the header and list formatters.  Its generators
    are not primed by a decorator; as above, each is modelled by one turn of
    its loop. *)

(** [[^=]]: one character other than [=]; a negated class also takes the
    newline. *)
Definition not_equals_pattern : pattern := fun s pos =>
  match nth_error s pos with
  | Some c => if is_equals c then None else Some (MkMatch s pos (pos + 1) [])
  | None => None
  end.

(** [s.startswith(p)] and [s.endswith(p)]. *)
Definition startswith (p s : pystr) : bool := prefixb p s.
Definition endswith (p s : pystr) : bool := prefixb (rev p) (rev s).

(** [m.start()] on the result of a search: [None] has no such attribute. *)
Definition start_of (o : option rmatch) : result nat :=
  match o with
  | Some m => Ok (m_start m)
  | None => Raise AttributeError
  end.

(** [s[a:-b]]: [-0] is [0], and an end before the start of the string is
    the start. *)
Definition slice_neg (a b : nat) (s : pystr) : pystr :=
  match b with
  | 0 => slice a 0 s
  | S _ => slice a (length s - b) s
  end.

(** [HeaderTransformer]; [line[::-1]] is the reversed line. *)
Definition HeaderTransformer (base_level : Z) (line : pystr) : result pystr :=
  if negb (startswith (str "=") line) || negb (endswith (str "=") line)
  then Ok line
  else
    match re_search not_equals_pattern line with
    | None => Ok line
    | Some header_token_end =>
        r <- start_of (re_search not_equals_pattern (rev line)) ;;
        if negb (m_start header_token_end =? r) then Ok line
        else
          let level := m_start header_token_end in
          if (0 <? base_level + Z.of_nat level)%Z
          then Ok (repeat_char "#"%char (base_level + Z.of_nat level)
                   ++ str " " ++ lstrip (slice_neg level level line))
          else Ok line
    end.

(** [ListTransformer]: its [defaultlist] has the default 0, and the state is
    the pair of [ordered_list_counter] and [empty_line_counter]. *)
Definition ListTransformer (st : lists_state) (line : pystr)
  : result (lists_state * pystr) :=
  match strip line with
  | [] =>
      let n := sequential_empty_lines st + 1 in
      Ok (MkLists (if 2 <=? n then [] else ordered_list_history st) n, line)
  | _ :: _ =>
      match re_match list_item_pattern line with
      | None => Ok (MkLists [] 0, line)
      | Some list_match =>
          let index := fst (span_group 1 list_match) in
          let counter := dl_del_from (ordered_list_history st) (index + 1) in
          if pystr_eqb (group_n 1 list_match) (str "+")
          then
            let (c1, n) := dl_getitem 0 counter index in
            let c2 := dl_setitem 0 c1 index (n + 1) in
            let (c3, n3) := dl_getitem 0 c2 index in
            Ok (MkLists c3 0,
                firstn index line ++ (str_of_nat n3 ++ str ".")
                ++ skipn (snd (span_group 1 list_match)) line)
          else Ok (MkLists counter 0, line)
      end
  end.

(** *** Its delimiter scans ([transformers.py] has these names)

    [_SpansIntersect] does not sort the ends of its spans. *)
Definition _SpansIntersect (span1 span2 : nat * nat) : bool :=
  let (lo1, hi1) := span1 in
  let (lo2, hi2) := span2 in
  (lo2 <=? hi1) && (lo1 <=? hi2).

Definition _OccursInLink (m : rmatch) : bool :=
  let occurrences := re_finditer link_pattern (m_string m) in
  existsb (fun l => _SpansIntersect (span m) (span_group 2 l)) occurrences.

Definition _OccursInBacktick (m : rmatch) : bool :=
  let occurrences := re_finditer backtick_pattern (m_string m) in
  existsb (fun b => _SpansIntersect (span m) (span b)) occurrences.

Definition _FindNonEscapedPattens (pat : pattern) (s : pystr)
  : list rmatch :=
  let matches := re_finditer pat s in
  let matches := filter (fun m => negb (_OccursInLink m)) matches in
  filter (fun m => negb (_OccursInBacktick m)) matches.

(** [_Grouper]: [zip] over [n] references to one iterator gives the chunks
    of [n] successive items and drops an incomplete last chunk; [zip()]
    without arguments is empty. *)
Fixpoint _Grouper_chunks {A : Type} (fuel : nat) (l : list A) (n : nat)
  : list (list A) :=
  match fuel with
  | 0 => []
  | S fuel' =>
      if length l <? n then []
      else firstn n l :: _Grouper_chunks fuel' (skipn n l) n
  end.

Definition _Grouper {A : Type} (iterable : list A) (n : nat)
  : list (list A) :=
  match n with
  | 0 => []
  | S _ => _Grouper_chunks (length iterable) iterable n
  end.

(** [for mlo, mhi in ...]: unpacking a chunk that has not two items raises
    [ValueError]. *)
Definition unpack_chunk {A : Type} (chunk : list A) : result (A * A) :=
  match chunk with
  | [mlo; mhi] => Ok (mlo, mhi)
  | _ => Raise ValueError
  end.

(** [ItalicTransformer] *)
Definition ItalicTransformer (line : pystr) : result pystr :=
  let matches := _FindNonEscapedPattens (lit (str "//")) line in
  fold_left
    (fun acc chunk =>
       cur <- acc ;;
       p <- unpack_chunk chunk ;;
       Ok (firstn (m_start (fst p)) cur
           ++ (str "_" ++ slice (m_end (fst p)) (m_start (snd p)) cur
               ++ str "_")
           ++ skipn (m_end (snd p)) cur))
    (rev (_Grouper matches 2)) (Ok line).

(** [InnerUnderscoreEscaper] *)
Definition InnerUnderscoreEscaper (line : pystr) : pystr :=
  let ms := _FindNonEscapedPattens inner_underscore_pattern line in
  fold_left
    (fun line m =>
       firstn (m_start m) line ++ [backslash; underscore]
       ++ skipn (m_end m) line)
    (rev ms) line.

(** [s.rstrip(chars)] *)
Definition rstrip_chars (chars s : pystr) : pystr :=
  rev (skipn (count_while (fun c => existsb (Ascii.eqb c) chars) (rev s))
         (rev s)).

(** [set(line) == {'-'}]: the line is not empty and holds dashes only. *)
Definition only_dashes (line : pystr) : bool :=
  match line with
  | [] => false
  | _ :: _ => forallb (Ascii.eqb "-"%char) line
  end.

(** [StrikethroughTransformer] of [rn2md_transformers.py], where the scan
    and the grouping are named [_find_non_escaped_patterns] and
    [_grouper]. *)
Definition StrikethroughTransformer (line : pystr) : result pystr :=
  if only_dashes line then Ok line
  else
    let matches := _FindNonEscapedPattens (lit (str "--")) line in
    fold_left
      (fun acc chunk =>
         cur <- acc ;;
         p <- unpack_chunk chunk ;;
         Ok (firstn (m_start (fst p)) cur
             ++ (str "**OBSOLETE**("
                 ++ rstrip_chars (str ".!?")
                      (slice (m_end (fst p)) (m_start (snd p)) cur)
                 ++ str ")")
             ++ skipn (m_end (snd p)) cur))
      (rev (_Grouper matches 2)) (Ok line).

(** [CodeBlockTransformer] of [rn2md_transformers.py]: every double backtick
    counts, in a link or not. *)
Definition CodeBlockTransformer (line : pystr) : result pystr :=
  let matches := re_finditer (lit (str "``")) line in
  fold_left
    (fun acc chunk =>
       cur <- acc ;;
       p <- unpack_chunk chunk ;;
       Ok (firstn (m_start (fst p)) cur
           ++ (str "`"
               ++ rstrip_chars (str ".!?")
                    (slice (m_end (fst p)) (m_start (snd p)) cur)
               ++ str "`")
           ++ skipn (m_end (snd p)) cur))
    (rev (_Grouper matches 2)) (Ok line).

(** ** Specification-side definitions *)

(** A formatter that returns a line, and raises nothing, on every state and
    every line. *)
Definition total (f : formatter) : Prop :=
  forall st line, exists st' line', f st line = Ok (st', line').

(** The balanced-delimiter rewriting as the specification words it: from
    left to right, the text before a pair is kept, the opening delimiter
    becomes [start_sub], the interior is kept, the closing delimiter becomes
    [end_sub]; what follows the last pair is kept. *)
Fixpoint rewrite_pairs (start_sub end_sub : pystr) (s : pystr) (cur : nat)
  (pairs : list (rmatch * rmatch)) : pystr :=
  match pairs with
  | [] => skipn cur s
  | (a, b) :: rest =>
      slice cur (m_start a) s ++ start_sub
      ++ slice (m_end a) (m_start b) s ++ end_sub
      ++ rewrite_pairs start_sub end_sub s (m_end b) rest
  end.

Definition no_match : rmatch := MkMatch [] 0 0 [].

(** The pairing as the specification words it: pair [i] is made of matches
    [2 i] and [2 i + 1], for [i] below half the number of matches. *)
Definition pairs_by_index (ms : list rmatch) : list (rmatch * rmatch) :=
  map (fun i => (nth (2 * i) ms no_match, nth (2 * i + 1) ms no_match))
      (seq 0 (length ms / 2)).

(** Matches in scan order: each starts at or after [c] and at or after the
    end of the one before it. *)
Fixpoint spans_ordered (c : nat) (ms : list rmatch) : Prop :=
  match ms with
  | [] => True
  | m :: rest =>
      c <= m_start m /\ m_start m <= m_end m /\ spans_ordered (m_end m) rest
  end.

Fixpoint pairs_ordered (c : nat) (pairs : list (rmatch * rmatch)) : Prop :=
  match pairs with
  | [] => True
  | (a, b) :: rest =>
      c <= m_start a /\ m_start a <= m_end a /\ m_end a <= m_start b
      /\ m_start b <= m_end b /\ pairs_ordered (m_end b) rest
  end.

(** A pattern whose matches at an offset of [s] start there and end inside
    [s]. *)
Definition wf_pattern (pat : pattern) (s : pystr) : Prop :=
  forall p m, p <= length s -> pat s p = Some m ->
              m_start m = p /\ p <= m_end m /\ m_end m <= length s.

(** *** Lines without RedNotebook tokens *)

(** [d in s] for strings. *)
Fixpoint occursb (d s : pystr) : bool :=
  prefixb d s
  || match s with
     | [] => false
     | _ :: s' => occursb d s'
     end.

(** A line that holds none of the RedNotebook delimiters [//], [--], two
    backticks and [QQ] (which every link and image needs), and does not
    start with the header sign [=]. *)
Definition no_rednotebook_tokens (line : pystr) : bool :=
  negb (occursb (str "//") line)
  && negb (occursb (str "--") line)
  && negb (occursb [backtick; backtick] line)
  && negb (occursb qq line)
  && negb (prefixb (str "=") line).

(** *** A character-wise reading of the underscore formatter

    [closes t] tells whether a backtick opened just before [t] finds its
    partner: a backtick of [t] that no newline precedes.  [code_mask] marks
    the characters that lie strictly inside a backtick span, reading the line
    from left to right; [inside] tells whether a span is open. *)
Definition closes (t : pystr) : bool :=
  match lazy_dots [backtick] t with
  | Some _ => true
  | None => false
  end.

Fixpoint code_mask (inside : bool) (t : pystr) : list bool :=
  match t with
  | [] => []
  | c :: t' =>
      if Ascii.eqb c backtick
      then false :: code_mask (if inside then false else closes t') t'
      else inside :: code_mask inside t'
  end.

(** The look-arounds of the underscore pattern at a character [c] that
    follows [prev] and precedes [t']. *)
Definition underscore_here (prev : option ascii) (c : ascii) (t' : pystr)
  : bool :=
  Ascii.eqb underscore c
  && match prev with
     | Some a => is_word a
     | None => false
     end
  && match t' with
     | d :: _ => is_word d
     | [] => false
     end.

(** A backslash before every underscore between two word characters that
    the mask does not cover. *)
Fixpoint escape_outside (prev : option ascii) (t : pystr) (mask : list bool)
  : pystr :=
  match t, mask with
  | c :: t', b :: mask' =>
      (if underscore_here prev c t' && negb b
       then [backslash; underscore] else [c])
      ++ escape_outside (Some c) t' mask'
  | _, _ => []
  end.

(** The test that [_filter_matches] applies with its default predicates. *)
Definition default_filter (m : rmatch) : bool :=
  forallb (fun p : pred => p m) [_not_in_link; _not_in_backticks].

(** The character before offset [pos]. *)
Definition prev_of (s : pystr) (pos : nat) : option ascii :=
  match pos with
  | 0 => None
  | S q => nth_error s q
  end.

(** The characters of the number that replaces an ordered marker: decimal
    digits and the full stop. *)
Definition is_numeral (c : ascii) : bool :=
  let n := nat_of_ascii c in ((48 <=? n) && (n <=? 57)) || (n =? 46).

(** Neither a backtick nor an underscore. *)
Definition is_plain (c : ascii) : bool :=
  negb (Ascii.eqb c backtick) && negb (Ascii.eqb c underscore).

(** The last character of [prev] followed by [a]. *)
Definition last_of (prev : option ascii) (a : pystr) : option ascii :=
  fold_left (fun _ c => Some c) a prev.

(** An ordered item: the leading white space [w], the marker [+], a space
    and the text [t]. *)
Definition ordered_item (w t : pystr) : pystr :=
  w ++ "+"%char :: " "%char :: t.

(** An unordered item: the white space [w], the marker [-], a space and the
    text [t]. *)
Definition unordered_item (w t : pystr) : pystr :=
  w ++ "-"%char :: " "%char :: t.

(** The items [texts] numbered from [n] on, behind the white space [w]. *)
Fixpoint numbered (w : pystr) (n : nat) (texts : list pystr) : list pystr :=
  match texts with
  | [] => []
  | t :: rest =>
      (w ++ str_of_nat n ++ "."%char :: " "%char :: t)
      :: numbered w (S n) rest
  end.

(** The RedNotebook link of a name and a URL, and the Markdown link. *)
Definition rn_link (text url : pystr) : pystr :=
  str "[" ++ text ++ str " " ++ qq ++ url ++ qq ++ str "]".

Definition md_link (text url : pystr) : pystr :=
  str "[" ++ text ++ str "](" ++ url ++ str ")".

(** A document of runs of ordered items at the white space [w], each run
    behind a line of its own ([fst g], a blank line below), and the same
    document with the runs numbered on from [n]. *)
Definition runs_doc (w : pystr) (groups : list (pystr * list pystr))
  : list pystr :=
  flat_map (fun g => fst g :: map (ordered_item w) (snd g)) groups.

Fixpoint numbered_runs (w : pystr) (n : nat)
  (groups : list (pystr * list pystr)) : list pystr :=
  match groups with
  | [] => []
  | g :: rest =>
      fst g :: numbered w n (snd g)
      ++ numbered_runs w (n + length (snd g)) rest
  end.

(** A blank line and a run that is not empty. *)
Definition blank_then_items (g : pystr * list pystr) : bool :=
  forallb is_space (fst g)
  && match snd g with
     | [] => false
     | _ :: _ => true
     end.

(** An item with the marker [|]. *)
Definition is_bar_item (line : pystr) : bool :=
  let i := count_while is_space line in
  class_at (Ascii.eqb "|"%char) line i && class_at is_space line (S i).

(** A line that is neither blank nor an item with the marker [|]. *)
Definition plain_or_item (line : pystr) : bool :=
  negb (forallb is_space line) && negb (is_bar_item line).

(** Every character but the backslash. *)
Definition not_backslash (c : ascii) : bool := negb (Ascii.eqb c backslash).

(** The markers that the list formatter numbers. *)
Definition is_numbered_marker (c : ascii) : bool :=
  Ascii.eqb c "+"%char || Ascii.eqb c "|"%char.

(** [lacks cs s]: none of the characters [cs] occurs in [s]. *)
Definition lacks (cs s : pystr) : bool :=
  forallb (fun c => negb (existsb (Ascii.eqb c) cs)) s.

(** Case analysis over the 256 characters. *)
Ltac ascii_cases c :=
  destruct c as [[] [] [] [] [] [] [] []]; vm_compute;
  try reflexivity; try discriminate; try (intros; discriminate).

(** * Properties *)

(** ** Generic facts about the scan *)

Lemma scan_In (pat : pattern) (s : pystr) (fuel pos from : nat) (m : rmatch) :
  In m (scan pat s fuel pos from) ->
  exists p, pos <= p /\ p < pos + fuel /\ from <= p /\ pat s p = Some m.
Proof.
  revert pos from.
  induction fuel as [|fuel IH]; intros pos from Hin; simpl in Hin.
  - contradiction.
  - destruct (pos <? from) eqn:Hlt.
    + apply IH in Hin. destruct Hin as (p & H1 & H2 & H3 & H4).
      exists p. repeat split; trivial; lia.
    + apply Nat.ltb_ge in Hlt.
      destruct (pat s pos) as [m0|] eqn:Hpat.
      * destruct Hin as [->|Hin].
        -- exists pos. repeat split; trivial; lia.
        -- apply IH in Hin. destruct Hin as (p & H1 & H2 & H3 & H4).
           exists p. repeat split; trivial; lia.
      * apply IH in Hin. destruct Hin as (p & H1 & H2 & H3 & H4).
        exists p. repeat split; trivial; lia.
Qed.

Lemma re_finditer_In (pat : pattern) (s : pystr) (m : rmatch) :
  In m (re_finditer pat s) -> exists p, p <= length s /\ pat s p = Some m.
Proof.
  intros Hin. apply scan_In in Hin. destruct Hin as (p & _ & Hp & _ & H).
  exists p. split; [lia|exact H].
Qed.

Lemma re_search_Some (pat : pattern) (s : pystr) (m : rmatch) :
  re_search pat s = Some m -> exists p, pat s p = Some m.
Proof.
  unfold re_search. intros H.
  destruct (@re_finditer_In pat s m) as (p & _ & Hp); [|now exists p].
  destruct (re_finditer pat s); simpl in H; [discriminate|].
  injection H as ->. now left.
Qed.

(** ** The list formatter on concrete documents *)

(** C6: [+ a], [+ b], [+ c] are numbered 1, 2, 3; and in [+ a], [  + x],
    [+ b], [  + y] the item at column 2 that follows the shallower [+ b] is
    numbered 1 again. *)
Theorem list_numbering_examples :
  feed format_lists lists_init [str "+ a"; str "+ b"; str "+ c"]
  = Ok (MkLists [4] 0, [str "1. a"; str "2. b"; str "3. c"])
  /\ feed format_lists lists_init
       [str "+ a"; str "  + x"; str "+ b"; str "  + y"]
     = Ok (MkLists [3; 1; 2] 0,
           [str "1. a"; str "  1. x"; str "2. b"; str "  1. y"]).
Proof. split; vm_compute; reflexivity. Qed.

(** C2: a list item does not reset the count of blank lines.  After a blank
    line, [+ a] and a second blank line the count is 2, the history is
    cleared, and [+ b] is numbered 1 rather than 2. *)
Theorem blank_run_survives_list_item :
  feed format_lists lists_init [str ""; str "+ a"]
  = Ok (MkLists [2] 1, [str ""; str "1. a"])
  /\ feed format_lists lists_init [str ""; str "+ a"; str ""; str "+ b"]
     = Ok (MkLists [2] 2, [str ""; str "1. a"; str ""; str "1. b"]).
Proof. split; vm_compute; reflexivity. Qed.

(** C7: the group of the list pattern also holds [|], and whatever is not
    [-] is numbered: the line [| a] becomes [1. a] and the history is kept. *)
Theorem bar_line_is_numbered :
  format_lists (MkLists [3] 0) (str "| a") = Ok (MkLists [4] 0, str "3. a")
  /\ format_lists lists_init (str "| a") = Ok (MkLists [2] 0, str "1. a").
Proof. split; vm_compute; reflexivity. Qed.

(** ** The header formatter on concrete lines *)

(** C4: with padding -1 the line [=T=] has level 1 and padding + level = 0;
    the formatter still rewrites it, to a space followed by [T]. *)
Theorem header_at_level_zero_is_rewritten :
  format_headers (-1) (str "=T=") = str " T"
  /\ format_headers (-3) (str "==T==") = str " T".
Proof. split; vm_compute; reflexivity. Qed.

(** ** The pipeline on concrete lines *)

(** C1: the link formatter runs before the italic formatter, which then finds
    no RedNotebook link left: the two [//] inside the URL of
    [[a QQx//y//zQQ]] are paired and replaced.  The line of the claim,
    [[x QQhttp://a__bQQ]], keeps its underscores. *)
Theorem url_delimiters_are_paired_after_link_rewrite :
  format_rednotebook_as_markdown 0 lists_init
    (str "[a " ++ qq ++ str "x//y//z" ++ qq ++ str "]")
  = Ok (MkLists [] 0, str "[a](x_y_z)")
  /\ format_rednotebook_as_markdown 0 lists_init
       (str "[a " ++ qq ++ str "http://x" ++ qq ++ str "] [b " ++ qq
        ++ str "http://y" ++ qq ++ str "]")
     = Ok (MkLists [] 0, str "[a](http:_x) [b](http:_y)")
  /\ format_rednotebook_as_markdown 0 lists_init
       (str "[x " ++ qq ++ str "http://a__b" ++ qq ++ str "]")
     = Ok (MkLists [] 0, str "[x](http://a__b)").
Proof. repeat split; vm_compute; reflexivity. Qed.

(** ** Spans that touch *)

Lemma spans_intersect_touch (a b : nat * nat) :
  fst a = snd b \/ snd a = fst b -> _spans_intersect a b = true.
Proof.
  intros H. unfold _spans_intersect.
  apply andb_true_intro. split; apply Nat.leb_le; lia.
Qed.

(** C10: a match of any pattern whose span only touches a backtick span (it
    starts where the span ends, or ends where the span starts) fails
    [_not_in_backticks] and is dropped by the default filter.  In
    [a `b`// c //] the backtick span is (2, 5), the first [//] is (5, 7): it
    is dropped, the second [//] stays alone and the italic formatter leaves
    the line as it is. *)
Theorem touching_backtick_span_is_protected
  (pat : pattern) (s : pystr) (m b : rmatch) :
  In m (re_finditer pat s) ->
  m_string m = s ->
  In b (re_finditer backtick_pattern s) ->
  m_start m = m_end b \/ m_end m = m_start b ->
  (_not_in_backticks m = false /\ ~ In m (_filter_matches pat s None))
  /\ (map span (re_finditer backtick_pattern (str "a `b`// c //")) = [(2, 5)]
      /\ map span (re_finditer (lit (str "//")) (str "a `b`// c //"))
         = [(5, 7); (10, 12)]
      /\ map span (_filter_matches (lit (str "//")) (str "a `b`// c //") None)
         = [(10, 12)]
      /\ format_italic_text (str "a `b`// c //") = str "a `b`// c //").
Proof.
  intros Hm Hs Hb Htouch.
  assert (Hprot : _not_in_backticks m = false).
  { unfold _not_in_backticks. rewrite Hs.
    apply negb_false_iff, existsb_exists.
    exists b. split; [exact Hb|].
    apply spans_intersect_touch. exact Htouch. }
  split; [split; [exact Hprot|]|].
  - unfold _filter_matches. rewrite filter_In. intros [_ Hall].
    simpl in Hall. rewrite Hprot in Hall.
    rewrite andb_false_r in Hall. discriminate.
  - repeat split; vm_compute; reflexivity.
Qed.

Lemma touching_backtick_span_is_protected_witness :
  _not_in_backticks (MkMatch (str "a `b`// c //") 5 7 []) = false.
Proof.
  apply (proj1 (proj1 (@touching_backtick_span_is_protected
           (lit (str "//")) (str "a `b`// c //")
           (MkMatch (str "a `b`// c //") 5 7 [])
           (MkMatch (str "a `b`// c //") 2 5 [])
           (or_introl eq_refl) eq_refl (or_introl eq_refl)
           (or_introl eq_refl)))).
Defined.

(** ** Strings, runs and counts *)

Lemma pystr_eqb_true (a b : pystr) : pystr_eqb a b = true <-> a = b.
Proof.
  unfold pystr_eqb. destruct (list_eq_dec ascii_dec a b); split; congruence.
Qed.

Lemma pystr_eqb_false (a b : pystr) : pystr_eqb a b = false <-> a <> b.
Proof.
  unfold pystr_eqb. destruct (list_eq_dec ascii_dec a b); split; congruence.
Qed.

Lemma count_while_le (f : ascii -> bool) (s : pystr) :
  count_while f s <= length s.
Proof.
  induction s as [|c s IH]; simpl; [lia|]. destruct (f c); simpl; lia.
Qed.

Lemma count_while_firstn (f : ascii -> bool) (s : pystr) :
  Forall (fun c => f c = true) (firstn (count_while f s) s).
Proof.
  induction s as [|c s IH]; simpl; [constructor|].
  destruct (f c) eqn:E; simpl; [constructor; assumption|constructor].
Qed.

Lemma count_while_stop (f : ascii -> bool) (s : pystr) (c : ascii) :
  nth_error s (count_while f s) = Some c -> f c = false.
Proof.
  induction s as [|d s IH]; simpl; [discriminate|].
  destruct (f d) eqn:E; simpl; [exact IH|].
  intros H. injection H as <-. exact E.
Qed.

Lemma count_while_all (f : ascii -> bool) (s : pystr) :
  count_while f s = length s -> Forall (fun c => f c = true) s.
Proof.
  intros H. rewrite <- (firstn_all s), <- H. apply count_while_firstn.
Qed.

Lemma Forall_is_equals (s : pystr) :
  Forall (fun c => is_equals c = true) s -> s = repeat "="%char (length s).
Proof.
  induction 1 as [|c s Hc _ IH]; simpl; [reflexivity|].
  unfold is_equals in Hc. apply Ascii.eqb_eq in Hc. subst c. now rewrite <- IH.
Qed.

Lemma count_app (c : ascii) (a b : pystr) :
  count c (a ++ b) = count c a + count c b.
Proof. unfold count. now rewrite filter_app, length_app. Qed.

Lemma count_repeat_same (c : ascii) (n : nat) : count c (repeat c n) = n.
Proof.
  unfold count. induction n as [|n IH]; simpl; [reflexivity|].
  rewrite Ascii.eqb_refl. simpl. now rewrite IH.
Qed.

Lemma count_repeat_other (c d : ascii) (n : nat) :
  c <> d -> count c (repeat d n) = 0.
Proof.
  intros Hcd. unfold count. induction n as [|n IH]; simpl; [reflexivity|].
  destruct (Ascii.eqb c d) eqn:E; [apply Ascii.eqb_eq in E; contradiction|].
  exact IH.
Qed.

Lemma count_skipn_le (c : ascii) (n : nat) (s : pystr) :
  count c (skipn n s) <= count c s.
Proof.
  rewrite <- (firstn_skipn n s) at 2. rewrite count_app. lia.
Qed.

Lemma class_at_In (c : ascii) (s : pystr) (i : nat) :
  class_at (Ascii.eqb c) s i = true -> In c s.
Proof.
  unfold class_at. destruct (nth_error s i) as [d|] eqn:E; [|discriminate].
  intros H. apply Ascii.eqb_eq in H. subst d. eapply nth_error_In; eauto.
Qed.

(** ** The header formatter *)

Lemma header_start_match (s : pystr) (p : nat) (m : rmatch) :
  header_start_pattern s p = Some m ->
  m = MkMatch s 0 (count_while is_equals s) [] /\ 0 < count_while is_equals s.
Proof.
  unfold header_start_pattern. destruct p; [|discriminate].
  destruct (count_while is_equals s) eqn:E; [discriminate|].
  intros H. injection H as <-. split; [reflexivity|lia].
Qed.

Lemma header_end_match (s : pystr) (p : nat) (m : rmatch) :
  header_end_pattern s p = Some m ->
  exists k, count_while is_equals (skipn p s) = S k
            /\ at_dollar s (p + S k) = true
            /\ m = MkMatch s p (p + S k) [].
Proof.
  unfold header_end_pattern.
  destruct (count_while is_equals (skipn p s)) as [|k] eqn:E; [discriminate|].
  destruct (at_dollar s (p + S k)) eqn:D; [|discriminate].
  intros H. injection H as <-. exists k. repeat split; trivial.
Qed.

(** What it takes for the header formatter to rewrite a line without a
    newline: the line is a run of [level] equals signs, an interior that
    neither starts nor is empty, and a run of [level] equals signs again. *)
Lemma format_headers_rewrites (padding : Z) (line : pystr) :
  ~ In newline line ->
  format_headers padding line <> line ->
  let level := count_while is_equals line in
  let inner := slice level (length line - level) line in
  0 < level
  /\ line = repeat "="%char level ++ inner ++ repeat "="%char level
  /\ format_headers padding line
     = repeat_char "#"%char (padding + Z.of_nat level) ++ str " "
       ++ lstrip inner.
Proof.
  intros Hnl Hchg level inner. unfold format_headers in *.
  destruct (re_search header_start_pattern line) as [sd|] eqn:Hs;
    [|contradiction].
  apply re_search_Some in Hs. destruct Hs as (p0 & Hs).
  apply header_start_match in Hs. destruct Hs as (-> & Hlevel).
  fold level in Hlevel, Hchg |- *.
  assert (Hle : level <= length line) by apply count_while_le.
  assert (Hgs : group (MkMatch line 0 level []) = firstn level line).
  { unfold group, slice. cbn [m_start m_end m_string].
    now rewrite Nat.sub_0_r. }
  rewrite Hgs in *.
  destruct (pystr_eqb (firstn level line) line) eqn:Hwhole; [contradiction|].
  apply pystr_eqb_false in Hwhole.
  destruct (re_search header_end_pattern line) as [ed|] eqn:He;
    [|contradiction].
  apply re_search_Some in He. destruct He as (p & He).
  apply header_end_match in He. destruct He as (k & Hrun & Hdollar & ->).
  assert (Hge : group (MkMatch line p (p + S k) [])
                = firstn (S k) (skipn p line)).
  { unfold group, slice. cbn [m_start m_end m_string].
    replace (p + S k - p) with (S k) by lia. reflexivity. }
  rewrite Hge in *.
  destruct (pystr_eqb (firstn (S k) (skipn p line)) (firstn level line))
    eqn:Hsame; simpl in Hchg; [|contradiction].
  apply pystr_eqb_true in Hsame.
  assert (Hrunle : S k <= length (skipn p line)).
  { rewrite <- Hrun. apply count_while_le. }
  assert (Hk : S k = level).
  { apply (f_equal (@length ascii)) in Hsame.
    rewrite !length_firstn in Hsame. lia. }
  assert (Hend : p + S k = length line).
  { unfold at_dollar in Hdollar. apply orb_true_iff in Hdollar.
    destruct Hdollar as [H|H]; [now apply Nat.eqb_eq in H|].
    apply andb_true_iff in H. destruct H as [_ H].
    apply class_at_In in H. contradiction. }
  assert (Hlen : length (firstn level line) = level).
  { rewrite length_firstn. lia. }
  rewrite Hlen.
  assert (Htail : skipn p line = repeat "="%char level).
  { assert (Hl : length (skipn p line) = level).
    { rewrite length_skipn. lia. }
    rewrite <- Hl at 1. apply Forall_is_equals, count_while_all.
    rewrite Hrun. lia. }
  assert (Hhead : firstn level line = repeat "="%char level).
  { rewrite <- Hlen at 2. apply Forall_is_equals, count_while_firstn. }
  assert (Hlt : level < length line).
  { destruct (Nat.eq_dec level (length line)) as [E|E]; [|lia].
    exfalso. apply Hwhole. rewrite E. apply firstn_all. }
  assert (Hp : level <= p).
  { destruct (Nat.le_gt_cases level p) as [H|H]; [exact H|exfalso].
    destruct (nth_error line level) as [c|] eqn:Hc.
    - pose proof (count_while_stop is_equals line Hc) as Hstop.
      assert (Hc' : nth_error (skipn p line) (level - p) = Some c).
      { rewrite nth_error_skipn. rewrite <- Hc. f_equal. lia. }
      rewrite Htail in Hc'. apply nth_error_In, repeat_spec in Hc'.
      subst c. discriminate.
    - apply nth_error_None in Hc. lia. }
  split; [exact Hlevel|]. split; [|reflexivity].
  assert (Hp' : length line - level = p) by lia.
  unfold inner. rewrite Hp'. unfold slice.
  rewrite <- Hhead at 1. rewrite <- Htail.
  rewrite <- (firstn_skipn level line) at 1. f_equal.
  rewrite <- (firstn_skipn (p - level) (skipn level line)) at 1. f_equal.
  rewrite skipn_skipn. f_equal. lia.
Qed.

(** C3, as amended: on a line without a newline that the header formatter
    rewrites, with padding + level positive and an interior free of [=] and
    [#], the count of [=] in the input is twice the count of [#] in the
    output less the padding.  With padding 0, [=Title=] gives [# Title],
    [==Sub==] gives [## Sub] and [=unbalanced] is left as it is. *)
Theorem header_count_invariant (padding : Z) (line : pystr) :
  let level := count_while is_equals line in
  let inner := slice level (length line - level) line in
  ~ In newline line ->
  format_headers padding line <> line ->
  (0 < padding + Z.of_nat level)%Z ->
  count "="%char inner = 0 ->
  count "#"%char inner = 0 ->
  (Z.of_nat (count "="%char line)
   = (Z.of_nat (count "#"%char (format_headers padding line)) - padding) * 2)%Z
  /\ (format_headers 0 (str "=Title=") = str "# Title"
      /\ format_headers 0 (str "==Sub==") = str "## Sub"
      /\ format_headers 0 (str "=unbalanced") = str "=unbalanced").
Proof.
  intros level inner Hnl Hchg Hpos Heq Hhash.
  split; [|repeat split; vm_compute; reflexivity].
  destruct (format_headers_rewrites padding Hnl Hchg) as (Hlevel & Hline & Hout).
  fold level in Hlevel, Hline, Hout. fold inner in Hline, Hout.
  rewrite Hout. rewrite Hline at 1.
  rewrite !count_app, !count_repeat_same, Heq.
  unfold repeat_char. rewrite (@count_repeat_same "#"%char).
  assert (H0 : count "#"%char (str " ") = 0) by reflexivity.
  assert (H1 : count "#"%char (lstrip inner) = 0).
  { pose proof (count_skipn_le "#"%char (count_while is_space inner) inner).
    unfold lstrip. lia. }
  rewrite H0, H1. lia.
Qed.

Lemma header_count_invariant_witness :
  (Z.of_nat (count "="%char (str "==Sub=="))
   = (Z.of_nat (count "#"%char (format_headers 1 (str "==Sub=="))) - 1) * 2)%Z.
Proof.
  apply (proj1 (@header_count_invariant 1 (str "==Sub==")
    ltac:(vm_compute; intuition discriminate)
    ltac:(vm_compute; discriminate)
    ltac:(vm_compute; reflexivity)
    ltac:(vm_compute; reflexivity)
    ltac:(vm_compute; reflexivity))).
Defined.

(** C3 as stated fails: [=a=b=] is rewritten to [# a=b], with three [=] in
    the input and one [#] in the output; [=#=] is rewritten to [# #], with
    two [=] and two [#]; and with padding -3 the line [=T=] is rewritten
    without any [#]. *)
Lemma header_count_counterexample :
  format_headers 0 (str "=a=b=") = str "# a=b"
  /\ format_headers 0 (str "=a=b=") <> str "=a=b="
  /\ (Z.of_nat (count "="%char (str "=a=b="))
      <> (Z.of_nat (count "#"%char (format_headers 0 (str "=a=b="))) - 0) * 2)%Z
  /\ format_headers 0 (str "=#=") = str "# #"
  /\ (Z.of_nat (count "="%char (str "=#="))
      <> (Z.of_nat (count "#"%char (format_headers 0 (str "=#="))) - 0) * 2)%Z
  /\ format_headers (-3) (str "=T=") = str " T"
  /\ (Z.of_nat (count "="%char (str "=T="))
      <> (Z.of_nat (count "#"%char (format_headers (-3) (str "=T=")))
          - (-3)) * 2)%Z.
Proof. repeat split; vm_compute; discriminate. Qed.

(** ** Totality *)

Lemma list_item_match (s : pystr) (m : rmatch) :
  re_match list_item_pattern s = Some m ->
  let i := count_while is_space s in
  m = MkMatch s 0 (i + 2) [(i, i + 1)]
  /\ class_at is_list_marker s i = true
  /\ class_at is_space s (S i) = true.
Proof.
  intros H i. unfold re_match, list_item_pattern in H. fold i in H.
  destruct (class_at is_list_marker s i) eqn:E1; [|discriminate].
  destruct (class_at is_space s (S i)) eqn:E2; [|discriminate].
  simpl in H. injection H as <-. repeat split.
Qed.

Lemma format_lists_total (st : lists_state) (line : pystr) :
  exists st' line', format_lists st line = Ok (st', line').
Proof.
  unfold format_lists.
  destruct (re_match list_item_pattern line) as [m|] eqn:Hm.
  - apply list_item_match in Hm. destruct Hm as (-> & Hmark & _).
    cbn [span_group span m_groups nth fst].
    unfold class_at in Hmark. unfold getitem.
    destruct (nth_error line (count_while is_space line)) as [c|];
      [|discriminate].
    cbn [bind].
    destruct (Ascii.eqb c "-"%char); cbn; eauto.
  - destruct (strip line); eauto.
Qed.

(** A line that is neither blank nor matched by the list pattern comes out
    as it is and clears the history. *)
Lemma format_lists_prose (st : lists_state) (line : pystr) :
  re_match list_item_pattern line = None ->
  strip line <> [] ->
  format_lists st line = Ok (MkLists [] 0, line).
Proof.
  intros Hm Hs. unfold format_lists. rewrite Hm.
  destruct (strip line); [contradiction|reflexivity].
Qed.

Lemma stateless_total (f : pystr -> pystr) (st : lists_state) (line : pystr) :
  exists st' line', stateless f st line = Ok (st', line').
Proof. unfold stateless. eauto. Qed.

Lemma send_all_total (fs : list formatter) :
  Forall total fs -> total (send_all fs).
Proof.
  induction 1 as [|f fs Hf _ IH]; intros st line; simpl; [eauto|].
  destruct (Hf st line) as (st1 & line1 & ->). cbn [bind fst snd].
  apply IH.
Qed.

Lemma ordered_formatters_total (header_padding : Z) :
  Forall total (ordered_formatters header_padding).
Proof.
  unfold ordered_formatters.
  repeat (constructor;
          [first [intros st line; apply stateless_total
                 |intros st line; apply format_lists_total]|]).
  constructor.
Qed.

Lemma feed_total (f : formatter) :
  total f ->
  forall lines st, exists st' out,
    feed f st lines = Ok (st', out) /\ length out = length lines.
Proof.
  intros Hf lines. induction lines as [|line rest IH]; intros st; simpl.
  - exists st, []. split; reflexivity.
  - destruct (Hf st line) as (st1 & line1 & ->). cbn [bind fst snd].
    destruct (IH st1) as (st2 & out & -> & Hlen). cbn [bind fst snd].
    exists st2, (line1 :: out). split; [reflexivity|]. simpl. now rewrite Hlen.
Qed.

(** C9: every formatter of the pipeline, and the pipeline itself, returns a
    line for every state and every input line and raises no exception; a
    document of any length gives as many lines back.  The empty line,
    an unpaired [//], a header whose runs differ and a lone [+] come out as
    they went in; [+ ] with nothing after it is numbered. *)
Theorem pipeline_total (header_padding : Z) :
  Forall total (ordered_formatters header_padding)
  /\ total (format_rednotebook_as_markdown header_padding)
  /\ (forall lines st, exists st' out,
         feed (format_rednotebook_as_markdown header_padding) st lines
         = Ok (st', out)
         /\ length out = length lines)
  /\ (format_rednotebook_as_markdown header_padding lists_init (str "")
      = Ok (MkLists [] 1, str "")
      /\ format_rednotebook_as_markdown header_padding lists_init
           (str "a // b")
         = Ok (MkLists [] 0, str "a // b")
      /\ format_rednotebook_as_markdown header_padding lists_init
           (str "==a=")
         = Ok (MkLists [] 0, str "==a=")
      /\ format_rednotebook_as_markdown header_padding lists_init (str "+")
         = Ok (MkLists [] 0, str "+")
      /\ format_rednotebook_as_markdown header_padding lists_init (str "+ ")
         = Ok (MkLists [2] 0, str "1. ")).
Proof.
  pose proof (ordered_formatters_total header_padding) as Hall.
  assert (Hp : total (format_rednotebook_as_markdown header_padding)).
  { apply send_all_total. exact Hall. }
  split; [exact Hall|]. split; [exact Hp|]. split.
  - intros lines st. apply feed_total. exact Hp.
  - repeat split; vm_compute; reflexivity.
Qed.

(** ** Ordered matches *)

Lemma spans_ordered_weaken (c c' : nat) (ms : list rmatch) :
  c' <= c -> spans_ordered c ms -> spans_ordered c' ms.
Proof.
  destruct ms as [|m ms]; simpl; [trivial|].
  intros Hc (H1 & H2 & H3). repeat split; trivial; lia.
Qed.

Lemma spans_ordered_filter (f : rmatch -> bool) (ms : list rmatch) :
  forall c, spans_ordered c ms -> spans_ordered c (filter f ms).
Proof.
  induction ms as [|m ms IH]; intros c H; simpl in *; [trivial|].
  destruct H as (H1 & H2 & H3).
  destruct (f m); simpl.
  - repeat split; trivial. now apply IH.
  - apply IH. apply spans_ordered_weaken with (c := m_end m); [lia|exact H3].
Qed.

Lemma scan_ordered (pat : pattern) (s : pystr) :
  wf_pattern pat s ->
  forall fuel pos from, pos + fuel <= S (length s) ->
                        spans_ordered from (scan pat s fuel pos from).
Proof.
  intros Hwf. induction fuel as [|fuel IH]; intros pos from Hb; simpl;
    [trivial|].
  destruct (pos <? from) eqn:Hlt.
  - apply IH. lia.
  - apply Nat.ltb_ge in Hlt.
    destruct (pat s pos) as [m|] eqn:Hpat.
    + destruct (Hwf pos m) as (H1 & H2 & H3); [lia|exact Hpat|].
      simpl. repeat split; [lia|lia|]. apply IH. lia.
    + apply IH. lia.
Qed.

Lemma re_finditer_ordered (pat : pattern) (s : pystr) :
  wf_pattern pat s -> spans_ordered 0 (re_finditer pat s).
Proof. intros Hwf. apply scan_ordered; [exact Hwf|lia]. Qed.

Lemma re_finditer_bounded (pat : pattern) (s : pystr) :
  wf_pattern pat s ->
  Forall (fun m => m_end m <= length s) (re_finditer pat s).
Proof.
  intros Hwf. apply Forall_forall. intros m Hm.
  apply re_finditer_In in Hm. destruct Hm as (p & Hp & Hpat).
  now destruct (Hwf p m Hp Hpat) as (_ & _ & H).
Qed.

Lemma prefixb_length (d t : pystr) :
  prefixb d t = true -> length d <= length t.
Proof.
  revert t. induction d as [|a d IH]; intros [|b t]; simpl; try lia;
    try discriminate.
  intros H. apply andb_true_iff in H. destruct H as [_ H].
  apply IH in H. lia.
Qed.

Lemma lit_wf (d s : pystr) : wf_pattern (lit d) s.
Proof.
  intros p m Hp. unfold lit.
  destruct (prefixb d (skipn p s)) eqn:E; [|discriminate].
  intros H. injection H as <-. simpl.
  apply prefixb_length in E. rewrite length_skipn in E.
  repeat split; lia.
Qed.

(** ** Pairs of matches *)

Lemma list_ind2 (A : Type) (P : list A -> Prop) :
  P [] -> (forall a, P [a]) -> (forall a b l, P l -> P (a :: b :: l)) ->
  forall l, P l.
Proof.
  intros H0 H1 H2 l.
  assert (H : P l /\ forall a, P (a :: l)).
  { induction l as [|b l [IH1 IH2]]; [split; [exact H0|exact H1]|].
    split; [apply IH2|]. intros a. apply H2. exact IH1. }
  apply H.
Qed.

Lemma half_SS (n : nat) : S (S n) / 2 = S (n / 2).
Proof.
  replace (S (S n)) with (n + 1 * 2) by lia.
  rewrite Nat.div_add by lia. lia.
Qed.

Lemma zip_shared_length (A : Type) (l : list A) :
  length (zip_shared l) = length l / 2.
Proof.
  induction l as [| a | a b l IH] using list_ind2; [reflexivity..|].
  cbn [zip_shared length]. rewrite half_SS. now rewrite IH.
Qed.

Lemma zip_shared_by_index (ms : list rmatch) :
  zip_shared ms = pairs_by_index ms.
Proof.
  unfold pairs_by_index.
  induction ms as [| a | a b ms IH] using list_ind2; [reflexivity..|].
  cbn [zip_shared length]. rewrite half_SS.
  cbn [seq map]. rewrite <- seq_shift, map_map. f_equal.
  rewrite IH. apply map_ext. intros i.
  replace (2 * S i) with (S (S (2 * i))) by lia.
  replace (S (S (2 * i)) + 1) with (S (S (2 * i + 1))) by lia.
  reflexivity.
Qed.

Lemma zip_shared_ordered (ms : list rmatch) :
  forall c, spans_ordered c ms -> pairs_ordered c (zip_shared ms).
Proof.
  induction ms as [| a | a b ms IH] using list_ind2; intros c H;
    cbn [zip_shared]; [exact I..|].
  simpl in H. destruct H as (H1 & H2 & H3 & H4 & H5).
  simpl. repeat split; trivial. now apply IH.
Qed.

Lemma zip_shared_bounded (P : rmatch -> Prop) (ms : list rmatch) :
  Forall P ms -> Forall (fun p => P (snd p)) (zip_shared ms).
Proof.
  induction ms as [| a | a b ms IH] using list_ind2; intros H;
    cbn [zip_shared]; [constructor..|].
  inversion H as [|? ? _ H']. inversion H' as [|? ? Hb H'']. subst.
  constructor; [exact Hb|]. now apply IH.
Qed.

(** ** Slices of a partly rewritten string *)

Lemma firstn_prefix (a e : nat) (s x : pystr) :
  a <= e -> e <= length s -> firstn a (firstn e s ++ x) = firstn a s.
Proof.
  intros Ha He. rewrite firstn_app, length_firstn.
  replace (a - Nat.min e (length s)) with 0 by lia.
  rewrite firstn_firstn. cbn [firstn]. rewrite app_nil_r.
  f_equal. lia.
Qed.

Lemma skipn_prefix (e : nat) (s x : pystr) :
  e <= length s -> skipn e (firstn e s ++ x) = x.
Proof.
  intros He. rewrite skipn_app, length_firstn.
  replace (e - Nat.min e (length s)) with 0 by lia.
  rewrite skipn_all2 by (rewrite length_firstn; lia). reflexivity.
Qed.

Lemma slice_prefix (a b e : nat) (s x : pystr) :
  b <= e -> e <= length s -> slice a b (firstn e s ++ x) = slice a b s.
Proof.
  intros Hb He. unfold slice.
  destruct (Nat.le_gt_cases b a) as [Hba|Hab].
  - replace (b - a) with 0 by lia. reflexivity.
  - rewrite skipn_app, length_firstn.
    replace (a - Nat.min e (length s)) with 0 by lia. cbn [skipn].
    rewrite firstn_app.
    rewrite length_skipn, length_firstn.
    replace (b - a - (Nat.min e (length s) - a)) with 0 by lia.
    cbn [firstn]. rewrite app_nil_r.
    rewrite skipn_firstn_comm, firstn_firstn. f_equal. lia.
Qed.

Lemma firstn_slice (c a : nat) (s : pystr) :
  c <= a -> firstn a s = firstn c s ++ slice c a s.
Proof.
  intros Hc. unfold slice.
  rewrite <- (firstn_skipn c (firstn a s)).
  rewrite firstn_firstn, skipn_firstn_comm. f_equal. f_equal. lia.
Qed.

Lemma skipn_slice (c t : nat) (s : pystr) :
  c <= t -> skipn c s = slice c t s ++ skipn t s.
Proof.
  intros Hc. unfold slice.
  rewrite <- (firstn_skipn (t - c) (skipn c s)) at 1.
  rewrite skipn_skipn. f_equal. f_equal. lia.
Qed.

(** The loop of [_sub_balanced_delims], last pair first, against the
    left-to-right rewriting. *)
Lemma sub_pairs_rewrite (ss es s : pystr) (pairs : list (rmatch * rmatch)) :
  forall c,
    pairs_ordered c pairs ->
    Forall (fun p => m_end (snd p) <= length s) pairs ->
    fold_left (sub_pair ss es) (rev pairs) s
    = firstn c s ++ rewrite_pairs ss es s c pairs.
Proof.
  induction pairs as [|[a b] rest IH]; intros c Hord Hbnd.
  - simpl. now rewrite firstn_skipn.
  - simpl in Hord. destruct Hord as (H1 & H2 & H3 & H4 & H5).
    inversion Hbnd as [|? ? Hb Hrest]. subst. simpl in Hb.
    cbn [rev]. rewrite fold_left_app. cbn [fold_left].
    rewrite (IH (m_end b) H5 Hrest).
    unfold sub_pair.
    rewrite firstn_prefix by lia.
    rewrite slice_prefix by lia.
    rewrite skipn_prefix by lia.
    cbn [rewrite_pairs].
    rewrite (@firstn_slice c (m_start a) s H1).
    now rewrite <- !app_assoc.
Qed.

Lemma rewrite_pairs_unpaired (ss es s : pystr) (ms : list rmatch) :
  forall c, spans_ordered c ms ->
            Nat.odd (length ms) = true ->
            exists pre, rewrite_pairs ss es s c (zip_shared ms)
                        = pre ++ skipn (m_start (last ms no_match)) s.
Proof.
  induction ms as [| m | a b ms IH] using list_ind2; intros c Hord Hodd.
  - discriminate.
  - simpl in Hord. destruct Hord as (H1 & _).
    exists (slice c (m_start m) s). simpl. now apply skipn_slice.
  - simpl in Hord. destruct Hord as (H1 & H2 & H3 & H4 & H5).
    destruct (IH (m_end b) H5) as (pre & Hpre).
    { change (length (a :: b :: ms)) with (S (S (length ms))) in Hodd.
      now rewrite Nat.odd_succ_succ in Hodd. }
    assert (Hlast : last (a :: b :: ms) no_match = last ms no_match).
    { destruct ms; [discriminate|reflexivity]. }
    cbn [zip_shared rewrite_pairs]. rewrite Hpre, Hlast.
    exists (slice c (m_start a) s ++ ss ++ slice (m_end a) (m_start b) s
            ++ es ++ pre).
    now rewrite <- !app_assoc.
Qed.

(** C5: for every literal delimiter, replacement, line and set of
    predicates, the matches that pass the filter are paired by index (0 with
    1, 2 with 3, ...), which makes half their number of pairs, rounded down;
    the result of [_sub_balanced_delims] is the left-to-right rewriting of
    these pairs, interiors kept; and with an odd number of matches the line
    from the last match on is kept as it is.  [a // b // c //] has three
    matches and becomes [a _ b _ c //]. *)
Theorem balanced_delims_pair_consecutively
  (d : pystr) (sub : sub_arg) (line : pystr) (preds : option (list pred)) :
  let ms := _filter_matches (lit d) line preds in
  let pairs := zip_shared ms in
  let out := _sub_balanced_delims (lit d) sub line preds in
  pairs = pairs_by_index ms
  /\ length pairs = length ms / 2
  /\ out = rewrite_pairs (fst (sub_ends sub)) (snd (sub_ends sub)) line 0 pairs
  /\ (if Nat.odd (length ms)
      then exists pre, out = pre ++ skipn (m_start (last ms no_match)) line
      else True)
  /\ (length (_filter_matches (lit (str "//")) (str "a // b // c //") None) = 3
      /\ format_italic_text (str "a // b // c //") = str "a _ b _ c //").
Proof.
  intros ms pairs out.
  assert (Hord : spans_ordered 0 ms).
  { apply spans_ordered_filter, re_finditer_ordered, lit_wf. }
  assert (Hbnd : Forall (fun m => m_end m <= length line) ms).
  { unfold ms, _filter_matches. apply Forall_forall. intros m Hm.
    apply filter_In in Hm. destruct Hm as [Hm _]. revert m Hm.
    apply Forall_forall, re_finditer_bounded, lit_wf. }
  assert (Hout : out = rewrite_pairs (fst (sub_ends sub)) (snd (sub_ends sub))
                         line 0 pairs).
  { unfold out, _sub_balanced_delims. destruct (sub_ends sub) as [ss es].
    fold ms. fold pairs. cbn [fst snd].
    rewrite (@sub_pairs_rewrite ss es line pairs 0).
    - reflexivity.
    - apply zip_shared_ordered. exact Hord.
    - exact (@zip_shared_bounded (fun m => m_end m <= length line) ms Hbnd). }
  split; [apply zip_shared_by_index|].
  split; [apply zip_shared_length|].
  split; [exact Hout|]. split.
  - destruct (Nat.odd (length ms)) eqn:Hodd; [|exact I].
    rewrite Hout. now apply rewrite_pairs_unpaired.
  - split; vm_compute; reflexivity.
Qed.

(** ** Lines on which a pattern has no match *)

Lemma scan_nil (pat : pattern) (s : pystr) :
  (forall p, p <= length s -> pat s p = None) ->
  forall fuel pos from, pos + fuel <= S (length s) ->
                        scan pat s fuel pos from = [].
Proof.
  intros Hnone. induction fuel as [|fuel IH]; intros pos from Hb; simpl;
    [reflexivity|].
  destruct (pos <? from); [apply IH; lia|].
  rewrite Hnone by lia. apply IH. lia.
Qed.

Lemma re_finditer_nil (pat : pattern) (s : pystr) :
  (forall p, p <= length s -> pat s p = None) -> re_finditer pat s = [].
Proof. intros H. apply scan_nil; [exact H|lia]. Qed.

Lemma prefixb_occursb (d s : pystr) : prefixb d s = true -> occursb d s = true.
Proof. intros H. destruct s; simpl; rewrite H; reflexivity. Qed.

Lemma occursb_cons (d s : pystr) (c : ascii) :
  occursb d s = true -> occursb d (c :: s) = true.
Proof. intros H. cbn [occursb]. rewrite H. apply orb_true_r. Qed.

Lemma occursb_skipn (d s : pystr) (p : nat) :
  occursb d (skipn p s) = true -> occursb d s = true.
Proof.
  revert s. induction p as [|p IH]; intros s H; [exact H|].
  destruct s as [|c s]; [exact H|].
  apply occursb_cons, IH. exact H.
Qed.

Lemma lit_absent (d s : pystr) :
  occursb d s = false -> re_finditer (lit d) s = [].
Proof.
  intros Hno. apply re_finditer_nil. intros p _. unfold lit.
  destruct (prefixb d (skipn p s)) eqn:E; [|reflexivity].
  apply prefixb_occursb, occursb_skipn in E. congruence.
Qed.

Lemma link_body_qq (t : pystr) (kj : nat * nat) :
  link_body t = Some kj -> occursb qq t = true.
Proof.
  revert kj. induction t as [|c t IH]; intros kj; cbn [link_body].
  - cbn. discriminate.
  - destruct (prefixb (" "%char :: qq) (c :: t)) eqn:E.
    + intros _. cbn [prefixb] in E. apply andb_true_iff in E.
      destruct E as [_ E]. apply occursb_cons, prefixb_occursb. exact E.
    + destruct (Ascii.eqb c "]"%char); [discriminate|].
      destruct (link_body t) as [kj'|]; [|discriminate].
      intros _. apply occursb_cons. eapply IH. reflexivity.
Qed.

Lemma link_absent (s : pystr) :
  occursb qq s = false -> re_finditer link_pattern s = [].
Proof.
  intros Hno. apply re_finditer_nil. intros p _. unfold link_pattern.
  destruct (skipn p s) as [|c t] eqn:Hs; [reflexivity|].
  destruct (Ascii.eqb c "["%char); [|reflexivity].
  destruct (link_body t) as [[k j]|] eqn:Hb; [|reflexivity].
  apply link_body_qq in Hb.
  assert (H : occursb qq (skipn p s) = true).
  { rewrite Hs. now apply occursb_cons. }
  apply occursb_skipn in H. congruence.
Qed.

Lemma image_absent (s : pystr) :
  occursb qq s = false -> re_finditer image_pattern s = [].
Proof.
  intros Hno. apply re_finditer_nil. intros p _. unfold image_pattern.
  destruct (prefixb ("["%char :: qq) (skipn p s)) eqn:E; [|reflexivity].
  destruct (skipn p s) as [|c t] eqn:Hs; [discriminate|].
  cbn [prefixb] in E. apply andb_true_iff in E. destruct E as [_ E].
  assert (H : occursb qq (skipn p s) = true).
  { rewrite Hs. now apply occursb_cons, prefixb_occursb. }
  apply occursb_skipn in H. congruence.
Qed.

Lemma sub_balanced_absent (d : pystr) (sub : sub_arg) (s : pystr)
  (preds : option (list pred)) :
  occursb d s = false -> _sub_balanced_delims (lit d) sub s preds = s.
Proof.
  intros Hno. unfold _sub_balanced_delims, _filter_matches.
  rewrite (lit_absent _ _ Hno). destruct (sub_ends sub). reflexivity.
Qed.

Lemma format_links_absent (s : pystr) :
  occursb qq s = false -> format_links s = s.
Proof.
  intros Hno. unfold format_links, re_sub. now rewrite (link_absent _ Hno).
Qed.

Lemma format_images_absent (s : pystr) :
  occursb qq s = false -> format_images s = s.
Proof.
  intros Hno. unfold format_images, re_sub. now rewrite (image_absent _ Hno).
Qed.

Lemma format_headers_absent (padding : Z) (s : pystr) :
  prefixb (str "=") s = false -> format_headers padding s = s.
Proof.
  intros Hno. unfold format_headers.
  replace (re_search header_start_pattern s) with (@None rmatch);
    [reflexivity|].
  unfold re_search. rewrite re_finditer_nil; [reflexivity|].
  intros p _. unfold header_start_pattern. destruct p; [|reflexivity].
  destruct s as [|c t]; [reflexivity|].
  unfold str in Hno. cbn [list_ascii_of_string prefixb] in Hno.
  cbn [count_while]. unfold is_equals. rewrite Ascii.eqb_sym.
  destruct (Ascii.eqb "="%char c); [discriminate|reflexivity].
Qed.

Lemma format_strikethrough_absent (s : pystr) :
  occursb (str "--") s = false -> format_strikethrough_text s = s.
Proof.
  intros Hno. unfold format_strikethrough_text.
  destruct (negb _); [|reflexivity]. now apply sub_balanced_absent.
Qed.

(** ** Backtick spans and the code mask *)

Lemma lazy_dots_backtick_cons (c : ascii) (t : pystr) :
  lazy_dots [backtick] (c :: t)
  = if Ascii.eqb c backtick then Some 0
    else if is_dot c then option_map S (lazy_dots [backtick] t) else None.
Proof.
  cbn [lazy_dots prefixb]. rewrite andb_true_r, (Ascii.eqb_sym backtick c).
  reflexivity.
Qed.

Lemma skipn_cons_next (s t : pystr) (c : ascii) (pos : nat) :
  skipn pos s = c :: t -> skipn (S pos) s = t /\ nth_error s pos = Some c
                          /\ pos < length s.
Proof.
  intros H. split; [|split].
  - change (S pos) with (1 + pos). rewrite <- skipn_skipn, H. reflexivity.
  - rewrite <- (Nat.add_0_r pos), <- nth_error_skipn, H. reflexivity.
  - destruct (Nat.le_gt_cases (length s) pos) as [Hle|Hlt]; [|exact Hlt].
    rewrite skipn_all2 in H by exact Hle. discriminate.
Qed.

Lemma backtick_pattern_at (s t : pystr) (c : ascii) (pos : nat) :
  skipn pos s = c :: t ->
  backtick_pattern s pos
  = if Ascii.eqb c backtick
    then match lazy_dots [backtick] t with
         | Some j => Some (MkMatch s pos (pos + 1 + j + 1) [])
         | None => None
         end
    else None.
Proof.
  intros H. unfold backtick_pattern. rewrite H.
  cbn [prefixb]. rewrite andb_true_r, (Ascii.eqb_sym backtick c).
  destruct (Ascii.eqb c backtick); [|reflexivity].
  replace (pos + 1) with (S pos) by lia.
  destruct (skipn_cons_next _ _ H) as (-> & _). reflexivity.
Qed.

Lemma backtick_pattern_end (s : pystr) (pos : nat) :
  skipn pos s = [] -> backtick_pattern s pos = None.
Proof. intros H. unfold backtick_pattern. rewrite H. reflexivity. Qed.

Lemma lazy_dots_bound (stop t : pystr) (j : nat) :
  lazy_dots stop t = Some j ->
  j + length stop <= length t /\ prefixb stop (skipn j t) = true.
Proof.
  revert j. induction t as [|c t IH]; intros j; cbn [lazy_dots].
  - destruct (prefixb stop []) eqn:E; [|discriminate].
    intros H. injection H as <-. split; [|exact E].
    apply prefixb_length in E. simpl in *. lia.
  - destruct (prefixb stop (c :: t)) eqn:E.
    + intros H. injection H as <-. split; [|exact E].
      apply prefixb_length in E. simpl in *. lia.
    + destruct (is_dot c); [|discriminate].
      destruct (lazy_dots stop t) as [j'|]; [|discriminate].
      intros H. injection H as <-. destruct (IH j' eq_refl) as [H1 H2].
      split; [simpl; lia|exact H2].
Qed.

(** A match of the backtick pattern starts and ends with a backtick. *)
Lemma backtick_match_shape (s : pystr) (p : nat) (b : rmatch) :
  backtick_pattern s p = Some b ->
  m_start b = p /\ p + 2 <= m_end b /\ m_end b <= length s
  /\ nth_error s (m_start b) = Some backtick
  /\ nth_error s (m_end b - 1) = Some backtick.
Proof.
  unfold backtick_pattern.
  destruct (prefixb [backtick] (skipn p s)) eqn:E; [|discriminate].
  destruct (lazy_dots [backtick] (skipn (p + 1) s)) as [j|] eqn:Hj;
    [|discriminate].
  intros H. injection H as <-. cbn [m_start m_end].
  apply lazy_dots_bound in Hj. destruct Hj as [Hlen Hpre].
  rewrite length_skipn in Hlen. cbn [length] in Hlen.
  assert (Hc : forall q, prefixb [backtick] (skipn q s) = true ->
                         nth_error s q = Some backtick).
  { intros q Hq. destruct (skipn q s) as [|c t] eqn:Hs; [discriminate|].
    cbn [prefixb] in Hq. rewrite andb_true_r in Hq.
    apply Ascii.eqb_eq in Hq. subst c.
    now destruct (skipn_cons_next _ _ Hs) as (_ & -> & _). }
  repeat split; try lia.
  - apply Hc, E.
  - rewrite skipn_skipn in Hpre.
    replace (p + 1 + j + 1 - 1) with (j + (p + 1)) by lia. apply Hc, Hpre.
Qed.

Lemma scan_backticks_start (s : pystr) (fuel pos from : nat) (b : rmatch) :
  In b (scan backtick_pattern s fuel pos from) -> pos <= m_start b.
Proof.
  intros H. apply scan_In in H. destruct H as (p & Hp & _ & _ & Hpat).
  apply backtick_match_shape in Hpat. lia.
Qed.

Lemma scan_S (pat : pattern) (s : pystr) (fuel pos from : nat) :
  scan pat s (S fuel) pos from
  = if pos <? from then scan pat s fuel (S pos) from
    else match pat s pos with
         | Some m => m :: scan pat s fuel (S pos) (m_end m)
         | None => scan pat s fuel (S pos) from
         end.
Proof. reflexivity. Qed.

(** The scan for backtick spans against the mask: a position is marked
    when it lies strictly inside the span that is open or inside one the
    scan still finds. *)
Lemma scan_backticks_mask (s : pystr) :
  forall t pos from inside,
    skipn pos s = t ->
    (inside = false /\ from <= pos)
    \/ (inside = true /\ pos < from
        /\ lazy_dots [backtick] t = Some (from - pos - 1)) ->
    forall p, pos <= p ->
      nth (p - pos) (code_mask inside t) false = true
      <-> ((inside = true /\ S p < from)
           \/ exists b, In b (scan backtick_pattern s (S (length t)) pos from)
                        /\ m_start b < p /\ S p < m_end b).
Proof.
  induction t as [|c t IH]; intros pos from inside Hs Hst p Hp.
  - cbn [code_mask length scan].
    assert (Hnth : nth (p - pos) (@nil bool) false = false)
      by (destruct (p - pos); reflexivity).
    rewrite Hnth. split; [discriminate|].
    intros [[E H]|(b & Hb & _)].
    + destruct Hst as [[E' _]|(_ & _ & E')]; [congruence|].
      cbn in E'. discriminate E'.
    + destruct (pos <? from); [contradiction|].
      rewrite (@backtick_pattern_end s pos Hs) in Hb. contradiction.
  - destruct (@skipn_cons_next s t c pos Hs) as (Hs' & Hc & Hlt).
    change (S (length (c :: t))) with (S (S (length t))).
    rewrite scan_S. cbn [code_mask].
    destruct Hst as [[-> Hfrom]|(-> & Hfrom & Hlazy)].
    + (* outside a span *)
      replace (pos <? from) with false by (symmetry; apply Nat.ltb_ge; lia).
      rewrite (@backtick_pattern_at s t c pos Hs).
      destruct (Ascii.eqb c backtick) eqn:Ec.
      * unfold closes.
        destruct (lazy_dots [backtick] t) as [j|] eqn:Hj.
        -- (* a span opens here *)
           destruct (Nat.eq_dec p pos) as [->|Hne].
           ++ rewrite Nat.sub_diag. cbn [nth]. split; [discriminate|].
              intros [[E _]|(b & [<-|Hb] & H1 & H2)]; [discriminate E| |].
              ** cbn [m_start] in H1. lia.
              ** apply scan_backticks_start in Hb. lia.
           ++ replace (p - pos) with (S (p - S pos)) by lia. cbn [nth].
              rewrite (IH (S pos) (pos + 1 + j + 1) true Hs');
                [|right; split; [reflexivity|split; [lia|]];
                  f_equal; lia|lia].
              split.
              ** intros [[_ H]|(b & Hb & H1 & H2)].
                 --- right. eexists. split; [left; reflexivity|].
                     cbn [m_start m_end]. lia.
                 --- right. exists b. split; [right; exact Hb|lia].
              ** intros [[E _]|(b & [<-|Hb] & H1 & H2)]; [discriminate E| |].
                 --- left. cbn [m_start m_end] in *.
                     split; [reflexivity|lia].
                 --- right. exists b. split; [exact Hb|lia].
        -- (* a backtick without a partner *)
           destruct (Nat.eq_dec p pos) as [->|Hne].
           ++ rewrite Nat.sub_diag. cbn [nth]. split; [discriminate|].
              intros [[E _]|(b & Hb & H1 & H2)]; [discriminate E|].
              apply scan_backticks_start in Hb. lia.
           ++ replace (p - pos) with (S (p - S pos)) by lia. cbn [nth].
              rewrite (IH (S pos) from false Hs');
                [|left; split; [reflexivity|lia]|lia].
              split; (intros [[E _]|H]; [discriminate E|right; exact H]).
      * destruct (Nat.eq_dec p pos) as [->|Hne].
        -- rewrite Nat.sub_diag. cbn [nth]. split; [discriminate|].
           intros [[E _]|(b & Hb & H1 & H2)]; [discriminate E|].
           apply scan_backticks_start in Hb. lia.
        -- replace (p - pos) with (S (p - S pos)) by lia. cbn [nth].
           rewrite (IH (S pos) from false Hs');
             [|left; split; [reflexivity|lia]|lia].
           split; (intros [[E _]|H]; [discriminate E|right; exact H]).
    + (* inside a span *)
      replace (pos <? from) with true by (symmetry; apply Nat.ltb_lt; lia).
      rewrite lazy_dots_backtick_cons in Hlazy.
      destruct (Ascii.eqb c backtick) eqn:Ec.
      * (* the closing backtick *)
        injection Hlazy as Hlazy.
        destruct (Nat.eq_dec p pos) as [->|Hne].
        -- rewrite Nat.sub_diag. cbn [nth]. split; [discriminate|].
           intros [[_ H]|(b & Hb & H1 & H2)]; [lia|].
           apply scan_backticks_start in Hb. lia.
        -- replace (p - pos) with (S (p - S pos)) by lia. cbn [nth].
           rewrite (IH (S pos) from false Hs');
             [|left; split; [reflexivity|lia]|lia].
           split; (intros [[E H]|H]; [first [discriminate E|lia]
                                     |right; exact H]).
      * destruct (is_dot c); [|discriminate].
        destruct (lazy_dots [backtick] t) as [j|] eqn:Hj; [|discriminate].
        injection Hlazy as Hlazy.
        destruct (Nat.eq_dec p pos) as [->|Hne].
        -- rewrite Nat.sub_diag. cbn [nth]. split; [|reflexivity].
           intros _. left. split; [reflexivity|lia].
        -- replace (p - pos) with (S (p - S pos)) by lia. cbn [nth].
           rewrite (IH (S pos) from true Hs');
             [|right; split; [reflexivity|split; [lia|]];
               f_equal; lia|lia].
           reflexivity.
Qed.

(** ** The underscore formatter, character by character *)

Lemma class_at_Some (f : ascii -> bool) (s : pystr) (i : nat) :
  class_at f s i = true -> exists c, nth_error s i = Some c /\ f c = true.
Proof.
  unfold class_at. destruct (nth_error s i) as [c|]; [|discriminate].
  intros H. now exists c.
Qed.

Lemma underscore_match_shape (s : pystr) (p : nat) (m : rmatch) :
  inner_underscore_pattern s p = Some m ->
  m = MkMatch s p (S p) []
  /\ exists q, p = S q
               /\ class_at is_word s q = true
               /\ nth_error s p = Some underscore
               /\ class_at is_word s (S p) = true.
Proof.
  unfold inner_underscore_pattern. destruct p as [|q]; [discriminate|].
  destruct (class_at is_word s q) eqn:E1; [|discriminate].
  destruct (class_at (Ascii.eqb underscore) s (S q)) eqn:E2; [|discriminate].
  destruct (class_at is_word s (S (S q))) eqn:E3; [|discriminate].
  intros H. injection H as <-. split; [reflexivity|].
  exists q. repeat split; trivial.
  apply class_at_Some in E2. destruct E2 as (c & Hc & Ec).
  apply Ascii.eqb_eq in Ec. now subst c.
Qed.

Lemma underscore_wf (s : pystr) : wf_pattern inner_underscore_pattern s.
Proof.
  intros p m _ H. apply underscore_match_shape in H.
  destruct H as (-> & q & _ & _ & Hu & _). cbn [m_start m_end].
  assert (p < length s) by (apply nth_error_Some; congruence).
  repeat split; lia.
Qed.

Lemma word_not_backtick (s : pystr) (i : nat) :
  class_at is_word s i = true -> nth_error s i <> Some backtick.
Proof.
  intros H E. unfold class_at in H. rewrite E in H. discriminate.
Qed.

(** An underscore between two word characters meets a backtick span only
    by lying strictly inside it, where the mask is set. *)
Lemma not_in_backticks_mask (s : pystr) (p : nat) (m : rmatch) :
  inner_underscore_pattern s p = Some m ->
  _not_in_backticks m = negb (nth p (code_mask false s) false).
Proof.
  intros Hm. apply underscore_match_shape in Hm.
  destruct Hm as (-> & q & -> & Hq & Hu & Hn).
  unfold _not_in_backticks. cbn [m_string]. f_equal.
  apply eq_true_iff_eq.
  pose proof (@scan_backticks_mask s s 0 0 false eq_refl
                (or_introl (conj eq_refl (le_n 0))) (S q) (Nat.le_0_l _))
    as Hmask.
  rewrite Nat.sub_0_r in Hmask. rewrite Hmask. clear Hmask.
  fold (re_finditer backtick_pattern s). rewrite existsb_exists.
  split.
  - intros (b & Hb & Hint). right. exists b. split; [exact Hb|].
    apply re_finditer_In in Hb. destruct Hb as (p & _ & Hb).
    apply backtick_match_shape in Hb.
    destruct Hb as (Hst & Hlen & _ & Hlo & Hhi).
    unfold _spans_intersect, span in Hint. cbn [fst snd m_start m_end] in Hint.
    apply andb_true_iff in Hint. destruct Hint as [H1 H2].
    apply Nat.leb_le in H1, H2.
    apply word_not_backtick in Hq, Hn.
    assert (m_start b <> S (S q)) by (intros E; rewrite E in Hlo; auto).
    assert (m_start b <> S q)
      by (intros E; rewrite E in Hlo; rewrite Hu in Hlo; discriminate).
    assert (m_end b - 1 <> S q)
      by (intros E; rewrite E in Hhi; rewrite Hu in Hhi; discriminate).
    assert (m_end b - 1 <> q) by (intros E; rewrite E in Hhi; auto).
    lia.
  - intros [[E _]|(b & Hb & H1 & H2)]; [discriminate E|].
    exists b. split; [exact Hb|].
    unfold _spans_intersect, span. cbn [fst snd m_start m_end].
    apply andb_true_intro. split; apply Nat.leb_le; lia.
Qed.

Lemma default_filter_mask (s : pystr) (p : nat) (m : rmatch) :
  occursb qq s = false ->
  inner_underscore_pattern s p = Some m ->
  default_filter m = negb (nth p (code_mask false s) false).
Proof.
  intros Hno Hm. unfold default_filter. cbn [forallb].
  rewrite (@not_in_backticks_mask s p m Hm), andb_true_r.
  apply underscore_match_shape in Hm. destruct Hm as (-> & _).
  unfold _not_in_link. cbn [m_string]. now rewrite (@link_absent s Hno).
Qed.

Lemma fold_singles_splice (r s : pystr) (ms : list rmatch) :
  forall c,
    spans_ordered c ms ->
    Forall (fun m => m_end m <= length s) ms ->
    fold_left (fun l m => firstn (m_start m) l ++ r ++ skipn (m_end m) l)
      (rev ms) s
    = firstn c s ++ splice (fun _ => r) s c ms.
Proof.
  induction ms as [|m ms IH]; intros c Hord Hbnd.
  - simpl. now rewrite firstn_skipn.
  - simpl in Hord. destruct Hord as (H1 & H2 & H3).
    inversion Hbnd as [|? ? Hb Hrest]. subst.
    cbn [rev]. rewrite fold_left_app. cbn [fold_left].
    rewrite (IH (m_end m) H3 Hrest).
    rewrite firstn_prefix by lia. rewrite skipn_prefix by lia.
    cbn [splice]. rewrite (@firstn_slice c (m_start m) s H1).
    now rewrite <- !app_assoc.
Qed.

Lemma splice_skip (repl : rmatch -> pystr) (s t : pystr) (c : ascii)
  (pos : nat) (ms : list rmatch) :
  skipn pos s = c :: t ->
  (forall m, In m ms -> S pos <= m_start m) ->
  splice repl s pos ms = c :: splice repl s (S pos) ms.
Proof.
  intros Hs Hms. destruct (@skipn_cons_next s t c pos Hs) as (Hs' & _ & _).
  destruct ms as [|m ms]; cbn [splice].
  - now rewrite Hs, Hs'.
  - assert (H : S pos <= m_start m) by (apply Hms; now left).
    unfold slice. rewrite Hs, Hs'.
    replace (m_start m - pos) with (S (m_start m - S pos)) by lia.
    reflexivity.
Qed.

Lemma underscore_pattern_here (s t : pystr) (c : ascii) (pos : nat) :
  skipn pos s = c :: t ->
  inner_underscore_pattern s pos
  = if underscore_here (prev_of s pos) c t
    then Some (MkMatch s pos (S pos) []) else None.
Proof.
  intros Hs. destruct (@skipn_cons_next s t c pos Hs) as (Hs' & Hc & _).
  assert (Hn : class_at is_word s (S pos)
               = match t with d :: _ => is_word d | [] => false end).
  { unfold class_at. destruct t as [|d t'].
    - replace (nth_error s (S pos)) with (@None ascii); [reflexivity|].
      symmetry. apply nth_error_None.
      apply (f_equal (@length ascii)) in Hs'. rewrite length_skipn in Hs'.
      simpl in Hs'. lia.
    - destruct (@skipn_cons_next s t' d (S pos) Hs') as (_ & -> & _).
      reflexivity. }
  unfold inner_underscore_pattern, underscore_here, prev_of.
  destruct pos as [|q].
  - rewrite andb_false_r. reflexivity.
  - rewrite Hn. unfold class_at at 2. rewrite Hc.
    unfold class_at. destruct (nth_error s q) as [a|];
      [|rewrite andb_false_r; reflexivity].
    destruct (is_word a), (Ascii.eqb underscore c),
      (match t with d :: _ => is_word d | [] => false end); reflexivity.
Qed.

Lemma nth_skipn_hd (A : Type) (l r : list A) (b d : A) (pos : nat) :
  skipn pos l = b :: r -> nth pos l d = b.
Proof.
  revert l. induction pos as [|pos IH]; intros [|a l] H; try discriminate.
  - injection H as -> _. reflexivity.
  - simpl. apply IH. exact H.
Qed.

Lemma skipn_S_tl (A : Type) (l r : list A) (b : A) (pos : nat) :
  skipn pos l = b :: r -> skipn (S pos) l = r.
Proof.
  intros H. change (S pos) with (1 + pos). now rewrite <- skipn_skipn, H.
Qed.

Lemma code_mask_length (inside : bool) (t : pystr) :
  length (code_mask inside t) = length t.
Proof.
  revert inside. induction t as [|c t IH]; intros inside; cbn [code_mask].
  - reflexivity.
  - destruct (Ascii.eqb c backtick); cbn [length]; now rewrite IH.
Qed.

Lemma scan_underscores_escape (s : pystr) :
  occursb qq s = false ->
  forall t pos from mk,
    skipn pos s = t ->
    skipn pos (code_mask false s) = mk ->
    from <= pos ->
    splice (fun _ => [backslash; underscore]) s pos
      (filter default_filter
         (scan inner_underscore_pattern s (S (length t)) pos from))
    = escape_outside (prev_of s pos) t mk.
Proof.
  intros Hno. induction t as [|c t IH]; intros pos from mk Hs Hmk Hfrom.
  - cbn [length]. rewrite scan_S.
    replace (pos <? from) with false by (symmetry; apply Nat.ltb_ge; lia).
    assert (Hnone : inner_underscore_pattern s pos = None).
    { destruct (inner_underscore_pattern s pos) as [m|] eqn:E; [|reflexivity].
      apply underscore_match_shape in E.
      destruct E as (_ & q & _ & _ & Hu & _).
      assert (pos < length s) by (apply nth_error_Some; congruence).
      apply (f_equal (@length ascii)) in Hs. rewrite length_skipn in Hs.
      simpl in Hs. lia. }
    rewrite Hnone. cbn [scan filter splice escape_outside]. exact Hs.
  - destruct (@skipn_cons_next s t c pos Hs) as (Hs' & Hc & Hlt).
    assert (Hmk' : exists b mk', mk = b :: mk').
    { destruct mk as [|b mk']; [|eauto].
      apply (f_equal (@length bool)) in Hmk.
      rewrite length_skipn, code_mask_length in Hmk. simpl in Hmk. lia. }
    destruct Hmk' as (b & mk' & ->).
    pose proof (@nth_skipn_hd _ _ _ _ false _ Hmk) as Hb.
    pose proof (@skipn_S_tl _ _ _ _ _ Hmk) as Hmk'.
    change (S (length (c :: t))) with (S (S (length t))).
    rewrite scan_S.
    replace (pos <? from) with false by (symmetry; apply Nat.ltb_ge; lia).
    assert (Hafter : forall from' m,
               In m (filter default_filter
                       (scan inner_underscore_pattern s (S (length t))
                          (S pos) from')) -> S pos <= m_start m).
    { intros from' m Hm. apply filter_In in Hm. destruct Hm as [Hm _].
      apply scan_In in Hm. destruct Hm as (p & Hp & _ & _ & Hpat).
      apply underscore_match_shape in Hpat. destruct Hpat as (-> & _).
      exact Hp. }
    cbn [escape_outside].
    rewrite (@underscore_pattern_here s t c pos Hs).
    destruct (underscore_here (prev_of s pos) c t) eqn:Hhere.
    + assert (Hm : inner_underscore_pattern s pos
                   = Some (MkMatch s pos (S pos) [])).
      { rewrite (@underscore_pattern_here s t c pos Hs), Hhere. reflexivity. }
      cbn [filter]. rewrite (@default_filter_mask s pos _ Hno Hm), Hb.
      cbn [andb m_end].
      destruct (negb b).
      * cbn [splice m_start m_end]. unfold slice.
        rewrite Nat.sub_diag. cbn [firstn app].
        rewrite (IH (S pos) (S pos) mk' Hs' Hmk' (le_n _)).
        cbn [prev_of]. rewrite Hc. reflexivity.
      * rewrite (@splice_skip _ s t c pos _ Hs (Hafter (S pos))).
        rewrite (IH (S pos) (S pos) mk' Hs' Hmk' (le_n _)).
        cbn [prev_of]. rewrite Hc. reflexivity.
    + cbn [andb].
      rewrite (@splice_skip _ s t c pos _ Hs (Hafter from)).
      rewrite (IH (S pos) from mk' Hs' Hmk' (Nat.le_trans _ _ _ Hfrom
                                               (Nat.le_succ_diag_r _))).
      cbn [prev_of]. rewrite Hc. reflexivity.
Qed.

(** On a line without [QQ] the underscore formatter is the character-wise
    escape under the code mask. *)
Lemma format_inner_underscores_mask (s : pystr) :
  occursb qq s = false ->
  format_inner_underscores s = escape_outside None s (code_mask false s).
Proof.
  intros Hno. unfold format_inner_underscores, _filter_matches.
  change (fun m : rmatch => forallb (fun p : pred => p m)
                              [_not_in_link; _not_in_backticks])
    with default_filter.
  rewrite (@fold_singles_splice [backslash; underscore] s _ 0).
  - cbn [firstn app]. unfold re_finditer.
    apply (@scan_underscores_escape s Hno s 0 0 _ eq_refl eq_refl (le_n 0)).
  - apply spans_ordered_filter, re_finditer_ordered, underscore_wf.
  - apply Forall_forall. intros m Hm. apply filter_In in Hm.
    destruct Hm as [Hm _]. revert m Hm.
    apply Forall_forall, re_finditer_bounded, underscore_wf.
Qed.

(** ** Escaping twice *)

Lemma closes_cons (c : ascii) (t : pystr) :
  closes (c :: t)
  = if Ascii.eqb c backtick then true
    else if is_dot c then closes t else false.
Proof.
  unfold closes. rewrite lazy_dots_backtick_cons.
  destruct (Ascii.eqb c backtick); [reflexivity|].
  destruct (is_dot c); [|reflexivity].
  destruct (lazy_dots [backtick] t); reflexivity.
Qed.

Lemma underscore_here_char (prev : option ascii) (c : ascii) (t : pystr) :
  underscore_here prev c t = true -> c = underscore.
Proof.
  unfold underscore_here. intros H.
  apply andb_true_iff in H. destruct H as [H _].
  apply andb_true_iff in H. destruct H as [H _].
  apply Ascii.eqb_eq in H. now subst c.
Qed.

Lemma escape_hd (prev : option ascii) (t : pystr) (mk : list bool)
  (y : ascii) :
  hd_error (escape_outside prev t mk) = Some y ->
  y = backslash \/ hd_error t = Some y.
Proof.
  destruct t as [|c t]; [discriminate|].
  destruct mk as [|b mk]; [discriminate|].
  cbn [escape_outside].
  destruct (underscore_here prev c t && negb b); cbn; intros H;
    injection H as <-; [left|right]; reflexivity.
Qed.

Lemma underscore_here_escaped (prev p' : option ascii) (c : ascii)
  (t : pystr) (mk : list bool) :
  underscore_here prev c (escape_outside p' t mk) = true ->
  underscore_here prev c t = true.
Proof.
  unfold underscore_here. intros H.
  apply andb_true_iff in H. destruct H as [H1 H2]. rewrite H1. cbn [andb].
  destruct (escape_outside p' t mk) as [|d e] eqn:E; [discriminate|].
  assert (Hd : hd_error (escape_outside p' t mk) = Some d)
    by (rewrite E; reflexivity).
  apply escape_hd in Hd. destruct Hd as [->|Hd]; [discriminate|].
  destruct t as [|d' t']; [discriminate|]. cbn in Hd. injection Hd as ->.
  exact H2.
Qed.

Lemma closes_escape (t : pystr) :
  forall prev inside,
    closes (escape_outside prev t (code_mask inside t)) = closes t.
Proof.
  induction t as [|c t IH]; intros prev inside; [reflexivity|].
  cbn [code_mask].
  destruct (Ascii.eqb c backtick) eqn:Ec.
  - cbn [escape_outside negb]. rewrite andb_true_r.
    destruct (underscore_here prev c t) eqn:Eu.
    + apply underscore_here_char in Eu. subst c. discriminate.
    + cbn [app]. now rewrite !closes_cons, Ec.
  - cbn [escape_outside].
    destruct (underscore_here prev c t && negb inside) eqn:Eu.
    + apply andb_true_iff in Eu. destruct Eu as [Eu _].
      apply underscore_here_char in Eu. subst c.
      cbn [app]. rewrite !closes_cons. cbn. apply IH.
    + cbn [app]. rewrite !closes_cons, Ec.
      destruct (is_dot c); [apply IH|reflexivity].
Qed.

(** The escaped line has no underscore left to escape. *)
Lemma escape_outside_idem (t : pystr) :
  forall prev inside,
    escape_outside prev (escape_outside prev t (code_mask inside t))
      (code_mask inside (escape_outside prev t (code_mask inside t)))
    = escape_outside prev t (code_mask inside t).
Proof.
  induction t as [|c t IH]; intros prev inside; [reflexivity|].
  cbn [code_mask].
  destruct (Ascii.eqb c backtick) eqn:Ec.
  - cbn [escape_outside negb]. rewrite andb_true_r.
    destruct (underscore_here prev c t) eqn:Eu.
    + apply underscore_here_char in Eu. subst c. discriminate.
    + cbn [app code_mask]. rewrite Ec, closes_escape.
      cbn [escape_outside negb]. rewrite andb_true_r.
      destruct (underscore_here prev c (escape_outside _ _ _)) eqn:Eu'.
      * apply underscore_here_escaped in Eu'. congruence.
      * cbn [app]. f_equal. apply IH.
  - cbn [escape_outside].
    destruct (underscore_here prev c t && negb inside) eqn:Eu.
    + apply andb_true_iff in Eu. destruct Eu as [Eu Ei].
      apply underscore_here_char in Eu. subst c.
      apply negb_true_iff in Ei. subst inside.
      cbn [app code_mask].
      change (Ascii.eqb backslash backtick) with false.
      change (Ascii.eqb underscore backtick) with false.
      cbn [escape_outside].
      replace (underscore_here prev backslash
                 (underscore :: escape_outside (Some underscore) t
                                  (code_mask false t))) with false
        by (unfold underscore_here; reflexivity).
      replace (underscore_here (Some backslash) underscore
                 (escape_outside (Some underscore) t (code_mask false t)))
        with false by (unfold underscore_here; reflexivity).
      cbn [andb app]. do 2 f_equal. apply IH.
    + cbn [app code_mask]. rewrite Ec. cbn [escape_outside].
      replace (underscore_here prev c (escape_outside (Some c) t
                                         (code_mask inside t))
               && negb inside) with false.
      * cbn [app]. f_equal. apply IH.
      * symmetry. apply andb_false_iff.
        apply andb_false_iff in Eu. destruct Eu as [Eu|Eu]; [left|now right].
        destruct (underscore_here prev c (escape_outside _ _ _)) eqn:Eu';
          [|reflexivity].
        apply underscore_here_escaped in Eu'. congruence.
Qed.

(** Escaping makes none of the two-character delimiters. *)
Lemma occursb_escape (x y : ascii) (t : pystr) :
  x <> backslash -> y <> backslash ->
  forall prev mk,
    occursb [x; y] (escape_outside prev t mk) = true ->
    occursb [x; y] t = true.
Proof.
  intros Hx Hy.
  assert (Hpre : forall c p' t' mk',
             prefixb [x; y] (c :: escape_outside p' t' mk') = true ->
             prefixb [x; y] (c :: t') = true).
  { intros c p' t' mk' H. cbn [prefixb] in H |- *.
    apply andb_true_iff in H. destruct H as [H1 H2]. rewrite H1. cbn [andb].
    destruct (escape_outside p' t' mk') as [|d e] eqn:E; [discriminate|].
    rewrite andb_true_r in H2. apply Ascii.eqb_eq in H2. subst d.
    assert (Hd : hd_error (escape_outside p' t' mk') = Some y)
      by (rewrite E; reflexivity).
    apply escape_hd in Hd. destruct Hd as [Hd|Hd]; [contradiction|].
    destruct t' as [|d' t'']; [discriminate|]. cbn in Hd. injection Hd as ->.
    now rewrite Ascii.eqb_refl. }
  induction t as [|c t IH]; intros prev mk H; [exact H|].
  destruct mk as [|b mk]; [discriminate|].
  cbn [escape_outside] in H.
  destruct (underscore_here prev c t && negb b) eqn:Eu.
  - apply andb_true_iff in Eu. destruct Eu as [Eu _].
    apply underscore_here_char in Eu. subst c.
    cbn [app] in H. cbn [occursb] in H.
    apply orb_true_iff in H. destruct H as [H|H].
    + cbn [prefixb] in H. apply andb_true_iff in H. destruct H as [H _].
      apply Ascii.eqb_eq in H. contradiction.
    + apply orb_true_iff in H. destruct H as [H|H].
      * apply prefixb_occursb. eapply Hpre. exact H.
      * apply occursb_cons. eapply IH. exact H.
  - cbn [app] in H. cbn [occursb] in H.
    apply orb_true_iff in H. destruct H as [H|H].
    + apply prefixb_occursb. eapply Hpre. exact H.
    + apply occursb_cons. eapply IH. exact H.
Qed.

Lemma prefix_equals_escape (prev : option ascii) (t : pystr)
  (mk : list bool) :
  prefixb (str "=") (escape_outside prev t mk) = true ->
  prefixb (str "=") t = true.
Proof.
  intros H. destruct (escape_outside prev t mk) as [|d e] eqn:E;
    [discriminate|].
  unfold str in *. cbn [list_ascii_of_string prefixb] in *.
  rewrite andb_true_r in H. apply Ascii.eqb_eq in H. subst d.
  assert (Hd : hd_error (escape_outside prev t mk) = Some "="%char)
    by (rewrite E; reflexivity).
  apply escape_hd in Hd. destruct Hd as [Hd|Hd]; [discriminate|].
  destruct t as [|d' t']; [discriminate|]. cbn in Hd. injection Hd as ->.
  reflexivity.
Qed.

(** ** Lines without tokens through the pipeline *)

Lemma no_tokens_parts (line : pystr) :
  no_rednotebook_tokens line = true <->
  occursb (str "//") line = false
  /\ occursb (str "--") line = false
  /\ occursb [backtick; backtick] line = false
  /\ occursb qq line = false
  /\ prefixb (str "=") line = false.
Proof.
  unfold no_rednotebook_tokens. rewrite !andb_true_iff, !negb_true_iff.
  tauto.
Qed.

Lemma no_tokens_escape (line : pystr) (prev : option ascii)
  (mk : list bool) :
  no_rednotebook_tokens line = true ->
  no_rednotebook_tokens (escape_outside prev line mk) = true.
Proof.
  rewrite !no_tokens_parts. intros (H1 & H2 & H3 & H4 & H5).
  assert (Hocc : forall x, x <> backslash ->
                           occursb [x; x] line = false ->
                           occursb [x; x] (escape_outside prev line mk)
                           = false).
  { intros x Hx Hno.
    destruct (occursb [x; x] (escape_outside prev line mk)) eqn:E;
      [|reflexivity].
    apply occursb_escape in E; [congruence|exact Hx|exact Hx]. }
  repeat split.
  - apply (Hocc "/"%char); [discriminate|exact H1].
  - apply (Hocc "-"%char); [discriminate|exact H2].
  - apply (Hocc backtick); [discriminate|exact H3].
  - apply (Hocc dquote); [discriminate|exact H4].
  - destruct (prefixb (str "=") (escape_outside prev line mk)) eqn:E;
      [|reflexivity].
    apply prefix_equals_escape in E. congruence.
Qed.

Lemma pipeline_unfold (padding : Z) (st : lists_state) (line : pystr) :
  format_rednotebook_as_markdown padding st line
  = format_lists st
      (format_strikethrough_text
         (format_italic_text
            (format_code_blocks
               (format_headers padding
                  (format_images
                     (format_links (format_inner_underscores line))))))).
Proof.
  unfold format_rednotebook_as_markdown, ordered_formatters, stateless.
  cbn [send_all bind fst snd].
  destruct (format_lists st _) as [[st' line']|e]; reflexivity.
Qed.

(** On a line without tokens only the underscore and the list formatters
    act. *)
Lemma pipeline_no_tokens (padding : Z) (st : lists_state) (line : pystr) :
  no_rednotebook_tokens line = true ->
  format_rednotebook_as_markdown padding st line
  = format_lists st (escape_outside None line (code_mask false line)).
Proof.
  intros Hclean. rewrite pipeline_unfold.
  pose proof (proj1 (no_tokens_parts line) Hclean) as (_ & _ & _ & Hq & _).
  rewrite (@format_inner_underscores_mask line Hq).
  pose proof (@no_tokens_escape line None (code_mask false line) Hclean)
    as Hesc.
  apply no_tokens_parts in Hesc. destruct Hesc as (E1 & E2 & E3 & E4 & E5).
  rewrite (@format_links_absent _ E4), (@format_images_absent _ E4).
  rewrite (@format_headers_absent padding _ E5).
  unfold format_code_blocks. rewrite (@sub_balanced_absent _ _ _ _ E3).
  unfold format_italic_text. rewrite (@sub_balanced_absent _ _ _ _ E1).
  rewrite (@format_strikethrough_absent _ E2). reflexivity.
Qed.

(** What the list formatter does to a line: nothing, whatever its state, or
    it numbers the marker that follows the leading white space. *)
Lemma format_lists_cases (st : lists_state) (line : pystr) :
  (forall st', exists st'', format_lists st' line = Ok (st'', line))
  \/ (exists c n st1,
         nth_error line (count_while is_space line) = Some c
         /\ is_list_marker c = true
         /\ class_at is_space line (S (count_while is_space line)) = true
         /\ format_lists st line
            = Ok (st1, firstn (count_while is_space line) line
                       ++ (str_of_nat n ++ str ".")
                       ++ skipn (count_while is_space line + 1) line)).
Proof.
  unfold format_lists.
  destruct (re_match list_item_pattern line) as [m|] eqn:Hm.
  - apply list_item_match in Hm. destruct Hm as (-> & Hmark & Hsp).
    cbn [span_group span m_groups nth fst].
    unfold class_at in Hmark. unfold getitem.
    destruct (nth_error line (count_while is_space line)) as [c|] eqn:Hc;
      [|discriminate].
    cbn [bind].
    destruct (Ascii.eqb c "-"%char).
    + left. intros st'. eauto.
    + right. unfold dl_getitem.
      eexists c, _, _. repeat split; trivial.
      rewrite <- app_assoc. reflexivity.
  - left. intros st'. destruct (strip line); eauto.
Qed.

(** ** A numbered list item *)

Lemma is_space_facts (c : ascii) :
  is_space c = true ->
  is_plain c = true /\ Ascii.eqb "="%char c = false.
Proof. ascii_cases c; intros _; split; reflexivity. Qed.

Lemma is_list_marker_plain (c : ascii) :
  is_list_marker c = true -> is_plain c = true.
Proof. ascii_cases c. Qed.

Lemma is_numeral_facts (c : ascii) :
  is_numeral c = true ->
  is_plain c = true /\ is_space c = false /\ is_list_marker c = false
  /\ Ascii.eqb "="%char c = false
  /\ c <> "/"%char /\ c <> "-"%char /\ c <> backtick /\ c <> dquote.
Proof. ascii_cases c; intros _; repeat split; discriminate. Qed.

Lemma string_of_uint_numerals (d : Decimal.uint) :
  Forall (fun c => is_numeral c = true)
    (list_ascii_of_string (NilEmpty.string_of_uint d)).
Proof.
  induction d; cbn [NilEmpty.string_of_uint list_ascii_of_string];
    constructor; trivial.
Qed.

Lemma numbered_marker_numerals (n : nat) :
  Forall (fun c => is_numeral c = true) (str_of_nat n ++ str ".")
  /\ str_of_nat n ++ str "." <> [].
Proof.
  split.
  - apply Forall_app. split; [apply string_of_uint_numerals|].
    repeat constructor.
  - destruct (str_of_nat n); discriminate.
Qed.

Lemma code_mask_plain_prefix (a b : pystr) (inside : bool) :
  Forall (fun c => is_plain c = true) a ->
  code_mask inside (a ++ b) = repeat inside (length a) ++ code_mask inside b.
Proof.
  induction 1 as [|c a Hc _ IH]; [reflexivity|].
  cbn [app code_mask length repeat].
  unfold is_plain in Hc. apply andb_true_iff in Hc. destruct Hc as [Hc _].
  apply negb_true_iff in Hc. rewrite Hc. now rewrite IH.
Qed.

Lemma escape_plain_prefix (a b : pystr) (inside : bool) (mk : list bool) :
  Forall (fun c => is_plain c = true) a ->
  forall prev,
    escape_outside prev (a ++ b) (repeat inside (length a) ++ mk)
    = a ++ escape_outside (last_of prev a) b mk.
Proof.
  induction 1 as [|c a Hc _ IH]; intros prev; [reflexivity|].
  cbn [app length repeat escape_outside].
  replace (underscore_here prev c (a ++ b)) with false.
  - cbn [andb app]. f_equal. apply IH.
  - unfold is_plain in Hc. apply andb_true_iff in Hc. destruct Hc as [_ Hc].
    apply negb_true_iff in Hc. unfold underscore_here.
    now rewrite Ascii.eqb_sym, Hc.
Qed.

Lemma escape_prev_irrelevant (p p' : option ascii) (c : ascii) (t : pystr)
  (mk : list bool) :
  is_plain c = true ->
  escape_outside p (c :: t) mk = escape_outside p' (c :: t) mk.
Proof.
  intros Hc. destruct mk as [|b mk]; [reflexivity|].
  cbn [escape_outside].
  unfold is_plain in Hc. apply andb_true_iff in Hc. destruct Hc as [_ Hc].
  apply negb_true_iff in Hc. unfold underscore_here.
  now rewrite Ascii.eqb_sym, Hc.
Qed.

Lemma occursb_app_l (d a b : pystr) :
  occursb d a = true -> occursb d (a ++ b) = true.
Proof.
  assert (Hpre : forall p s, prefixb p s = true -> prefixb p (s ++ b) = true).
  { induction p as [|x p IHp]; intros [|y s] H; try reflexivity;
      try discriminate.
    cbn [app prefixb] in *. apply andb_true_iff in H. destruct H as [H1 H2].
    now rewrite H1, (IHp _ H2). }
  induction a as [|c a IH]; intros H.
  - cbn [occursb] in H. rewrite orb_false_r in H.
    apply prefixb_occursb. exact (Hpre _ _ H).
  - cbn [occursb] in H. apply orb_true_iff in H. destruct H as [H|H].
    + apply prefixb_occursb. exact (Hpre _ _ H).
    + cbn [app]. apply occursb_cons, IH, H.
Qed.

Lemma occursb_app_r (d a b : pystr) :
  occursb d b = true -> occursb d (a ++ b) = true.
Proof.
  intros H. induction a as [|c a IH]; [exact H|].
  cbn [app]. now apply occursb_cons.
Qed.

(** A doubled delimiter character cannot sit across a run of other
    characters. *)
Lemma occursb_across (x : ascii) (a m b : pystr) :
  Forall (fun c => c <> x) m -> m <> [] ->
  occursb [x; x] (a ++ m ++ b) = true ->
  occursb [x; x] a = true \/ occursb [x; x] b = true.
Proof.
  intros Hm Hne.
  assert (Hmid : forall m', Forall (fun c => c <> x) m' -> m' <> [] ->
                            occursb [x; x] (m' ++ b) = true ->
                            occursb [x; x] b = true).
  { induction m' as [|c m' IH]; intros Hf Hn H; [contradiction|].
    inversion Hf as [|? ? Hc Hf']. subst.
    cbn [app occursb] in H. apply orb_true_iff in H. destruct H as [H|H].
    - cbn [prefixb] in H. apply andb_true_iff in H. destruct H as [H _].
      apply Ascii.eqb_eq in H. congruence.
    - destruct m' as [|c' m'']; [exact H|].
      apply IH; [exact Hf'|discriminate|exact H]. }
  induction a as [|c a IH]; intros H.
  - right. exact (Hmid m Hm Hne H).
  - cbn [app occursb] in H. apply orb_true_iff in H. destruct H as [H|H].
    + left. apply prefixb_occursb.
      cbn [prefixb] in H |- *. apply andb_true_iff in H. destruct H as [H1 H2].
      rewrite H1. cbn [andb].
      destruct a as [|c' a'].
      * destruct m as [|c' m']; [contradiction|].
        inversion Hm as [|? ? Hc _]. subst. cbn [app] in H2.
        rewrite andb_true_r in H2. apply Ascii.eqb_eq in H2. congruence.
      * exact H2.
    + destruct (IH H) as [H'|H']; [left; now apply occursb_cons|now right].
Qed.

Lemma count_while_app_stop (f : ascii -> bool) (w rest : pystr) (d : ascii) :
  Forall (fun c => f c = true) w -> f d = false ->
  count_while f (w ++ d :: rest) = length w.
Proof.
  intros Hw Hd. induction Hw as [|c w Hc _ IH]; cbn [app count_while length].
  - now rewrite Hd.
  - now rewrite Hc, IH.
Qed.

Lemma last_of_snoc (prev : option ascii) (a : pystr) (c : ascii) :
  last_of prev (a ++ [c]) = Some c.
Proof. unfold last_of. now rewrite fold_left_app. Qed.

(** The line that the list formatter makes of a numbered item is again
    without tokens, has nothing left to escape and is no list item. *)
Lemma numbered_item_stable (w m r : pystr) (c : ascii) :
  Forall (fun a => is_space a = true) w ->
  is_list_marker c = true ->
  class_at is_space r 0 = true ->
  Forall (fun a => is_numeral a = true) m -> m <> [] ->
  no_rednotebook_tokens (w ++ c :: r) = true ->
  escape_outside None (w ++ c :: r) (code_mask false (w ++ c :: r))
  = w ++ c :: r ->
  no_rednotebook_tokens (w ++ m ++ r) = true
  /\ escape_outside None (w ++ m ++ r) (code_mask false (w ++ m ++ r))
     = w ++ m ++ r
  /\ forall st, exists st', format_lists st (w ++ m ++ r)
                            = Ok (st', w ++ m ++ r).
Proof.
  intros Hw Hc Hr Hm Hne Hclean Hfix.
  assert (Hwp : Forall (fun a => is_plain a = true) w).
  { eapply Forall_impl; [|exact Hw]. intros a Ha.
    now apply is_space_facts in Ha. }
  assert (Hmp : Forall (fun a => is_plain a = true) m).
  { eapply Forall_impl; [|exact Hm]. intros a Ha.
    now apply is_numeral_facts in Ha. }
  destruct r as [|r0 r']; [discriminate|]. cbn in Hr.
  destruct (is_space_facts _ Hr) as [Hr0 _].
  destruct m as [|m0 m']; [contradiction|].
  inversion Hm as [|? ? Hm0 _]. subst.
  destruct (is_numeral_facts _ Hm0) as (_ & Hm0s & Hm0l & Hm0e & _).
  split; [|split].
  - apply no_tokens_parts in Hclean.
    destruct Hclean as (H1 & H2 & H3 & H4 & H5).
    apply no_tokens_parts.
    assert (Hocc : forall x, Forall (fun a => a <> x) (m0 :: m') ->
                             occursb [x; x] (w ++ c :: r0 :: r') = false ->
                             occursb [x; x] (w ++ (m0 :: m') ++ r0 :: r')
                             = false).
    { intros x Hx Hno.
      destruct (occursb [x; x] (w ++ (m0 :: m') ++ r0 :: r')) eqn:E;
        [|reflexivity].
      apply occursb_across in E; [|exact Hx|discriminate].
      destruct E as [E|E].
      - apply occursb_app_l with (b := c :: r0 :: r') in E. congruence.
      - apply occursb_cons with (c := c) in E.
        apply occursb_app_r with (a := w) in E. congruence. }
    assert (Hnum : forall x, (forall a, is_numeral a = true -> a <> x) ->
                             Forall (fun a => a <> x) (m0 :: m')).
    { intros x Hx. eapply Forall_impl; [|exact Hm]. exact Hx. }
    repeat split.
    + apply Hocc; [|exact H1]. apply Hnum. intros a Ha.
      now apply is_numeral_facts in Ha.
    + apply Hocc; [|exact H2]. apply Hnum. intros a Ha.
      now apply is_numeral_facts in Ha.
    + apply Hocc; [|exact H3]. apply Hnum. intros a Ha.
      now apply is_numeral_facts in Ha.
    + apply Hocc; [|exact H4]. apply Hnum. intros a Ha.
      now apply is_numeral_facts in Ha.
    + unfold str. cbn [list_ascii_of_string prefixb].
      destruct w as [|w0 w']; cbn [app].
      * now rewrite Hm0e.
      * inversion Hw as [|? ? Hw0 _]. subst.
        apply is_space_facts in Hw0. destruct Hw0 as [_ ->]. reflexivity.
  - assert (Hwc : Forall (fun a => is_plain a = true) (w ++ [c])).
    { apply Forall_app. split; [exact Hwp|].
      constructor; [now apply is_list_marker_plain|constructor]. }
    assert (Hwm : Forall (fun a => is_plain a = true) (w ++ m0 :: m')).
    { apply Forall_app. split; [exact Hwp|exact Hmp]. }
    replace (w ++ c :: r0 :: r') with ((w ++ [c]) ++ r0 :: r') in Hfix
      by (now rewrite <- app_assoc).
    rewrite (code_mask_plain_prefix _ false Hwc) in Hfix.
    rewrite (@escape_plain_prefix _ _ false _ Hwc None) in Hfix.
    apply app_inv_head in Hfix.
    replace (w ++ (m0 :: m') ++ r0 :: r') with ((w ++ m0 :: m') ++ r0 :: r')
      by (now rewrite <- app_assoc).
    rewrite (code_mask_plain_prefix _ false Hwm).
    rewrite (@escape_plain_prefix _ _ false _ Hwm None).
    f_equal.
    rewrite (@escape_prev_irrelevant _ (last_of None (w ++ [c])) r0 r' _ Hr0).
    exact Hfix.
  - intros st. unfold format_lists.
    replace (re_match list_item_pattern (w ++ (m0 :: m') ++ r0 :: r'))
      with (@None rmatch).
    + destruct (strip _); eauto.
    + unfold re_match, list_item_pattern.
      cbn [app].
      rewrite (@count_while_app_stop is_space w (m' ++ r0 :: r') m0 Hw Hm0s).
      unfold class_at at 1.
      rewrite nth_error_app2 by lia. rewrite Nat.sub_diag. cbn [nth_error].
      now rewrite Hm0l.
Qed.

Lemma skipn_nth_cons (A : Type) (l : list A) (i : nat) (c : A) :
  nth_error l i = Some c -> skipn i l = c :: skipn (S i) l.
Proof.
  revert l. induction i as [|i IH]; intros [|a l] H; try discriminate.
  - injection H as ->. reflexivity.
  - cbn [skipn]. apply IH. exact H.
Qed.

(** C8: on a line without RedNotebook tokens the pipeline, whatever the
    state of its list formatter, returns a line that a second run, from any
    state, returns as it is.  The escaped underscore of [a\_b] is not
    escaped again, [# Title] gets no further hash, and [a_b] is escaped
    once. *)
Theorem pipeline_idempotent_on_markdown
  (padding : Z) (st : lists_state) (line : pystr) :
  no_rednotebook_tokens line = true ->
  (exists st1 line1,
      format_rednotebook_as_markdown padding st line = Ok (st1, line1)
      /\ forall st', exists st2,
          format_rednotebook_as_markdown padding st' line1 = Ok (st2, line1))
  /\ (format_rednotebook_as_markdown 0 lists_init (str "a\_b")
      = Ok (MkLists [] 0, str "a\_b")
      /\ format_rednotebook_as_markdown 0 lists_init (str "# Title")
         = Ok (MkLists [] 0, str "# Title")
      /\ format_rednotebook_as_markdown 0 lists_init (str "a_b")
         = Ok (MkLists [] 0, str "a\_b")).
Proof.
  intros Hclean. split; [|repeat split; vm_compute; reflexivity].
  set (e := escape_outside None line (code_mask false line)).
  assert (He : no_rednotebook_tokens e = true)
    by (apply no_tokens_escape; exact Hclean).
  assert (Hfix : escape_outside None e (code_mask false e) = e)
    by apply escape_outside_idem.
  assert (Hrun : forall s st0,
             no_rednotebook_tokens s = true ->
             escape_outside None s (code_mask false s) = s ->
             format_rednotebook_as_markdown padding st0 s
             = format_lists st0 s).
  { intros s st0 Hs Hf. rewrite (@pipeline_no_tokens padding st0 s Hs).
    now rewrite Hf. }
  rewrite (@pipeline_no_tokens padding st line Hclean). fold e.
  destruct (format_lists_cases st e)
    as [Hsame|(c & n & st1 & Hc & Hmark & Hsp & Hnum)].
  - destruct (Hsame st) as (st1 & H1). exists st1, e.
    split; [exact H1|]. intros st'. rewrite (Hrun e st' He Hfix).
    apply Hsame.
  - set (i := count_while is_space e) in *.
    assert (Hsplit : e = firstn i e ++ c :: skipn (i + 1) e).
    { rewrite <- (firstn_skipn i e) at 1. f_equal.
      rewrite (skipn_nth_cons _ _ Hc). f_equal. f_equal. lia. }
    destruct (numbered_marker_numerals n) as [Hm Hne].
    destruct (@numbered_item_stable (firstn i e) (str_of_nat n ++ str ".")
                (skipn (i + 1) e) c) as (Hclean1 & Hfix1 & Hlist1).
    + apply count_while_firstn.
    + exact Hmark.
    + unfold class_at in Hsp |- *. rewrite nth_error_skipn.
      replace (i + 1 + 0) with (S i) by lia. exact Hsp.
    + exact Hm.
    + exact Hne.
    + rewrite <- Hsplit. exact He.
    + rewrite <- Hsplit. exact Hfix.
    + eexists st1, _. split; [exact Hnum|].
      intros st'. rewrite (Hrun _ st' Hclean1 Hfix1). apply Hlist1.
Qed.

Lemma pipeline_idempotent_on_markdown_witness :
  exists st1 line1,
    format_rednotebook_as_markdown 0 (MkLists [3] 1)
      (str "| a_b `c_d` e_f") = Ok (st1, line1)
    /\ forall st', exists st2,
        format_rednotebook_as_markdown 0 st' line1 = Ok (st2, line1).
Proof.
  apply (proj1 (@pipeline_idempotent_on_markdown 0 (MkLists [3] 1)
                  (str "| a_b `c_d` e_f") eq_refl)).
Defined.

(** * Further properties of the formatters *)

Unset Implicit Arguments.

(** ** Scans with known matches *)

Lemma scan_skip (pat : pattern) (s : pystr) (from : nat) :
  forall k fuel pos,
    (forall p, pos <= p -> p < pos + k -> p < from \/ pat s p = None) ->
    scan pat s (k + fuel) pos from = scan pat s fuel (pos + k) from.
Proof.
  induction k as [|k IH]; intros fuel pos H.
  - now rewrite Nat.add_0_r.
  - cbn [Nat.add]. rewrite scan_S.
    replace (pos + S k) with (S pos + k) by lia.
    destruct (pos <? from) eqn:E.
    + apply IH. intros p H1 H2. apply H; lia.
    + apply Nat.ltb_ge in E.
      destruct (H pos (le_n _)) as [Hlt|Hnone]; [lia|lia|].
      rewrite Hnone. apply IH. intros p H1 H2. apply H; lia.
Qed.

Lemma scan_none_after (pat : pattern) (s : pystr) (from : nat) :
  forall fuel pos,
    (forall p, pos <= p -> p < pos + fuel -> p < from \/ pat s p = None) ->
    scan pat s fuel pos from = [].
Proof.
  intros fuel pos H.
  rewrite <- (Nat.add_0_r fuel), (@scan_skip pat s from fuel 0 pos H).
  reflexivity.
Qed.

(** The scan up to its next match. *)
Lemma scan_next (pat : pattern) (s : pystr) (m : rmatch)
  (fuel pos from a : nat) :
  pos <= a -> a < pos + fuel -> from <= a ->
  (forall p, pos <= p -> p < a -> p < from \/ pat s p = None) ->
  pat s a = Some m ->
  scan pat s fuel pos from
  = m :: scan pat s (fuel - (a - pos) - 1) (S a) (m_end m).
Proof.
  intros H1 H2 H3 Hnone Hm.
  replace fuel with ((a - pos) + S (fuel - (a - pos) - 1)) at 1 by lia.
  rewrite scan_skip by (intros p Hp1 Hp2; apply Hnone; lia).
  replace (pos + (a - pos)) with a by lia.
  rewrite scan_S, Hm.
  replace (a <? from) with false by (symmetry; apply Nat.ltb_ge; lia).
  reflexivity.
Qed.

Lemma re_finditer_one (pat : pattern) (s : pystr) (m : rmatch) (a : nat) :
  a <= length s ->
  (forall p, p < a -> pat s p = None) ->
  pat s a = Some m ->
  (forall p, m_end m <= p -> a < p -> p <= length s -> pat s p = None) ->
  re_finditer pat s = [m].
Proof.
  intros Ha Hbefore Hm Hafter. unfold re_finditer.
  rewrite (@scan_next pat s m (S (length s)) 0 0 a); try lia; trivial.
  - f_equal. apply scan_none_after. intros p H1 H2.
    destruct (Nat.lt_ge_cases p (m_end m)) as [Hlt|Hge]; [now left|right].
    apply Hafter; lia.
  - intros p _ Hp. right. now apply Hbefore.
Qed.

Lemma re_finditer_two (pat : pattern) (s : pystr) (m1 m2 : rmatch)
  (a b : nat) :
  a < b -> b <= length s -> m_end m1 <= b ->
  (forall p, p < a -> pat s p = None) ->
  pat s a = Some m1 ->
  (forall p, m_end m1 <= p -> p < b -> pat s p = None) ->
  pat s b = Some m2 ->
  (forall p, m_end m2 <= p -> b < p -> p <= length s -> pat s p = None) ->
  re_finditer pat s = [m1; m2].
Proof.
  intros Hab Hb He Hbefore Hm1 Hmid Hm2 Hafter. unfold re_finditer.
  rewrite (@scan_next pat s m1 (S (length s)) 0 0 a); try lia; trivial.
  - f_equal.
    rewrite (@scan_next pat s m2 _ (S a) (m_end m1) b); try lia; trivial.
    + f_equal. apply scan_none_after. intros p H1 H2.
      destruct (Nat.lt_ge_cases p (m_end m2)) as [Hlt|Hge]; [now left|right].
      apply Hafter; lia.
    + intros p H1 H2.
      destruct (Nat.lt_ge_cases p (m_end m1)) as [Hlt|Hge]; [now left|right].
      apply Hmid; lia.
  - intros p _ Hp. right. now apply Hbefore.
Qed.

(** ** Slices of concatenations *)

Lemma firstn_length_app (a b : pystr) : firstn (length a) (a ++ b) = a.
Proof.
  rewrite firstn_app, Nat.sub_diag, firstn_all. cbn [firstn].
  apply app_nil_r.
Qed.

Lemma skipn_length_app (a b : pystr) : skipn (length a) (a ++ b) = b.
Proof.
  rewrite skipn_app, Nat.sub_diag, skipn_all. reflexivity.
Qed.

Lemma slice_mid (a b c : pystr) :
  slice (length a) (length a + length b) (a ++ b ++ c) = b.
Proof.
  unfold slice. rewrite skipn_length_app.
  replace (length a + length b - length a) with (length b) by lia.
  apply firstn_length_app.
Qed.

Lemma nth_error_mid (a c : pystr) (x : ascii) :
  nth_error (a ++ x :: c) (length a) = Some x.
Proof. rewrite nth_error_app2, Nat.sub_diag by lia. reflexivity. Qed.

Lemma nth_error_Forall (P : ascii -> Prop) (l : pystr) (i : nat) (c : ascii) :
  Forall P l -> nth_error l i = Some c -> P c.
Proof.
  intros Hl Hc. apply nth_error_In in Hc.
  rewrite Forall_forall in Hl. now apply Hl.
Qed.

(** ** One pair of delimiters *)

Lemma lacks_Forall (cs s : pystr) (x : ascii) :
  lacks cs s = true -> In x cs -> Forall (fun c => c <> x) s.
Proof.
  intros H Hx. apply Forall_forall. intros c Hc Heq. subst c.
  unfold lacks in H. rewrite forallb_forall in H. specialize (H x Hc).
  apply negb_true_iff in H.
  assert (E : existsb (Ascii.eqb x) cs = true).
  { apply existsb_exists. exists x. split; [exact Hx|apply Ascii.eqb_refl]. }
  congruence.
Qed.

Lemma lacks_app (cs a b : pystr) :
  lacks cs (a ++ b) = lacks cs a && lacks cs b.
Proof. unfold lacks. apply forallb_app. Qed.

Lemma lacks_not_In (cs s : pystr) (x : ascii) :
  lacks cs s = true -> In x cs -> ~ In x s.
Proof.
  intros H Hx Hin. pose proof (lacks_Forall cs s x H Hx) as HF.
  rewrite Forall_forall in HF. now apply (HF x Hin).
Qed.

Lemma occursb_absent (c : ascii) (d s : pystr) :
  ~ In c s -> occursb (c :: d) s = false.
Proof.
  induction s as [|a s IH]; intros Hc; [reflexivity|].
  cbn [occursb prefixb].
  replace (Ascii.eqb c a) with false.
  - cbn [andb orb]. apply IH. intros H. apply Hc. now right.
  - symmetry. apply Ascii.eqb_neq. intros ->. apply Hc. now left.
Qed.

Lemma backtick_absent (s : pystr) :
  ~ In backtick s -> re_finditer backtick_pattern s = [].
Proof.
  intros Hno. apply re_finditer_nil. intros p _.
  destruct (backtick_pattern s p) as [b|] eqn:E; [|reflexivity].
  apply backtick_match_shape in E. destruct E as (_ & _ & _ & E & _).
  apply nth_error_In in E. contradiction.
Qed.

Lemma default_filter_free (s : pystr) (m : rmatch) :
  m_string m = s -> ~ In dquote s -> ~ In backtick s ->
  default_filter m = true.
Proof.
  intros Hs Hq Hb. unfold default_filter, _not_in_link, _not_in_backticks.
  cbn [forallb]. rewrite Hs.
  rewrite (@link_absent s (occursb_absent dquote [dquote] s Hq)).
  rewrite (backtick_absent s Hb). reflexivity.
Qed.

Lemma link_filter_free (s : pystr) (m : rmatch) :
  m_string m = s -> ~ In dquote s ->
  forallb (fun p : pred => p m) [_not_in_link] = true.
Proof.
  intros Hs Hq. unfold _not_in_link. cbn [forallb]. rewrite Hs.
  rewrite (@link_absent s (occursb_absent dquote [dquote] s Hq)). reflexivity.
Qed.

Lemma lit2_none (x : ascii) (s : pystr) (p : nat) :
  nth_error s p <> Some x -> lit [x; x] s p = None.
Proof.
  intros H. unfold lit.
  destruct (prefixb [x; x] (skipn p s)) eqn:E; [|reflexivity].
  destruct (skipn p s) as [|c t] eqn:Hs; [discriminate|].
  cbn [prefixb] in E. apply andb_true_iff in E. destruct E as [E _].
  apply Ascii.eqb_eq in E. subst c.
  destruct (@skipn_cons_next s t x p Hs) as (_ & Hc & _). contradiction.
Qed.

Lemma nth_error_region (a b c : pystr) (p : nat) :
  length a <= p -> p < length a + length b ->
  nth_error (a ++ b ++ c) p = nth_error b (p - length a).
Proof.
  intros H1 H2. rewrite nth_error_app2 by exact H1.
  apply nth_error_app1. lia.
Qed.

Lemma nth_error_not (l : pystr) (x : ascii) (i : nat) :
  Forall (fun c => c <> x) l -> nth_error l i <> Some x.
Proof.
  intros Hl Hc. now apply (nth_error_Forall (fun c => c <> x) l i x Hl Hc).
Qed.

(** The matches of a doubled character in a line that holds it as one pair
    of delimiters and nowhere else. *)
Lemma lit2_pair_matches (x : ascii) (a b c : pystr) :
  Forall (fun ch => ch <> x) a ->
  Forall (fun ch => ch <> x) b ->
  Forall (fun ch => ch <> x) c ->
  let s := a ++ [x; x] ++ b ++ [x; x] ++ c in
  re_finditer (lit [x; x]) s
  = [MkMatch s (length a) (length a + 2) [];
     MkMatch s (length a + 2 + length b) (length a + 2 + length b + 2) []].
Proof.
  intros Ha Hb Hc s.
  assert (Hlen : length s = length a + 2 + length b + 2 + length c).
  { unfold s. rewrite !length_app. cbn [length]. lia. }
  apply re_finditer_two with (a := length a) (b := length a + 2 + length b);
    cbn [m_end]; try lia.
  - intros p Hp. apply lit2_none. unfold s.
    rewrite nth_error_app1 by exact Hp. now apply nth_error_not.
  - unfold lit, s. rewrite skipn_length_app. cbn [app prefixb].
    now rewrite Ascii.eqb_refl.
  - intros p H1 H2. apply lit2_none. unfold s.
    replace (a ++ [x; x] ++ b ++ [x; x] ++ c)
      with ((a ++ [x; x]) ++ b ++ [x; x] ++ c)
      by (now rewrite <- app_assoc).
    rewrite nth_error_region by (rewrite length_app; cbn [length]; lia).
    now apply nth_error_not.
  - unfold lit, s.
    replace (a ++ [x; x] ++ b ++ [x; x] ++ c)
      with ((a ++ [x; x] ++ b) ++ [x; x] ++ c)
      by (now rewrite <- !app_assoc).
    replace (length a + 2 + length b) with (length (a ++ [x; x] ++ b))
      by (rewrite !length_app; cbn [length]; lia).
    rewrite skipn_length_app. cbn [app prefixb]. rewrite Ascii.eqb_refl.
    cbn [andb length]. reflexivity.
  - intros p H1 _ H2. apply lit2_none. unfold s.
    replace (a ++ [x; x] ++ b ++ [x; x] ++ c)
      with ((a ++ [x; x] ++ b ++ [x; x]) ++ c)
      by (now rewrite <- !app_assoc).
    rewrite nth_error_app2 by (rewrite !length_app; cbn [length]; lia).
    now apply nth_error_not.
Qed.

Lemma sub_balanced_one_pair (x : ascii) (sub : sub_arg) (a b c : pystr)
  (preds : option (list pred)) :
  Forall (fun ch => ch <> x) a ->
  Forall (fun ch => ch <> x) b ->
  Forall (fun ch => ch <> x) c ->
  (forall m, m_string m = a ++ [x; x] ++ b ++ [x; x] ++ c ->
             forallb (fun p : pred => p m)
               match preds with
               | None => [_not_in_link; _not_in_backticks]
               | Some ps => ps
               end = true) ->
  _sub_balanced_delims (lit [x; x]) sub (a ++ [x; x] ++ b ++ [x; x] ++ c)
    preds
  = a ++ fst (sub_ends sub) ++ b ++ snd (sub_ends sub) ++ c.
Proof.
  intros Ha Hb Hc Hp.
  unfold _sub_balanced_delims, _filter_matches.
  rewrite (lit2_pair_matches x a b c Ha Hb Hc).
  cbn [filter]. rewrite !Hp by reflexivity.
  destruct (sub_ends sub) as [ss es]. cbn [zip_shared rev app fold_left fst snd].
  unfold sub_pair. cbn [m_start m_end].
  rewrite firstn_length_app. f_equal. f_equal.
  replace (a ++ x :: x :: b ++ x :: x :: c)
    with ((a ++ [x; x]) ++ b ++ [x; x] ++ c)
    by (now rewrite <- app_assoc).
  replace (length a + 2) with (length (a ++ [x; x]))
    by (rewrite length_app; reflexivity).
  rewrite slice_mid. f_equal. f_equal.
  replace ((a ++ [x; x]) ++ b ++ [x; x] ++ c)
    with (((a ++ [x; x]) ++ b ++ [x; x]) ++ c)
    by (now rewrite <- !app_assoc).
  replace (length (a ++ [x; x]) + length b + 2)
    with (length ((a ++ [x; x]) ++ b ++ [x; x]))
    by (rewrite !length_app; cbn [length]; lia).
  apply skipn_length_app.
Qed.

Lemma not_In_pair (x y : ascii) (a b c : pystr) :
  y <> x -> ~ In y a -> ~ In y b -> ~ In y c ->
  ~ In y (a ++ [x; x] ++ b ++ [x; x] ++ c).
Proof.
  intros Hxy Ha Hb Hc H.
  repeat (apply in_app_or in H; destruct H as [H|H]); try contradiction;
    cbn in H; intuition congruence.
Qed.

Lemma lacks_three (cs a b c : pystr) :
  lacks cs (a ++ b ++ c) = true ->
  lacks cs a = true /\ lacks cs b = true /\ lacks cs c = true.
Proof.
  rewrite !lacks_app, !andb_true_iff. tauto.
Qed.

(** X1: a line that holds [//] twice and otherwise no slash, backtick or
    double quote gets the two delimiters replaced by underscores, the text
    before, between and after them kept. *)
Theorem format_italic_one_pair (a b c : pystr) :
  lacks [("/")%char; backtick; dquote] (a ++ b ++ c) = true ->
  format_italic_text (a ++ str "//" ++ b ++ str "//" ++ c)
  = a ++ str "_" ++ b ++ str "_" ++ c.
Proof.
  intros H. apply lacks_three in H. destruct H as (Ha & Hb & Hc).
  unfold format_italic_text.
  change (str "//") with ["/"%char; "/"%char].
  rewrite sub_balanced_one_pair.
  - reflexivity.
  - apply (lacks_Forall _ _ _ Ha). now left.
  - apply (lacks_Forall _ _ _ Hb). now left.
  - apply (lacks_Forall _ _ _ Hc). now left.
  - intros m Hm. apply (default_filter_free _ m Hm).
    + apply not_In_pair; [discriminate| | |];
        eapply lacks_not_In; eauto; cbn; auto.
    + apply not_In_pair; [discriminate| | |];
        eapply lacks_not_In; eauto; cbn; auto.
Qed.

Lemma format_italic_one_pair_witness :
  format_italic_text (str "see " ++ str "//" ++ str "this" ++ str "//"
                      ++ str " now")
  = str "see " ++ str "_" ++ str "this" ++ str "_" ++ str " now".
Proof.
  apply (format_italic_one_pair (str "see ") (str "this") (str " now")
           eq_refl).
Defined.

Lemma not_all_dashes (line : pystr) (ch : ascii) :
  In ch line -> ch <> "-"%char ->
  pystr_eqb line (repeat "-"%char (length line)) = false.
Proof.
  intros Hin Hch. apply pystr_eqb_false. intros E.
  rewrite E in Hin. apply repeat_spec in Hin. contradiction.
Qed.

(** X2: a line that holds [--] twice, otherwise no dash, backtick or double
    quote, and some other character, gets the two delimiters replaced by
    tildes. *)
Theorem format_strikethrough_one_pair (a b c : pystr) :
  lacks [("-")%char; backtick; dquote] (a ++ b ++ c) = true ->
  a ++ b ++ c <> [] ->
  format_strikethrough_text (a ++ str "--" ++ b ++ str "--" ++ c)
  = a ++ str "~" ++ b ++ str "~" ++ c.
Proof.
  intros H Hne. pose proof (lacks_Forall _ _ "-"%char H (or_introl eq_refl))
    as Hall.
  apply lacks_three in H. destruct H as (Ha & Hb & Hc).
  unfold format_strikethrough_text.
  change (str "--") with ["-"%char; "-"%char].
  assert (Hguard : pystr_eqb (a ++ ["-"%char; "-"%char] ++ b
                              ++ ["-"%char; "-"%char] ++ c)
                     (repeat "-"%char
                        (length (a ++ ["-"%char; "-"%char] ++ b
                                 ++ ["-"%char; "-"%char] ++ c))) = false).
  { destruct (a ++ b ++ c) as [|ch rest] eqn:E; [contradiction|].
    apply not_all_dashes with (ch := ch).
    - assert (Hin : In ch (a ++ b ++ c)) by (rewrite E; now left).
      rewrite !in_app_iff in Hin. rewrite !in_app_iff. cbn [In].
      rewrite ?in_app_iff. tauto.
    - inversion Hall. assumption. }
  rewrite Hguard. cbn [negb].
  rewrite sub_balanced_one_pair.
  - reflexivity.
  - apply (lacks_Forall _ _ _ Ha). now left.
  - apply (lacks_Forall _ _ _ Hb). now left.
  - apply (lacks_Forall _ _ _ Hc). now left.
  - intros m Hm. apply (default_filter_free _ m Hm).
    + apply not_In_pair; [discriminate| | |];
        eapply lacks_not_In; eauto; cbn; auto.
    + apply not_In_pair; [discriminate| | |];
        eapply lacks_not_In; eauto; cbn; auto.
Qed.

Lemma format_strikethrough_one_pair_witness :
  format_strikethrough_text (str "" ++ str "--" ++ str "old" ++ str "--"
                             ++ str " new")
  = str "" ++ str "~" ++ str "old" ++ str "~" ++ str " new".
Proof.
  apply (format_strikethrough_one_pair (str "") (str "old") (str " new")
           eq_refl).
  discriminate.
Defined.

(** X3: a line that holds two backticks twice and otherwise no backtick or
    double quote gets each pair of backticks replaced by one. *)
Theorem format_code_one_pair (a b c : pystr) :
  lacks [backtick; dquote] (a ++ b ++ c) = true ->
  format_code_blocks (a ++ str "``" ++ b ++ str "``" ++ c)
  = a ++ str "`" ++ b ++ str "`" ++ c.
Proof.
  intros H. apply lacks_three in H. destruct H as (Ha & Hb & Hc).
  unfold format_code_blocks.
  change (str "``") with [backtick; backtick].
  rewrite sub_balanced_one_pair.
  - reflexivity.
  - apply (lacks_Forall _ _ _ Ha). now left.
  - apply (lacks_Forall _ _ _ Hb). now left.
  - apply (lacks_Forall _ _ _ Hc). now left.
  - intros m Hm. apply (link_filter_free _ m Hm).
    apply not_In_pair; [discriminate| | |];
      eapply lacks_not_In; eauto; cbn; auto.
Qed.

Lemma format_code_one_pair_witness :
  format_code_blocks (str "run " ++ str "``" ++ str "ls -l" ++ str "``"
                      ++ str "")
  = str "run " ++ str "`" ++ str "ls -l" ++ str "`" ++ str "".
Proof.
  apply (format_code_one_pair (str "run ") (str "ls -l") (str "") eq_refl).
Defined.

(** ** One link, one image *)

Lemma prefixb_app_refl (d rest : pystr) : prefixb d (d ++ rest) = true.
Proof.
  induction d as [|c d IH]; [reflexivity|].
  cbn [app prefixb]. now rewrite Ascii.eqb_refl, IH.
Qed.

Lemma lazy_dots_here (stop t : pystr) :
  prefixb stop t = true -> lazy_dots stop t = Some 0.
Proof. intros H. destruct t; cbn [lazy_dots]; now rewrite H. Qed.

Lemma lazy_dots_exact (c0 : ascii) (stop' url rest : pystr) :
  Forall (fun c => c <> c0 /\ c <> newline) url ->
  lazy_dots (c0 :: stop') (url ++ (c0 :: stop') ++ rest) = Some (length url).
Proof.
  induction 1 as [|u url [Hu Hnl] _ IH].
  - cbn [app length]. apply lazy_dots_here.
    apply (prefixb_app_refl (c0 :: stop') rest).
  - cbn [app lazy_dots prefixb length].
    replace (Ascii.eqb c0 u) with false
      by (symmetry; apply Ascii.eqb_neq; congruence).
    cbn [andb]. unfold is_dot.
    replace (Ascii.eqb u newline) with false
      by (symmetry; now apply Ascii.eqb_neq).
    cbn [negb]. cbn [app] in IH. now rewrite IH.
Qed.

Lemma lacks_two (x y : ascii) (s : pystr) :
  lacks [x; y] s = true -> Forall (fun c => c <> x /\ c <> y) s.
Proof.
  intros H. apply Forall_forall. intros c Hc. split; intros ->.
  - exact (lacks_not_In [x; y] s x H (or_introl eq_refl) Hc).
  - exact (lacks_not_In [x; y] s y H (or_intror (or_introl eq_refl)) Hc).
Qed.

Lemma link_body_eq (s : pystr) :
  link_body s
  = match (if prefixb (" "%char :: qq) s
           then lazy_dots (qq ++ ["]"%char]) (skipn 3 s) else None) with
    | Some j => Some (0, j)
    | None =>
        match s with
        | c :: s' =>
            if Ascii.eqb c "]"%char then None
            else option_map (fun kj => (S (fst kj), snd kj)) (link_body s')
        | [] => None
        end
    end.
Proof. destruct s; reflexivity. Qed.

Lemma link_body_exact (text url post : pystr) :
  lacks ["]"%char; dquote] text = true ->
  lacks [dquote; newline] url = true ->
  link_body (text ++ " "%char :: qq ++ url ++ qq ++ "]"%char :: post)
  = Some (length text, length url).
Proof.
  intros Ht Hu. apply lacks_two in Ht. apply lacks_two in Hu.
  pose proof (lazy_dots_exact dquote [dquote; "]"%char] url post Hu) as Hlazy.
  cbn [app] in Hlazy.
  induction Ht as [|t0 text [Hb Hq] Ht IH].
  - cbn [app]. rewrite link_body_eq. unfold qq at 1 2 3. cbn [app].
    cbn [prefixb skipn]. rewrite !Ascii.eqb_refl. cbn [andb].
    unfold qq. cbn [app]. rewrite Hlazy. reflexivity.
  - cbn [app]. rewrite link_body_eq.
    assert (Hpre : prefixb (" "%char :: qq)
                     (t0 :: text ++ " "%char :: qq ++ url ++ qq
                      ++ "]"%char :: post) = false).
    { unfold qq at 1. cbn [prefixb].
      destruct (Ascii.eqb " "%char t0); [|reflexivity].
      cbn [andb]. destruct text as [|t1 text'].
      - reflexivity.
      - cbn [app]. inversion Ht as [|? ? [_ Hq1] _]. subst.
        replace (Ascii.eqb dquote t1) with false
          by (symmetry; apply Ascii.eqb_neq; congruence).
        reflexivity. }
    rewrite Hpre.
    replace (Ascii.eqb t0 "]"%char) with false
      by (symmetry; now apply Ascii.eqb_neq).
    rewrite IH. reflexivity.
Qed.

Lemma link_pattern_bracket (s : pystr) (p : nat) :
  nth_error s p <> Some "["%char -> link_pattern s p = None.
Proof.
  intros H. unfold link_pattern.
  destruct (skipn p s) as [|c t] eqn:Hs; [reflexivity|].
  destruct (@skipn_cons_next s t c p Hs) as (_ & Hc & _).
  destruct (Ascii.eqb c "["%char) eqn:E; [|reflexivity].
  apply Ascii.eqb_eq in E. subst c. contradiction.
Qed.

Lemma image_pattern_bracket (s : pystr) (p : nat) :
  nth_error s p <> Some "["%char -> image_pattern s p = None.
Proof.
  intros H. unfold image_pattern.
  destruct (prefixb ("["%char :: qq) (skipn p s)) eqn:E; [|reflexivity].
  destruct (skipn p s) as [|c t] eqn:Hs; [discriminate|].
  destruct (@skipn_cons_next s t c p Hs) as (_ & Hc & _).
  cbn [prefixb] in E. apply andb_true_iff in E. destruct E as [E _].
  apply Ascii.eqb_eq in E. subst c. contradiction.
Qed.

Lemma nth_error_outside (pre mid post : pystr) (x : ascii) (p : nat) :
  Forall (fun c => c <> x) pre -> Forall (fun c => c <> x) post ->
  p < length pre \/ length pre + length mid <= p ->
  nth_error (pre ++ mid ++ post) p <> Some x.
Proof.
  intros Hpre Hpost [Hp|Hp].
  - rewrite nth_error_app1 by exact Hp. now apply nth_error_not.
  - rewrite app_assoc.
    rewrite nth_error_app2 by (rewrite length_app; lia).
    now apply nth_error_not.
Qed.

(** The one match of the link pattern in a line that holds one link and no
    other opening bracket. *)
Lemma link_matches_one (pre text url post : pystr) :
  lacks ["["%char] (pre ++ post) = true ->
  lacks ["]"%char; dquote] text = true ->
  lacks [dquote; newline] url = true ->
  let s := pre ++ (str "[" ++ text ++ str " " ++ qq ++ url ++ qq ++ str "]")
           ++ post in
  let a := length pre in
  let k := length text in
  let j := length url in
  re_finditer link_pattern s
  = [MkMatch s a (a + 1 + k + 3 + j + 3)
       [(a + 1, a + 1 + k); (a + 1 + k + 3, a + 1 + k + 3 + j)]].
Proof.
  intros Hpp Ht Hu.
  rewrite lacks_app in Hpp. apply andb_true_iff in Hpp.
  destruct Hpp as [Hpre Hpost].
  pose proof (lacks_Forall _ _ "["%char Hpre (or_introl eq_refl)) as Fpre.
  pose proof (lacks_Forall _ _ "["%char Hpost (or_introl eq_refl)) as Fpost.
  set (mid := str "[" ++ text ++ str " " ++ qq ++ url ++ qq ++ str "]").
  intros s a k j.
  assert (Hmid : length mid = 1 + k + 3 + j + 3).
  { unfold mid, k, j. rewrite !length_app.
    change (length (str "[")) with 1. change (length (str " ")) with 1.
    change (length (str "]")) with 1. change (length qq) with 2. lia. }
  apply re_finditer_one with (a := a).
  - unfold s, a. rewrite length_app. lia.
  - intros p Hp. apply link_pattern_bracket.
    apply nth_error_outside; trivial. now left.
  - assert (Hskip : skipn a s
                    = "["%char :: text ++ " "%char :: qq ++ url ++ qq
                      ++ "]"%char :: post).
    { unfold s, a. rewrite skipn_length_app. unfold mid.
      rewrite <- !app_assoc. reflexivity. }
    unfold link_pattern. rewrite Hskip.
    change (Ascii.eqb "["%char "["%char) with true. cbv iota.
    rewrite (link_body_exact text url post Ht Hu). reflexivity.
  - intros p Hp _ _. apply link_pattern_bracket.
    apply nth_error_outside; trivial. right.
    cbn [m_end] in Hp. fold a. lia.
Qed.

Lemma link_slices (pre text url post : pystr) :
  let s := pre ++ (str "[" ++ text ++ str " " ++ qq ++ url ++ qq ++ str "]")
           ++ post in
  let a := length pre in
  let k := length text in
  let j := length url in
  slice 0 a s = pre
  /\ slice (a + 1) (a + 1 + k) s = text
  /\ slice (a + 1 + k + 3) (a + 1 + k + 3 + j) s = url
  /\ skipn (a + 1 + k + 3 + j + 3) s = post.
Proof.
  intros s a k j. repeat split.
  - unfold slice, s, a. cbn [skipn]. rewrite Nat.sub_0_r.
    apply firstn_length_app.
  - unfold s, a, k.
    replace (pre ++ (str "[" ++ text ++ str " " ++ qq ++ url ++ qq
                     ++ str "]") ++ post)
      with ((pre ++ str "[") ++ text
            ++ (str " " ++ qq ++ url ++ qq ++ str "]") ++ post)
      by (rewrite <- !app_assoc; reflexivity).
    replace (length pre + 1) with (length (pre ++ str "["))
      by (rewrite length_app; reflexivity).
    apply slice_mid.
  - unfold s, a, k, j.
    replace (pre ++ (str "[" ++ text ++ str " " ++ qq ++ url ++ qq
                     ++ str "]") ++ post)
      with ((pre ++ str "[" ++ text ++ str " " ++ qq) ++ url
            ++ (qq ++ str "]") ++ post)
      by (rewrite <- !app_assoc; reflexivity).
    replace (length pre + 1 + length text + 3)
      with (length (pre ++ str "[" ++ text ++ str " " ++ qq))
      by (rewrite !length_app; change (length (str "[")) with 1;
          change (length (str " ")) with 1; change (length qq) with 2; lia).
    apply slice_mid.
  - unfold s, a, k, j. rewrite app_assoc.
    replace (length pre + 1 + length text + 3 + length url + 3)
      with (length (pre ++ str "[" ++ text ++ str " " ++ qq ++ url ++ qq
                    ++ str "]"))
      by (rewrite !length_app; change (length (str "[")) with 1;
          change (length (str " ")) with 1; change (length qq) with 2;
          change (length (str "]")) with 1; lia).
    apply skipn_length_app.
Qed.

(** X4: a link between a text without an opening bracket before it and one
    after it, with a name that holds no closing bracket or double quote and
    a URL that holds no double quote or newline, becomes the Markdown link
    of that name and URL; the text around it is kept. *)
Theorem format_links_one_link (pre text url post : pystr) :
  lacks ["["%char] (pre ++ post) = true ->
  lacks ["]"%char; dquote] text = true ->
  lacks [dquote; newline] url = true ->
  format_links (pre ++ (str "[" ++ text ++ str " " ++ qq ++ url ++ qq
                        ++ str "]") ++ post)
  = pre ++ (str "[" ++ text ++ str "](" ++ url ++ str ")") ++ post.
Proof.
  intros Hpp Ht Hu. unfold format_links, re_sub.
  rewrite (link_matches_one pre text url post Hpp Ht Hu).
  destruct (link_slices pre text url post) as (H0 & H1 & H2 & H3).
  cbn [splice]. unfold link_template, group_n, span_group.
  cbn [m_start m_end m_groups m_string nth span fst snd].
  rewrite H0, H1, H2, H3. reflexivity.
Qed.

Lemma format_links_one_link_witness :
  format_links (str "see " ++ (str "[" ++ str "the docs" ++ str " " ++ qq
                               ++ str "http://x.org/a_b" ++ qq ++ str "]")
                ++ str " now")
  = str "see " ++ (str "[" ++ str "the docs" ++ str "]("
                   ++ str "http://x.org/a_b" ++ str ")") ++ str " now".
Proof.
  apply (format_links_one_link (str "see ") (str "the docs")
           (str "http://x.org/a_b") (str " now") eq_refl eq_refl eq_refl).
Defined.

(** X5: an image between two texts without an opening bracket, with a URL
    that holds no double quote or newline, becomes the Markdown image of
    that URL; the text around it is kept. *)
Theorem format_images_one_image (pre url post : pystr) :
  lacks ["["%char] (pre ++ post) = true ->
  lacks [dquote; newline] url = true ->
  format_images (pre ++ (str "[" ++ qq ++ url ++ qq ++ str "]") ++ post)
  = pre ++ (str "![](" ++ url ++ str ")") ++ post.
Proof.
  intros Hpp Hu.
  rewrite lacks_app in Hpp. apply andb_true_iff in Hpp.
  destruct Hpp as [Hpre Hpost].
  pose proof (lacks_Forall _ _ "["%char Hpre (or_introl eq_refl)) as Fpre.
  pose proof (lacks_Forall _ _ "["%char Hpost (or_introl eq_refl)) as Fpost.
  apply lacks_two in Hu.
  set (mid := str "[" ++ qq ++ url ++ qq ++ str "]").
  set (s := pre ++ mid ++ post).
  set (a := length pre). set (j := length url).
  assert (Hmid : length mid = 3 + j + 3).
  { unfold mid, j. rewrite !length_app.
    change (length (str "[")) with 1. change (length (str "]")) with 1.
    change (length qq) with 2. lia. }
  set (m := MkMatch s a (a + 3 + j + 3) [(a + 3, a + 3 + j)]).
  assert (Hall : re_finditer image_pattern s = [m]).
  { apply re_finditer_one with (a := a).
    - unfold s, a. rewrite length_app. lia.
    - intros p Hp. apply image_pattern_bracket.
      apply nth_error_outside; trivial. now left.
    - assert (Hskip : skipn a s
                      = "["%char :: dquote :: dquote
                        :: url ++ (dquote :: [dquote; "]"%char]) ++ post).
      { unfold s, a. rewrite skipn_length_app. unfold mid, qq.
        rewrite <- !app_assoc. reflexivity. }
      assert (Hskip3 : skipn (a + 3) s
                       = url ++ (dquote :: [dquote; "]"%char]) ++ post).
      { rewrite Nat.add_comm, <- skipn_skipn, Hskip. reflexivity. }
      unfold image_pattern. rewrite Hskip, Hskip3.
      unfold qq. cbn [prefixb app]. rewrite !Ascii.eqb_refl. cbn [andb].
      pose proof (lazy_dots_exact dquote [dquote; "]"%char] url post Hu)
        as Hlazy.
      cbn [app] in Hlazy. rewrite Hlazy. reflexivity.
    - intros p Hp _ _. apply image_pattern_bracket.
      apply nth_error_outside; trivial. right.
      unfold m in Hp. cbn [m_end] in Hp. fold a. lia. }
  unfold format_images, re_sub. fold mid. fold s. rewrite Hall.
  assert (H0 : slice 0 a s = pre).
  { unfold slice, s, a. cbn [skipn]. rewrite Nat.sub_0_r.
    apply firstn_length_app. }
  assert (H1 : slice (a + 3) (a + 3 + j) s = url).
  { unfold s, mid, a, j.
    replace (pre ++ (str "[" ++ qq ++ url ++ qq ++ str "]") ++ post)
      with ((pre ++ str "[" ++ qq) ++ url ++ (qq ++ str "]") ++ post)
      by (rewrite <- !app_assoc; reflexivity).
    replace (length pre + 3) with (length (pre ++ str "[" ++ qq))
      by (rewrite !length_app; change (length (str "[")) with 1;
          change (length qq) with 2; lia).
    apply slice_mid. }
  assert (H2 : skipn (a + 3 + j + 3) s = post).
  { unfold s. rewrite app_assoc.
    replace (a + 3 + j + 3) with (length (pre ++ mid))
      by (rewrite length_app, Hmid; unfold a; lia).
    apply skipn_length_app. }
  cbn [splice]. unfold image_template, group_n, span_group, m.
  cbn [m_start m_end m_groups m_string nth span fst snd].
  rewrite H0, H1, H2. reflexivity.
Qed.

Lemma format_images_one_image_witness :
  format_images (str "plot: " ++ (str "[" ++ qq ++ str "img/a.png" ++ qq
                                  ++ str "]") ++ str "")
  = str "plot: " ++ (str "![](" ++ str "img/a.png" ++ str ")") ++ str "".
Proof.
  apply (format_images_one_image (str "plot: ") (str "img/a.png") (str "")
           eq_refl eq_refl).
Defined.

(** ** Headers with given runs *)

Lemma re_search_first (pat : pattern) (s : pystr) (m : rmatch) (a : nat) :
  a <= length s ->
  (forall p, p < a -> pat s p = None) ->
  pat s a = Some m ->
  re_search pat s = Some m.
Proof.
  intros Ha Hnone Hm. unfold re_search, re_finditer.
  rewrite (scan_next pat s m (S (length s)) 0 0 a); try lia; trivial.
  intros p _ Hp. right. now apply Hnone.
Qed.

Lemma re_search_none (pat : pattern) (s : pystr) :
  (forall p, p <= length s -> pat s p = None) -> re_search pat s = None.
Proof.
  intros H. unfold re_search. now rewrite (@re_finditer_nil pat s H).
Qed.

Lemma count_while_repeat (f : ascii -> bool) (c : ascii) (k : nat)
  (rest : pystr) :
  f c = true ->
  count_while f (repeat c k ++ rest) = k + count_while f rest.
Proof.
  intros Hc. induction k as [|k IH]; [reflexivity|].
  cbn [repeat app count_while]. now rewrite Hc, IH.
Qed.

Lemma count_while_stop_le (f : ascii -> bool) (l : pystr) (i : nat)
  (c : ascii) :
  nth_error l i = Some c -> f c = false -> count_while f l <= i.
Proof.
  revert i. induction l as [|d l IH]; intros [|i] H Hc; try discriminate.
  - cbn in H. injection H as ->. cbn [count_while]. now rewrite Hc.
  - cbn [count_while]. destruct (f d); [|lia].
    apply le_n_S. now apply (IH i).
Qed.

Lemma hd_not_equals (t : pystr) :
  t <> [] -> hd_error t <> Some "="%char -> count_while is_equals t = 0.
Proof.
  destruct t as [|c t]; [contradiction|]. intros _ H.
  cbn [count_while]. unfold is_equals.
  destruct (Ascii.eqb c "="%char) eqn:E; [|reflexivity].
  apply Ascii.eqb_eq in E. subst c. now contradiction H.
Qed.

Lemma last_split (t : pystr) :
  t <> [] -> exists t' z, t = t' ++ [z] /\ hd_error (rev t) = Some z.
Proof.
  intros Hne. destruct (rev t) as [|z r] eqn:E.
  - apply (f_equal (@rev ascii)) in E. rewrite rev_involutive in E.
    contradiction.
  - exists (rev r), z. split; [|reflexivity].
    apply (f_equal (@rev ascii)) in E. now rewrite rev_involutive in E.
Qed.

(** No trailing run is found before the last character of [x], which is
    neither [=] nor a newline. *)
Lemma header_end_before (x' : pystr) (z : ascii) (k p : nat) :
  z <> "="%char -> z <> newline ->
  p <= length x' ->
  header_end_pattern ((x' ++ [z]) ++ repeat "="%char k) p = None.
Proof.
  intros Hz Hnl Hp.
  set (s := (x' ++ [z]) ++ repeat "="%char k).
  assert (Hlen : length s = length x' + 1 + k).
  { unfold s. rewrite !length_app, repeat_length. reflexivity. }
  assert (Hzs : nth_error s (length x') = Some z).
  { unfold s. rewrite <- app_assoc. apply nth_error_mid. }
  unfold header_end_pattern.
  destruct (count_while is_equals (skipn p s)) as [|r] eqn:Hr; [reflexivity|].
  assert (Hle : S r <= length x' - p).
  { rewrite <- Hr.
    apply (count_while_stop_le is_equals (skipn p s) (length x' - p) z).
    - rewrite nth_error_skipn.
      replace (p + (length x' - p)) with (length x') by lia. exact Hzs.
    - unfold is_equals. now apply Ascii.eqb_neq. }
  replace (at_dollar s (p + S r)) with false; [reflexivity|].
  symmetry. unfold at_dollar. apply orb_false_iff. split.
  - apply Nat.eqb_neq. lia.
  - destruct (S (p + S r) =? length s) eqn:E; [|reflexivity].
    apply Nat.eqb_eq in E. cbn [andb].
    assert (Hpos : p + S r = length x') by lia.
    unfold class_at. rewrite Hpos, Hzs.
    apply Ascii.eqb_neq. congruence.
Qed.

Lemma header_end_at (x' : pystr) (z : ascii) (k : nat) :
  let s := (x' ++ [z]) ++ repeat "="%char (S k) in
  header_end_pattern s (length x' + 1)
  = Some (MkMatch s (length x' + 1) (length x' + 1 + S k) []).
Proof.
  intros s. unfold header_end_pattern.
  assert (Hskip : skipn (length x' + 1) s = repeat "="%char (S k)).
  { unfold s. replace (length x' + 1) with (length (x' ++ [z]))
      by (rewrite length_app; reflexivity).
    apply skipn_length_app. }
  rewrite Hskip.
  assert (Hrun : count_while is_equals (repeat "="%char (S k)) = S k).
  { rewrite <- (app_nil_r (repeat "="%char (S k))).
    rewrite count_while_repeat by reflexivity. cbn [count_while]. lia. }
  rewrite Hrun.
  replace (at_dollar s (length x' + 1 + S k)) with true; [reflexivity|].
  symmetry. unfold at_dollar. apply orb_true_iff. left.
  apply Nat.eqb_eq. unfold s. rewrite !length_app, repeat_length.
  reflexivity.
Qed.

(** The two searches of the header formatter on a line made of [j] equals
    signs, a title and [k] equals signs. *)
Lemma header_searches (j k : nat) (t : pystr) :
  t <> [] ->
  hd_error t <> Some "="%char ->
  hd_error (rev t) <> Some "="%char ->
  hd_error (rev t) <> Some newline ->
  let s := repeat "="%char j ++ t ++ repeat "="%char k in
  re_search header_start_pattern s
  = match j with
    | 0 => None
    | S _ => Some (MkMatch s 0 j [])
    end
  /\ re_search header_end_pattern s
     = match k with
       | 0 => None
       | S _ => Some (MkMatch s (j + length t) (j + length t + k) [])
       end.
Proof.
  intros Hne Hhd Hlast Hnl s.
  assert (Hrun : count_while is_equals s = j).
  { unfold s. rewrite count_while_repeat by reflexivity.
    destruct t as [|c t']; [contradiction|].
    cbn [app]. rewrite (hd_not_equals (c :: t' ++ repeat "="%char k)).
    - lia.
    - discriminate.
    - exact Hhd. }
  split.
  - destruct j as [|j'].
    + apply re_search_none. intros p _. unfold header_start_pattern.
      destruct p; [|reflexivity]. now rewrite Hrun.
    + apply re_search_first with (a := 0); [lia|intros p Hp; lia|].
      unfold header_start_pattern. now rewrite Hrun.
  - destruct (last_split t Hne) as (t' & z & Ht & Hz).
    rewrite Hz in Hlast, Hnl.
    assert (Hzeq : z <> "="%char) by congruence.
    assert (Hznl : z <> newline) by congruence.
    assert (Hs : s = ((repeat "="%char j ++ t') ++ [z]) ++ repeat "="%char k).
    { unfold s. rewrite Ht, <- !app_assoc. reflexivity. }
    assert (Hjt : j + length t = length (repeat "="%char j ++ t') + 1).
    { rewrite Ht, !length_app, repeat_length. cbn [length]. lia. }
    destruct k as [|k'].
    + apply re_search_none. intros p Hp. rewrite Hs.
      destruct (Nat.le_gt_cases p (length (repeat "="%char j ++ t')))
        as [Hle|Hgt].
      * now apply header_end_before.
      * rewrite <- Hs. unfold header_end_pattern.
        replace (skipn p s) with (@nil ascii); [reflexivity|].
        symmetry. apply skipn_all2. rewrite Hs, !length_app.
        rewrite length_app in Hgt. cbn [length repeat]. lia.
    + apply re_search_first with (a := j + length t).
      * unfold s. rewrite !length_app, repeat_length. lia.
      * intros p Hp. rewrite Hs. apply header_end_before; trivial. lia.
      * rewrite Hjt, Hs. apply header_end_at.
Qed.

Lemma repeat_equals_neq (j k : nat) :
  j <> k -> repeat "="%char j <> repeat "="%char k.
Proof.
  intros H E. apply (f_equal (@length ascii)) in E.
  rewrite !repeat_length in E. contradiction.
Qed.

Lemma header_groups (j k : nat) (t : pystr) :
  let s := repeat "="%char j ++ t ++ repeat "="%char k in
  group (MkMatch s 0 j []) = repeat "="%char j
  /\ group (MkMatch s (j + length t) (j + length t + k) [])
     = repeat "="%char k.
Proof.
  intros s. unfold group, slice. cbn [m_start m_end m_string]. split.
  - cbn [skipn]. rewrite Nat.sub_0_r. unfold s.
    rewrite <- (repeat_length "="%char j) at 1. apply firstn_length_app.
  - unfold s. rewrite app_assoc.
    replace (j + length t) with (length (repeat "="%char j ++ t))
      by (rewrite length_app, repeat_length; reflexivity).
    rewrite skipn_length_app.
    replace (length (repeat "="%char j ++ t) + k
             - length (repeat "="%char j ++ t)) with k by lia.
    rewrite <- (repeat_length "="%char k) at 1. apply firstn_all.
Qed.

(** X6: a line made of a run of [k] equals signs, a title and a run of [k]
    equals signs again, the title not empty and with no equals sign at
    either end, becomes padding + k hashes, a space and the title without
    its leading white space. *)
Theorem format_headers_balanced (padding : Z) (k : nat) (t : pystr) :
  0 < k ->
  t <> [] ->
  hd_error t <> Some "="%char ->
  hd_error (rev t) <> Some "="%char ->
  hd_error (rev t) <> Some newline ->
  format_headers padding (repeat "="%char k ++ t ++ repeat "="%char k)
  = repeat_char "#"%char (padding + Z.of_nat k) ++ str " " ++ lstrip t.
Proof.
  intros Hk Hne Hhd Hlast Hnl.
  destruct (header_searches k k t Hne Hhd Hlast Hnl) as [Hs He].
  destruct (header_groups k k t) as [Gs Ge].
  unfold format_headers. rewrite Hs, He.
  destruct k as [|k']; [lia|]. rewrite Gs, Ge.
  replace (pystr_eqb (repeat "="%char (S k'))
             (repeat "="%char (S k') ++ t ++ repeat "="%char (S k')))
    with false.
  - replace (pystr_eqb (repeat "="%char (S k')) (repeat "="%char (S k')))
      with true by (symmetry; now apply pystr_eqb_true).
    cbn [negb]. rewrite repeat_length. do 2 f_equal. f_equal.
    replace (length (repeat "="%char (S k') ++ t ++ repeat "="%char (S k'))
             - S k')
      with (length (repeat "="%char (S k')) + length t)
      by (rewrite !length_app, !repeat_length; lia).
    rewrite <- (repeat_length "="%char (S k')) at 1.
    apply slice_mid.
  - symmetry. apply pystr_eqb_false. intros E.
    apply (f_equal (@length ascii)) in E.
    rewrite !length_app, !repeat_length in E.
    destruct t; [contradiction|]. cbn [length] in E. lia.
Qed.

Lemma format_headers_balanced_witness :
  format_headers 1 (repeat "="%char 2 ++ str "  Plan B " ++ repeat "="%char 2)
  = repeat_char "#"%char (1 + Z.of_nat 2) ++ str " " ++ lstrip (str "  Plan B ").
Proof.
  apply (format_headers_balanced 1 2 (str "  Plan B ")); try discriminate.
  lia.
Defined.

(** X7: when the two runs of equals signs around such a title differ in
    length (one of them may be missing), the header formatter leaves the
    line as it is. *)
Theorem format_headers_unbalanced (padding : Z) (j k : nat) (t : pystr) :
  j <> k ->
  t <> [] ->
  hd_error t <> Some "="%char ->
  hd_error (rev t) <> Some "="%char ->
  hd_error (rev t) <> Some newline ->
  format_headers padding (repeat "="%char j ++ t ++ repeat "="%char k)
  = repeat "="%char j ++ t ++ repeat "="%char k.
Proof.
  intros Hjk Hne Hhd Hlast Hnl.
  destruct (header_searches j k t Hne Hhd Hlast Hnl) as [Hs He].
  destruct (header_groups j k t) as [Gs Ge].
  unfold format_headers. rewrite Hs, He.
  destruct j as [|j']; [reflexivity|].
  destruct (pystr_eqb _ _); [reflexivity|].
  destruct k as [|k']; [reflexivity|].
  rewrite Gs, Ge.
  replace (pystr_eqb (repeat "="%char (S k')) (repeat "="%char (S j')))
    with false; [reflexivity|].
  symmetry. apply pystr_eqb_false. apply repeat_equals_neq. congruence.
Qed.

Lemma format_headers_unbalanced_witness :
  format_headers 0 (repeat "="%char 3 ++ str "Sub" ++ repeat "="%char 2)
  = repeat "="%char 3 ++ str "Sub" ++ repeat "="%char 2.
Proof.
  apply (format_headers_unbalanced 0 3 2 (str "Sub")); discriminate.
Defined.

(** ** The list formatter on items, blank lines and prose *)

Lemma is_list_marker_not_space (c : ascii) :
  is_list_marker c = true -> is_space c = false.
Proof. ascii_cases c. Qed.

Lemma forallb_Forall_space (w : pystr) :
  forallb is_space w = true -> Forall (fun a => is_space a = true) w.
Proof. intros H. apply Forall_forall. now apply forallb_forall. Qed.

Lemma list_item_at (w r' : pystr) (c r0 : ascii) :
  forallb is_space w = true ->
  is_list_marker c = true ->
  is_space r0 = true ->
  let line := w ++ c :: r0 :: r' in
  re_match list_item_pattern line
  = Some (MkMatch line 0 (length w + 2) [(length w, length w + 1)])
  /\ getitem line (length w) = Ok c.
Proof.
  intros Hw Hc Hr line. apply forallb_Forall_space in Hw.
  assert (Hcw : count_while is_space line = length w).
  { unfold line. apply count_while_app_stop; [exact Hw|].
    now apply is_list_marker_not_space. }
  assert (Hnc : nth_error line (length w) = Some c).
  { unfold line. apply nth_error_mid. }
  assert (Hnr : nth_error line (S (length w)) = Some r0).
  { unfold line. rewrite nth_error_app2 by lia.
    replace (S (length w) - length w) with 1 by lia. reflexivity. }
  split.
  - unfold re_match, list_item_pattern. rewrite Hcw.
    unfold class_at. rewrite Hnc, Hnr, Hc, Hr. reflexivity.
  - unfold getitem. now rewrite Hnc.
Qed.

(** X8: an unordered item, [-] behind white space [w] and before a white
    space character, comes out as it is; the history keeps its entries up to
    the column of the marker and loses the deeper ones, and the count of
    blank lines stays. *)
Theorem format_lists_unordered (st : lists_state) (w r' : pystr) (r0 : ascii) :
  forallb is_space w = true ->
  is_space r0 = true ->
  format_lists st (w ++ "-"%char :: r0 :: r')
  = Ok (MkLists (firstn (length w + 1) (ordered_list_history st))
          (sequential_empty_lines st),
        w ++ "-"%char :: r0 :: r').
Proof.
  intros Hw Hr.
  destruct (list_item_at w r' "-"%char r0 Hw eq_refl Hr) as [Hm Hg].
  unfold format_lists. rewrite Hm.
  cbn [span_group span m_groups nth fst]. rewrite Hg. reflexivity.
Qed.

Lemma format_lists_unordered_witness :
  format_lists (MkLists [3; 1; 5; 2] 1) (str "  " ++ "-"%char :: " "%char
                                         :: str "milk")
  = Ok (MkLists (firstn (length (str "  ") + 1) [3; 1; 5; 2]) 1,
        str "  " ++ "-"%char :: " "%char :: str "milk").
Proof.
  apply (format_lists_unordered (MkLists [3; 1; 5; 2] 1) (str "  ")
           (str "milk") " "%char eq_refl eq_refl).
Defined.

Lemma nth_fill (l : list nat) (d m j : nat) :
  nth j (l ++ repeat d m) d = nth j l d.
Proof.
  destruct (Nat.lt_ge_cases j (length l)) as [Hlt|Hge].
  - now apply app_nth1.
  - rewrite app_nth2 by exact Hge. rewrite (nth_overflow l) by exact Hge.
    apply nth_repeat.
Qed.

(** What numbering the entry of column [i] does to the history. *)
Lemma history_step (h : list nat) (i : nat) :
  let n := nth i h 1 in
  let h1 := fst (dl_getitem 1 h i) in
  let h2 := fst (dl_getitem 1 h1 i) in
  let h' := dl_del_from (dl_setitem 1 h2 i (snd (dl_getitem 1 h1 i) + 1))
              (i + 1) in
  snd (dl_getitem 1 h i) = n
  /\ length h' = S i
  /\ nth i h' 1 = S n
  /\ forall j, j < i -> nth j h' 1 = nth j h 1.
Proof.
  intros n h1 h2 h'.
  unfold dl_getitem, dl_fill in *. cbn [fst snd] in *.
  assert (Hn1 : nth i h1 1 = n) by (unfold h1; apply nth_fill).
  assert (Hn2 : forall j, nth j h2 1 = nth j h 1).
  { intros j. unfold h2. rewrite nth_fill. unfold h1. apply nth_fill. }
  assert (Hlen : S i <= length (h2 ++ repeat 1 (S i - length h2))).
  { rewrite length_app, repeat_length. lia. }
  set (h3 := h2 ++ repeat 1 (S i - length h2)) in *.
  assert (Hn3 : forall j, nth j h3 1 = nth j h 1).
  { intros j. unfold h3. rewrite nth_fill. apply Hn2. }
  assert (Hh' : h' = firstn i h3 ++ [n + 1]).
  { unfold h', dl_del_from, dl_setitem, dl_fill. fold h3.
    rewrite nth_fill, Hn1.
    rewrite firstn_app, length_firstn.
    replace (Nat.min i (length h3)) with i by lia.
    replace (i + 1 - i) with 1 by lia.
    rewrite firstn_firstn. replace (Nat.min (i + 1) i) with i by lia.
    reflexivity. }
  repeat split.
  - unfold n. apply nth_fill.
  - rewrite Hh', length_app, length_firstn. cbn [length]. lia.
  - rewrite Hh', app_nth2 by (rewrite length_firstn; lia).
    rewrite length_firstn.
    replace (i - Nat.min i (length h3)) with 0 by lia. cbn [nth]. lia.
  - intros j Hj. rewrite Hh', app_nth1 by (rewrite length_firstn; lia).
    rewrite nth_firstn.
    replace (j <? i) with true by (symmetry; now apply Nat.ltb_lt).
    apply Hn3.
Qed.

Lemma format_lists_numbers (st : lists_state) (w r' : pystr) (c r0 : ascii) :
  forallb is_space w = true ->
  is_list_marker c = true ->
  c <> "-"%char ->
  is_space r0 = true ->
  exists h',
    format_lists st (w ++ c :: r0 :: r')
    = Ok (MkLists h' (sequential_empty_lines st),
          w ++ str_of_nat (nth (length w) (ordered_list_history st) 1)
          ++ "."%char :: r0 :: r')
    /\ length h' = S (length w)
    /\ nth (length w) h' 1 = S (nth (length w) (ordered_list_history st) 1)
    /\ forall j, j < length w ->
                 nth j h' 1 = nth j (ordered_list_history st) 1.
Proof.
  intros Hw Hc Hne Hr.
  destruct (list_item_at w r' c r0 Hw Hc Hr) as [Hm Hg].
  destruct (history_step (ordered_list_history st) (length w))
    as (Hn & Hlen & Hnth & Hlow).
  eexists. split; [|split; [exact Hlen|split; [exact Hnth|exact Hlow]]].
  unfold format_lists. rewrite Hm.
  cbn [span_group span m_groups nth fst]. rewrite Hg. cbn [bind].
  replace (Ascii.eqb c "-"%char) with false
    by (symmetry; now apply Ascii.eqb_neq).
  destruct (dl_getitem 1 (ordered_list_history st) (length w))
    as [h1 n1] eqn:E1.
  cbn [fst snd] in *. subst n1.
  destruct (dl_getitem 1 h1 (length w)) as [h2 n2] eqn:E2.
  cbn [fst snd] in *.
  do 3 f_equal.
  - rewrite firstn_length_app. reflexivity.
  - f_equal.
    replace (w ++ c :: r0 :: r') with ((w ++ [c]) ++ r0 :: r')
      by (now rewrite <- app_assoc).
    replace (length w + 1) with (length (w ++ [c]))
      by (rewrite length_app; reflexivity).
    rewrite skipn_length_app. reflexivity.
Qed.

(** X9: an item whose marker is not [-], behind white space [w] and before
    a white space character, gets its marker replaced by the number that
    the history holds for the column of the marker (1 when it holds none)
    and a full stop.  Afterwards the history holds the next number for that
    column, what it held for the columns to the left, and nothing for the
    columns to the right; the count of blank lines stays. *)
Theorem format_lists_ordered (st : lists_state) (w r' : pystr) (c r0 : ascii) :
  forallb is_space w = true ->
  is_list_marker c = true ->
  c <> "-"%char ->
  is_space r0 = true ->
  exists h',
    format_lists st (w ++ c :: r0 :: r')
    = Ok (MkLists h' (sequential_empty_lines st),
          w ++ str_of_nat (nth (length w) (ordered_list_history st) 1)
          ++ "."%char :: r0 :: r')
    /\ length h' = S (length w)
    /\ nth (length w) h' 1 = S (nth (length w) (ordered_list_history st) 1)
    /\ forall j, j < length w ->
                 nth j h' 1 = nth j (ordered_list_history st) 1.
Proof. apply format_lists_numbers. Qed.

Lemma format_lists_ordered_witness :
  exists h',
    format_lists (MkLists [4; 1; 7; 9] 0)
      (str "  " ++ "+"%char :: " "%char :: str "eggs")
    = Ok (MkLists h' 0,
          str "  " ++ str_of_nat (nth (length (str "  ")) [4; 1; 7; 9] 1)
          ++ "."%char :: " "%char :: str "eggs")
    /\ length h' = S (length (str "  "))
    /\ nth (length (str "  ")) h' 1
       = S (nth (length (str "  ")) [4; 1; 7; 9] 1)
    /\ forall j, j < length (str "  ") -> nth j h' 1 = nth j [4; 1; 7; 9] 1.
Proof.
  apply (format_lists_ordered (MkLists [4; 1; 7; 9] 0) (str "  ")
           (str "eggs") "+"%char " "%char eq_refl eq_refl).
  - discriminate.
  - reflexivity.
Defined.

Lemma feed_app (f : formatter) (l1 l2 : list pystr) :
  forall st st1 st2 o1 o2,
    feed f st l1 = Ok (st1, o1) ->
    feed f st1 l2 = Ok (st2, o2) ->
    feed f st (l1 ++ l2) = Ok (st2, o1 ++ o2).
Proof.
  induction l1 as [|line l1 IH]; intros st st1 st2 o1 o2 H1 H2.
  - cbn in H1. injection H1 as <- <-. exact H2.
  - cbn [app feed] in H1 |- *.
    destruct (f st line) as [[sta la]|e]; [|discriminate].
    cbn [bind fst snd] in H1 |- *.
    destruct (feed f sta l1) as [[stb lb]|e] eqn:E; [|discriminate].
    cbn [bind fst snd] in H1. injection H1 as <- <-.
    rewrite (IH sta stb st2 lb o2 E H2). reflexivity.
Qed.

Lemma feed_items (w : pystr) (texts : list pystr) :
  forallb is_space w = true ->
  forall st, exists st',
    feed format_lists st (map (ordered_item w) texts)
    = Ok (st', numbered w (nth (length w) (ordered_list_history st) 1) texts)
    /\ sequential_empty_lines st' = sequential_empty_lines st
    /\ nth (length w) (ordered_list_history st') 1
       = nth (length w) (ordered_list_history st) 1 + length texts.
Proof.
  intros Hw. induction texts as [|t texts IH]; intros st.
  - exists st. cbn. repeat split. lia.
  - destruct (format_lists_numbers st w t "+"%char " "%char Hw eq_refl)
      as (h' & Hrun & _ & Hnth & _); [discriminate|reflexivity|].
    destruct (IH (MkLists h' (sequential_empty_lines st)))
      as (st' & Hfeed & Hsel & Hlast).
    cbn [ordered_list_history sequential_empty_lines] in *.
    exists st'. split; [|split].
    + cbn [map feed]. unfold ordered_item at 1. rewrite Hrun.
      cbn [bind fst snd]. rewrite Hfeed. cbn [bind fst snd].
      rewrite Hnth. reflexivity.
    + exact Hsel.
    + rewrite Hlast, Hnth. cbn [length]. lia.
Qed.

(** X10: ordered items that follow each other at the same column are
    numbered one after the other, from the number that the history holds
    for that column. *)
Theorem feed_ordered_items (w : pystr) (texts : list pystr)
  (st : lists_state) :
  forallb is_space w = true ->
  exists st',
    feed format_lists st (map (ordered_item w) texts)
    = Ok (st', numbered w (nth (length w) (ordered_list_history st) 1) texts).
Proof.
  intros Hw. destruct (feed_items w texts Hw st) as (st' & H & _).
  now exists st'.
Qed.

Lemma feed_ordered_items_witness :
  exists st',
    feed format_lists lists_init
      (map (ordered_item (str " ")) [str "a"; str "b"; str "c"; str "d"])
    = Ok (st', numbered (str " ")
                 (nth (length (str " ")) (ordered_list_history lists_init) 1)
                 [str "a"; str "b"; str "c"; str "d"]).
Proof.
  apply (feed_ordered_items (str " ") [str "a"; str "b"; str "c"; str "d"]
           lists_init eq_refl).
Defined.

Lemma format_lists_blank (st : lists_state) (b : pystr) :
  forallb is_space b = true ->
  format_lists st b
  = Ok (MkLists (if 2 <=? sequential_empty_lines st + 1 then []
                 else ordered_list_history st)
          (sequential_empty_lines st + 1), b).
Proof.
  intros Hb. apply forallb_Forall_space in Hb.
  assert (Hcw : count_while is_space b = length b).
  { rewrite <- (app_nil_r b) at 1. induction Hb as [|c b Hc _ IH];
      [reflexivity|]. cbn [app count_while length]. now rewrite Hc, IH. }
  unfold format_lists, re_match, list_item_pattern. rewrite Hcw.
  unfold class_at at 1.
  replace (nth_error b (length b)) with (@None ascii)
    by (symmetry; apply nth_error_None; lia).
  cbn [andb].
  assert (Hstrip : strip b = []).
  { unfold strip, rstrip. unfold lstrip at 2. rewrite Hcw, skipn_all.
    reflexivity. }
  rewrite Hstrip. reflexivity.
Qed.

(** X11: after two blank lines in a row the history is empty, whatever the
    state was: an item that follows, whatever its column, is numbered 1. *)
Theorem two_blank_lines_restart (st : lists_state) (b1 b2 w r' : pystr)
  (c r0 : ascii) :
  forallb is_space b1 = true ->
  forallb is_space b2 = true ->
  forallb is_space w = true ->
  is_list_marker c = true ->
  c <> "-"%char ->
  is_space r0 = true ->
  exists st',
    feed format_lists st [b1; b2; w ++ c :: r0 :: r']
    = Ok (st', [b1; b2; w ++ str "1." ++ r0 :: r']).
Proof.
  intros H1 H2 Hw Hc Hne Hr. cbn [feed].
  rewrite (format_lists_blank st b1 H1). cbn [bind fst snd].
  rewrite (format_lists_blank _ b2 H2). cbn [bind fst snd].
  cbn [sequential_empty_lines ordered_list_history].
  replace (2 <=? sequential_empty_lines st + 1 + 1) with true
    by (symmetry; apply Nat.leb_le; lia).
  destruct (format_lists_numbers
              (MkLists [] (sequential_empty_lines st + 1 + 1)) w r' c r0
              Hw Hc Hne Hr) as (h' & Hrun & _).
  rewrite Hrun. cbn [bind fst snd ordered_list_history].
  eexists. do 4 f_equal. f_equal.
  destruct (length w); reflexivity.
Qed.

Lemma two_blank_lines_restart_witness :
  exists st',
    feed format_lists (MkLists [5; 6] 0)
      [str ""; str "  "; str " " ++ "+"%char :: " "%char :: str "x"]
    = Ok (st', [str ""; str "  ";
                str " " ++ str "1." ++ " "%char :: str "x"]).
Proof.
  apply (two_blank_lines_restart (MkLists [5; 6] 0) (str "") (str "  ")
           (str " ") (str "x") "+"%char " "%char eq_refl eq_refl eq_refl
           eq_refl).
  - discriminate.
  - reflexivity.
Defined.

(** X12: after a line of prose (not blank, no list item) the ordered items
    at one column are numbered from 1, and one blank line between them does
    not restart the numbering. *)
Theorem prose_then_items_across_blank (st : lists_state)
  (prose b w : pystr) (ts1 ts2 : list pystr) :
  re_match list_item_pattern prose = None ->
  strip prose <> [] ->
  forallb is_space b = true ->
  forallb is_space w = true ->
  exists st',
    feed format_lists st
      (prose :: map (ordered_item w) ts1 ++ b :: map (ordered_item w) ts2)
    = Ok (st', prose :: numbered w 1 ts1
                     ++ b :: numbered w (1 + length ts1) ts2).
Proof.
  intros Hm Hs Hb Hw. cbn [feed].
  rewrite (@format_lists_prose st prose Hm Hs). cbn [bind fst snd].
  destruct (feed_items w ts1 Hw (MkLists [] 0)) as (st1 & F1 & S1 & N1).
  cbn [ordered_list_history sequential_empty_lines] in F1, S1, N1.
  replace (nth (length w) [] 1) with 1 in F1, N1
    by (destruct (length w); reflexivity).
  destruct (feed_items w ts2 Hw
              (MkLists (ordered_list_history st1) 1)) as (st2 & F2 & _).
  cbn [ordered_list_history] in F2. rewrite N1 in F2.
  assert (Fb : feed format_lists st1 (b :: map (ordered_item w) ts2)
               = Ok (st2, b :: numbered w (1 + length ts1) ts2)).
  { cbn [feed]. rewrite (format_lists_blank st1 b Hb), S1.
    cbn [bind fst snd Nat.add Nat.leb]. rewrite F2. reflexivity. }
  rewrite (feed_app format_lists _ _ _ _ _ _ _ F1 Fb).
  cbn [bind fst snd]. now exists st2.
Qed.

Lemma prose_then_items_across_blank_witness :
  exists st',
    feed format_lists (MkLists [7] 3)
      (str "Shopping:" :: map (ordered_item (str "")) [str "a"; str "b"]
       ++ str "" :: map (ordered_item (str "")) [str "c"])
    = Ok (st', str "Shopping:" :: numbered (str "") 1 [str "a"; str "b"]
               ++ str "" :: numbered (str "") (1 + length [str "a"; str "b"])
                              [str "c"]).
Proof.
  apply (prose_then_items_across_blank (MkLists [7] 3) (str "Shopping:")
           (str "") (str "") [str "a"; str "b"] [str "c"] eq_refl).
  - discriminate.
  - reflexivity.
  - reflexivity.
Defined.

(** ** What the underscore formatter adds *)

Lemma splice_underscores (s : pystr) (ms : list rmatch) :
  forall c,
    spans_ordered c ms ->
    Forall (fun m => m_end m = S (m_start m)
                     /\ nth_error s (m_start m) = Some underscore) ms ->
    filter not_backslash (splice (fun _ => [backslash; underscore]) s c ms)
    = filter not_backslash (skipn c s)
    /\ length (splice (fun _ => [backslash; underscore]) s c ms)
       = length (skipn c s) + length ms.
Proof.
  induction ms as [|m ms IH]; intros c Hord Hall.
  - cbn [splice length]. split; [reflexivity|lia].
  - cbn [spans_ordered] in Hord. destruct Hord as (H1 & _ & H3).
    inversion Hall as [|? ? [He Hu] Hrest]. subst.
    destruct (IH (m_end m) H3 Hrest) as [IHf IHl].
    cbn [splice].
    rewrite (@skipn_slice c (m_start m) s H1).
    rewrite (skipn_nth_cons s (m_start m) Hu).
    rewrite <- He. split.
    + rewrite !filter_app, IHf. reflexivity.
    + rewrite !length_app, IHl. cbn [length]. lia.
Qed.

(** X13: the underscore formatter only adds backslashes: without its
    backslashes the output is the input without its own, and the output is
    longer than the input by the number of matches that passed the filter. *)
Theorem format_inner_underscores_adds_backslashes (line : pystr) :
  filter not_backslash (format_inner_underscores line)
  = filter not_backslash line
  /\ length (format_inner_underscores line)
     = length line
       + length (_filter_matches inner_underscore_pattern line None).
Proof.
  unfold format_inner_underscores.
  set (ms := _filter_matches inner_underscore_pattern line None).
  assert (Hord : spans_ordered 0 ms).
  { apply spans_ordered_filter, re_finditer_ordered, underscore_wf. }
  assert (Hin : forall m, In m ms ->
                          m_end m = S (m_start m)
                          /\ nth_error line (m_start m) = Some underscore
                          /\ m_end m <= length line).
  { intros m Hm. apply filter_In in Hm. destruct Hm as [Hm _].
    apply re_finditer_In in Hm. destruct Hm as (p & _ & Hp).
    apply underscore_match_shape in Hp.
    destruct Hp as (-> & q & _ & _ & Hu & _). cbn [m_start m_end].
    repeat split; trivial.
    apply nth_error_Some. congruence. }
  rewrite (@fold_singles_splice [backslash; underscore] line ms 0 Hord).
  - cbn [firstn app].
    destruct (splice_underscores line ms 0 Hord) as [Hf Hl].
    + apply Forall_forall. intros m Hm.
      destruct (Hin m Hm) as (H1 & H2 & _). now split.
    + split; [exact Hf|exact Hl].
  - apply Forall_forall. intros m Hm. now destruct (Hin m Hm) as (_ & _ & H).
Qed.

(** ** Intersecting spans *)

(** X14: [_spans_intersect] holds exactly when some offset lies within both
    spans, each read as a closed interval whatever the order of its two
    ends; the test does not depend on the order of its arguments. *)
Theorem spans_intersect_shared_offset (a1 a2 b1 b2 : nat) :
  (_spans_intersect (a1, a2) (b1, b2) = true
   <-> exists x, Nat.min a1 a2 <= x /\ x <= Nat.max a1 a2
                 /\ Nat.min b1 b2 <= x /\ x <= Nat.max b1 b2)
  /\ _spans_intersect (a1, a2) (b1, b2) = _spans_intersect (b1, b2) (a1, a2)
  /\ _spans_intersect (a1, a2) (b1, b2) = _spans_intersect (a2, a1) (b2, b1).
Proof.
  unfold _spans_intersect. cbn [fst snd]. repeat split.
  - intros H. apply andb_true_iff in H. destruct H as [H1 H2].
    apply Nat.leb_le in H1, H2.
    exists (Nat.max (Nat.min a1 a2) (Nat.min b1 b2)). lia.
  - intros (x & H). apply andb_true_intro.
    split; apply Nat.leb_le; lia.
  - apply andb_comm.
  - now rewrite (Nat.min_comm a1 a2), (Nat.max_comm a1 a2),
      (Nat.min_comm b1 b2), (Nat.max_comm b1 b2).
Qed.

(** ** Lines that pass unchanged *)

Lemma escape_no_underscore (t : pystr) :
  ~ In underscore t ->
  forall prev mk, length mk = length t -> escape_outside prev t mk = t.
Proof.
  induction t as [|c t IH]; intros Hno prev mk Hlen.
  - destruct mk; reflexivity.
  - destruct mk as [|b mk]; [discriminate|]. cbn [escape_outside].
    replace (underscore_here prev c t) with false.
    + cbn [andb app]. f_equal. apply IH.
      * intros H. apply Hno. now right.
      * cbn [length] in Hlen. lia.
    + unfold underscore_here.
      replace (Ascii.eqb underscore c) with false; [reflexivity|].
      symmetry. apply Ascii.eqb_neq. intros E. apply Hno. now left.
Qed.

Lemma format_inner_underscores_plain (line : pystr) :
  occursb qq line = false -> ~ In underscore line ->
  format_inner_underscores line = line.
Proof.
  intros Hq Hu. rewrite (@format_inner_underscores_mask line Hq).
  apply escape_no_underscore; [exact Hu|apply code_mask_length].
Qed.

Lemma format_lists_not_numbered (st : lists_state) (line : pystr) :
  class_at is_numbered_marker line (count_while is_space line) = false ->
  exists st', format_lists st line = Ok (st', line).
Proof.
  intros Hc.
  destruct (format_lists_cases st line)
    as [Hsame|(c & n & st1 & Hn & Hmark & _)]; [apply Hsame|].
  unfold class_at in Hc. rewrite Hn in Hc.
  destruct (@format_lists_total st line) as (st' & line' & Hrun).
  exists st'. rewrite Hrun. do 2 f_equal.
  unfold format_lists in Hrun.
  destruct (re_match list_item_pattern line) as [m|] eqn:Hm.
  - apply list_item_match in Hm. destruct Hm as (-> & _ & _).
    cbn [span_group span m_groups nth fst] in Hrun.
    unfold getitem in Hrun. rewrite Hn in Hrun. cbn [bind] in Hrun.
    replace (Ascii.eqb c "-"%char) with true in Hrun.
    + now injection Hrun as _ <-.
    + revert Hmark Hc. unfold is_list_marker, is_numbered_marker.
      destruct (Ascii.eqb c "-"%char), (Ascii.eqb c "+"%char),
        (Ascii.eqb c "|"%char); cbn; congruence.
  - destruct (strip line); now injection Hrun as _ <-.
Qed.

(** X15: a line without RedNotebook tokens and without underscores, whose
    first character after the leading white space is neither [+] nor [|],
    comes out of the pipeline as it went in, whatever the padding and the
    state. *)
Theorem pipeline_plain_line (padding : Z) (st : lists_state) (line : pystr) :
  no_rednotebook_tokens line = true ->
  lacks [underscore] line = true ->
  class_at is_numbered_marker line (count_while is_space line) = false ->
  exists st',
    format_rednotebook_as_markdown padding st line = Ok (st', line).
Proof.
  intros Hclean Hu Hm.
  rewrite (@pipeline_no_tokens padding st line Hclean).
  rewrite escape_no_underscore.
  - now apply format_lists_not_numbered.
  - apply (lacks_not_In [underscore] line underscore Hu). now left.
  - apply code_mask_length.
Qed.

Lemma pipeline_plain_line_witness :
  exists st',
    format_rednotebook_as_markdown 2 (MkLists [3] 1)
      (str "  - call [Bob](tel:555) at 5pm: `x`, a-b")
    = Ok (st', str "  - call [Bob](tel:555) at 5pm: `x`, a-b").
Proof.
  apply (pipeline_plain_line 2 (MkLists [3] 1)
           (str "  - call [Bob](tel:555) at 5pm: `x`, a-b"));
    vm_compute; reflexivity.
Defined.

(** ** Delimiters inside the URL of a link *)

Lemma lit2_shape (x : ascii) (s : pystr) (p : nat) (m : rmatch) :
  lit [x; x] s p = Some m ->
  m = MkMatch s p (p + 2) [] /\ nth_error s p = Some x.
Proof.
  intros H.
  assert (Hx : nth_error s p = Some x).
  { destruct (nth_error s p) as [c|] eqn:E.
    - destruct (Ascii.eqb_spec c x) as [->|Hne]; [reflexivity|].
      rewrite lit2_none in H; [discriminate|]. rewrite E. congruence.
    - rewrite lit2_none in H; [discriminate|]. rewrite E. discriminate. }
  unfold lit in H. destruct (prefixb _ _); [|discriminate].
  injection H as <-. now split.
Qed.

Lemma filter_none (A : Type) (f : A -> bool) (l : list A) :
  (forall x, In x l -> f x = false) -> filter f l = [].
Proof.
  induction l as [|a l IH]; intros H; [reflexivity|].
  cbn [filter]. rewrite (H a (or_introl eq_refl)).
  apply IH. intros x Hx. apply H. now right.
Qed.

(** A match that starts on a character found only in the URL of the one
    link of its line is not outside the link. *)
Lemma in_url_not_in_link (x : ascii) (pre text url post : pystr)
  (m : rmatch) :
  lacks ["["%char] (pre ++ post) = true ->
  lacks ["]"%char; dquote] text = true ->
  lacks [dquote; newline] url = true ->
  Forall (fun c => c <> x) (pre ++ text ++ post) ->
  x <> "["%char -> x <> " "%char -> x <> "]"%char -> x <> dquote ->
  m_string m = pre ++ rn_link text url ++ post ->
  m_start m <= m_end m ->
  nth_error (m_string m) (m_start m) = Some x ->
  _not_in_link m = false.
Proof.
  intros Hpp Ht Hu Hx N1 N2 N3 N4 Hs Hle Hn.
  apply Forall_app in Hx. destruct Hx as [Fpre Hx].
  apply Forall_app in Hx. destruct Hx as [Ftext Fpost].
  set (A := pre ++ str "[" ++ text ++ str " " ++ qq).
  set (B := qq ++ str "]" ++ post).
  assert (Hline : pre ++ rn_link text url ++ post = A ++ url ++ B).
  { unfold A, B, rn_link. rewrite <- !app_assoc. reflexivity. }
  assert (FA : Forall (fun c => c <> x) A).
  { unfold A. apply Forall_app. split; [exact Fpre|].
    constructor; [congruence|]. apply Forall_app. split; [exact Ftext|].
    repeat (constructor; [congruence|]). constructor. }
  assert (FB : Forall (fun c => c <> x) B).
  { unfold B. repeat (constructor; [congruence|]). exact Fpost. }
  assert (HA : length A = length pre + 1 + length text + 3).
  { unfold A. rewrite !length_app. change (length (str "[")) with 1.
    change (length (str " ")) with 1. change (length qq) with 2. lia. }
  assert (Hin : length A <= m_start m < length A + length url).
  { rewrite Hs, Hline in Hn.
    destruct (Nat.lt_ge_cases (m_start m) (length A)) as [H1|H1].
    - exfalso. revert Hn. apply nth_error_outside; trivial. now left.
    - destruct (Nat.lt_ge_cases (m_start m) (length A + length url))
        as [H2|H2]; [lia|].
      exfalso. revert Hn. apply nth_error_outside; trivial. now right. }
  unfold _not_in_link. rewrite Hs. unfold rn_link.
  rewrite (link_matches_one pre text url post Hpp Ht Hu).
  cbn [existsb]. unfold span_group, span, _spans_intersect.
  cbn [nth m_groups m_start m_end fst snd].
  rewrite orb_false_r. apply negb_false_iff, andb_true_intro.
  split; apply Nat.leb_le; lia.
Qed.

(** X16: in a line that holds one link, the underscores, slashes, dashes and
    backticks of the URL are out of reach of the four formatters that look
    for them: each of them, sent the line, returns it as it is when the
    text outside the URL holds none of these characters. *)
Theorem link_url_is_protected (pre text url post : pystr) :
  lacks ["["%char] (pre ++ post) = true ->
  lacks ["]"%char; dquote] text = true ->
  lacks [dquote; newline] url = true ->
  lacks [underscore; "/"%char; "-"%char; backtick] (pre ++ text ++ post)
  = true ->
  let line := pre ++ rn_link text url ++ post in
  format_inner_underscores line = line
  /\ format_italic_text line = line
  /\ format_strikethrough_text line = line
  /\ format_code_blocks line = line.
Proof.
  intros Hpp Ht Hu Hout line.
  assert (Hlink : forall x m,
             In x [underscore; "/"%char; "-"%char; backtick] ->
             m_string m = line -> m_start m <= m_end m ->
             nth_error (m_string m) (m_start m) = Some x ->
             _not_in_link m = false).
  { intros x m Hx Hs Hle Hn.
    apply (in_url_not_in_link x pre text url post m); trivial.
    - exact (lacks_Forall _ _ x Hout Hx).
    - cbn [In] in Hx. intuition (subst x; discriminate).
    - cbn [In] in Hx. intuition (subst x; discriminate).
    - cbn [In] in Hx. intuition (subst x; discriminate).
    - cbn [In] in Hx. intuition (subst x; discriminate). }
  assert (Hlit : forall x sub preds,
             In x [underscore; "/"%char; "-"%char; backtick] ->
             (forall m, _not_in_link m = false ->
                        forallb (fun p : pred => p m)
                          match preds with
                          | None => [_not_in_link; _not_in_backticks]
                          | Some ps => ps
                          end = false) ->
             _sub_balanced_delims (lit [x; x]) sub line preds = line).
  { intros x sub preds Hx Hp. unfold _sub_balanced_delims, _filter_matches.
    rewrite filter_none; [destruct (sub_ends sub); reflexivity|].
    intros m Hm. apply Hp. apply re_finditer_In in Hm.
    destruct Hm as (p & _ & Hm). apply lit2_shape in Hm.
    destruct Hm as [-> Hn]. apply (Hlink x); cbn; trivial. lia. }
  assert (Hdef : forall m, _not_in_link m = false ->
                           forallb (fun p : pred => p m)
                             [_not_in_link; _not_in_backticks] = false).
  { intros m H. cbn [forallb]. now rewrite H. }
  repeat split.
  - unfold format_inner_underscores, _filter_matches.
    rewrite filter_none; [reflexivity|].
    intros m Hm. apply Hdef. apply re_finditer_In in Hm.
    destruct Hm as (p & _ & Hm). apply underscore_match_shape in Hm.
    destruct Hm as (-> & q & _ & _ & Hn & _).
    apply (Hlink underscore); cbn; trivial; [now left|lia].
  - apply (Hlit "/"%char (SubStr (str "_")) None); [cbn; tauto|exact Hdef].
  - unfold format_strikethrough_text. destruct (negb _); [|reflexivity].
    apply (Hlit "-"%char (SubStr (str "~")) None); [cbn; tauto|exact Hdef].
  - apply (Hlit backtick (SubStr (str "`")) (Some [_not_in_link]));
      [cbn; tauto|].
    intros m H. cbn [forallb]. now rewrite H.
Qed.

Lemma link_url_is_protected_witness :
  let line := str "see " ++ rn_link (str "the docs")
                           (str "http://x.org/a_b//c--d``e``_f_") ++ str " now"
  in
  format_inner_underscores line = line
  /\ format_italic_text line = line
  /\ format_strikethrough_text line = line
  /\ format_code_blocks line = line.
Proof.
  apply (link_url_is_protected (str "see ") (str "the docs")
           (str "http://x.org/a_b//c--d``e``_f_") (str " now")
           eq_refl eq_refl eq_refl eq_refl).
Defined.

(** ** A line with one link through the pipeline *)

Lemma Forall_neq_not_In (x : ascii) (l : pystr) :
  Forall (fun c => c <> x) l -> ~ In x l.
Proof.
  intros H Hin. rewrite Forall_forall in H. now apply (H x Hin).
Qed.

Lemma occursb2_right (x : ascii) (u b : pystr) :
  occursb [x; x] u = false -> Forall (fun c => c <> x) b ->
  occursb [x; x] (u ++ b) = false.
Proof.
  intros Hu Hb. induction u as [|c u IH].
  - apply occursb_absent. now apply Forall_neq_not_In.
  - cbn [occursb] in Hu. apply orb_false_iff in Hu. destruct Hu as [Hp Hu].
    cbn [app occursb]. rewrite (IH Hu), orb_false_r.
    destruct u as [|d u'].
    + cbn [app prefixb]. destruct b as [|d b']; [apply andb_false_r|].
      inversion Hb as [|? ? Hd _]. subst.
      replace (Ascii.eqb x d) with false; [apply andb_false_r|].
      symmetry. apply Ascii.eqb_neq. congruence.
    + exact Hp.
Qed.

Lemma occursb2_sides (x : ascii) (a u b : pystr) :
  Forall (fun c => c <> x) a -> Forall (fun c => c <> x) b ->
  occursb [x; x] u = false ->
  occursb [x; x] (a ++ u ++ b) = false.
Proof.
  intros Ha Hb Hu. induction Ha as [|c a Hc _ IH].
  - cbn [app]. now apply occursb2_right.
  - cbn [app occursb prefixb]. rewrite IH, orb_false_r.
    replace (Ascii.eqb x c) with false; [reflexivity|].
    symmetry. apply Ascii.eqb_neq. congruence.
Qed.

(** The one match of a doubled character that follows a text without the
    character and has no second occurrence behind it. *)
Lemma lit2_single (x : ascii) (a b : pystr) :
  Forall (fun c => c <> x) a -> occursb [x; x] b = false ->
  re_finditer (lit [x; x]) (a ++ [x; x] ++ b)
  = [MkMatch (a ++ [x; x] ++ b) (length a) (length a + 2) []].
Proof.
  intros Ha Hb. apply re_finditer_one with (a := length a).
  - rewrite length_app. lia.
  - intros p Hp. apply lit2_none.
    rewrite nth_error_app1 by exact Hp. now apply nth_error_not.
  - unfold lit. rewrite skipn_length_app. cbn [app prefixb].
    now rewrite Ascii.eqb_refl.
  - cbn [m_end]. intros p Hp _ _. unfold lit.
    destruct (prefixb [x; x] (skipn p (a ++ [x; x] ++ b))) eqn:E;
      [|reflexivity].
    replace (a ++ [x; x] ++ b) with ((a ++ [x; x]) ++ b) in E
      by (now rewrite <- app_assoc).
    replace p with ((p - (length a + 2)) + length (a ++ [x; x])) in E
      by (rewrite length_app; cbn [length]; lia).
    rewrite <- skipn_skipn, skipn_length_app in E.
    apply prefixb_occursb, occursb_skipn in E. congruence.
Qed.

Lemma sub_balanced_single (x : ascii) (sub : sub_arg) (a b : pystr)
  (preds : option (list pred)) :
  Forall (fun c => c <> x) a -> occursb [x; x] b = false ->
  _sub_balanced_delims (lit [x; x]) sub (a ++ [x; x] ++ b) preds
  = a ++ [x; x] ++ b.
Proof.
  intros Ha Hb. unfold _sub_balanced_delims, _filter_matches.
  rewrite (lit2_single x a b Ha Hb). cbn [filter].
  destruct (sub_ends sub). destruct (forallb _ _); reflexivity.
Qed.

Lemma count_while_app_lt (f : ascii -> bool) (p rest : pystr) :
  count_while f p < length p ->
  count_while f (p ++ rest) = count_while f p.
Proof.
  induction p as [|c p IH]; cbn [length count_while app]; [lia|].
  destruct (f c); [|reflexivity]. intros H. f_equal. apply IH. lia.
Qed.

(** The first character behind the leading white space of a line that goes
    on behind an opening bracket. *)
Lemma first_mark_bracket (f : ascii -> bool) (pre rest : pystr) :
  let p := pre ++ str "[" in
  class_at f (p ++ rest) (count_while is_space (p ++ rest))
  = class_at f p (count_while is_space p).
Proof.
  intros p.
  assert (Hle : count_while is_space p <= length pre).
  { apply (count_while_stop_le is_space p (length pre) "["%char);
      [|reflexivity].
    unfold p. rewrite nth_error_app2, Nat.sub_diag by lia. reflexivity. }
  assert (Hlt : count_while is_space p < length p).
  { unfold p at 2. rewrite length_app. cbn [length str]. 
    change (length (str "[")) with 1. lia. }
  rewrite (count_while_app_lt is_space p rest Hlt).
  unfold class_at. now rewrite nth_error_app1 by exact Hlt.
Qed.

Lemma format_links_rewrites_one (pre text url post : pystr) :
  lacks ["["%char] (pre ++ post) = true ->
  lacks ["]"%char; dquote] text = true ->
  lacks [dquote; newline] url = true ->
  format_links (pre ++ rn_link text url ++ post)
  = pre ++ md_link text url ++ post.
Proof.
  intros Hpp Ht Hu. unfold format_links, re_sub, rn_link, md_link.
  rewrite (link_matches_one pre text url post Hpp Ht Hu).
  destruct (link_slices pre text url post) as (H0 & H1 & H2 & H3).
  cbn [splice]. unfold link_template, group_n, span_group.
  cbn [m_start m_end m_groups m_string nth span fst snd].
  rewrite H0, H1, H2, H3. reflexivity.
Qed.

Lemma format_inner_underscores_in_url (pre text url post : pystr) :
  lacks ["["%char] (pre ++ post) = true ->
  lacks ["]"%char; dquote] text = true ->
  lacks [dquote; newline] url = true ->
  Forall (fun c => c <> underscore) (pre ++ text ++ post) ->
  format_inner_underscores (pre ++ rn_link text url ++ post)
  = pre ++ rn_link text url ++ post.
Proof.
  intros Hpp Ht Hu Hout. unfold format_inner_underscores, _filter_matches.
  rewrite filter_none; [reflexivity|].
  intros m Hm. apply re_finditer_In in Hm.
  destruct Hm as (p & _ & Hm). apply underscore_match_shape in Hm.
  destruct Hm as (-> & q & _ & _ & Hn & _).
  cbn [forallb].
  rewrite (in_url_not_in_link underscore pre text url post _ Hpp Ht Hu Hout);
    cbn; trivial; try discriminate. lia.
Qed.

Lemma lacks_sub (cs s : pystr) (x : ascii) :
  lacks cs s = true -> In x cs -> ~ In x s.
Proof. intros H Hx. apply Forall_neq_not_In, (lacks_Forall cs s x H Hx). Qed.

(** X17: a line made of a text, one link whose URL has the form
    [scheme//rest] and a text comes out of the pipeline with the link in
    Markdown form and nothing else changed, whatever underscores, single
    slashes and single dashes the URL holds.  The texts around the link and
    its name hold no bracket, double quote, underscore, slash, dash or
    backtick; the URL holds no double quote, newline or backtick, no second
    double slash and no double dash; the line does not start with [=], and
    its first character after the leading white space is neither [+] nor
    [|]. *)
Theorem pipeline_one_link (padding : Z) (st : lists_state)
  (pre text u1 u2 post : pystr) :
  let url := u1 ++ str "//" ++ u2 in
  lacks ["["%char; "]"%char; dquote; underscore; "/"%char; "-"%char;
         backtick] (pre ++ text ++ post) = true ->
  lacks [dquote; newline; backtick] url = true ->
  lacks ["/"%char] u1 = true ->
  occursb (str "//") u2 = false ->
  occursb (str "--") url = false ->
  prefixb (str "=") pre = false ->
  class_at is_numbered_marker (pre ++ str "[")
    (count_while is_space (pre ++ str "[")) = false ->
  exists st',
    format_rednotebook_as_markdown padding st
      (pre ++ rn_link text url ++ post)
    = Ok (st', pre ++ md_link text url ++ post).
Proof.
  intros url Hout Hurl Hu1 Hu2 Hdd Heq Hmark.
  set (cs := ["["%char; "]"%char; dquote; underscore; "/"%char; "-"%char;
              backtick]) in Hout.
  assert (Fout : forall x, In x cs ->
                           Forall (fun c => c <> x) pre
                           /\ Forall (fun c => c <> x) text
                           /\ Forall (fun c => c <> x) post).
  { intros x Hx. pose proof (lacks_Forall cs _ x Hout Hx) as F.
    apply Forall_app in F. destruct F as [F1 F].
    apply Forall_app in F. now destruct F as [F2 F3]. }
  assert (Hpp : lacks ["["%char] (pre ++ post) = true).
  { destruct (Fout "["%char) as (F1 & _ & F3); [cbn; tauto|].
    unfold lacks. apply forallb_forall. intros c Hc. cbn [existsb].
    rewrite orb_false_r. apply negb_true_iff, Ascii.eqb_neq.
    assert (F : Forall (fun c => c <> "["%char) (pre ++ post))
      by (apply Forall_app; now split).
    exact (proj1 (Forall_forall _ _) F c Hc). }
  assert (Ht : lacks ["]"%char; dquote] text = true).
  { destruct (Fout "]"%char) as (_ & F2 & _); [cbn; tauto|].
    destruct (Fout dquote) as (_ & F2' & _); [cbn; tauto|].
    unfold lacks. apply forallb_forall. intros c Hc. cbn [existsb].
    rewrite orb_false_r. apply negb_true_iff, orb_false_iff.
    split; apply Ascii.eqb_neq.
    - exact (proj1 (Forall_forall _ _) F2 c Hc).
    - exact (proj1 (Forall_forall _ _) F2' c Hc). }
  assert (Hu : lacks [dquote; newline] url = true).
  { unfold lacks in *. rewrite forallb_forall in Hurl.
    apply forallb_forall. intros c Hc. specialize (Hurl c Hc).
    cbn [existsb] in Hurl |- *. apply negb_true_iff in Hurl.
    apply negb_true_iff. apply orb_false_iff in Hurl.
    destruct Hurl as [H1 H2]. apply orb_false_iff in H2.
    destruct H2 as [H2 _]. now rewrite H1, H2. }
  assert (Fline : forall x, In x cs -> x <> "["%char -> x <> "]"%char ->
                            Forall (fun c => c <> x) url ->
                            ~ In x (pre ++ md_link text url ++ post)).
  { intros x Hx N1 N2 Furl. apply Forall_neq_not_In.
    destruct (Fout x Hx) as (F1 & F2 & F3).
    assert (N3 : x <> "("%char /\ x <> ")"%char).
    { unfold cs in Hx. cbn [In] in Hx.
      intuition (subst x; discriminate). }
    destruct N3 as [N3 N4].
    unfold md_link. apply Forall_app. split; [exact F1|].
    rewrite <- !app_assoc.
    constructor; [congruence|]. apply Forall_app. split; [exact F2|].
    do 2 (constructor; [congruence|]). apply Forall_app.
    split; [exact Furl|]. constructor; [congruence|exact F3]. }
  rewrite pipeline_unfold.
  rewrite (format_inner_underscores_in_url pre text url post Hpp Ht Hu).
  2:{ apply (lacks_Forall cs _ underscore Hout). cbn; tauto. }
  rewrite (format_links_rewrites_one pre text url post Hpp Ht Hu).
  set (line := pre ++ md_link text url ++ post).
  assert (Hq : occursb qq line = false).
  { apply (occursb_absent dquote [dquote]).
    apply (Fline dquote); [cbn; tauto|discriminate|discriminate|].
    apply (lacks_Forall _ _ dquote Hurl). cbn; tauto. }
  assert (Hb : occursb (str "``") line = false).
  { apply (occursb_absent backtick [backtick]).
    apply (Fline backtick); [cbn; tauto|discriminate|discriminate|].
    apply (lacks_Forall _ _ backtick Hurl). cbn; tauto. }
  assert (Hh : prefixb (str "=") line = false).
  { unfold line. destruct pre as [|c pre']; [reflexivity|exact Heq]. }
  rewrite (@format_images_absent line Hq).
  rewrite (@format_headers_absent padding line Hh).
  unfold format_code_blocks.
  rewrite (@sub_balanced_absent (str "``") _ line _ Hb).
  assert (Hit : format_italic_text line = line).
  { unfold format_italic_text.
    destruct (Fout "/"%char) as (F1 & F2 & F3); [cbn; tauto|].
    replace line
      with ((pre ++ str "[" ++ text ++ str "](" ++ u1) ++ str "//"
            ++ (u2 ++ str ")" ++ post))
      by (unfold line, md_link, url; rewrite <- !app_assoc; reflexivity).
    apply (sub_balanced_single "/"%char).
    - apply Forall_app. split; [exact F1|].
      constructor; [discriminate|]. apply Forall_app. split; [exact F2|].
      do 2 (constructor; [discriminate|]).
      apply (lacks_Forall _ _ "/"%char Hu1). now left.
    - apply occursb2_right; [exact Hu2|].
      constructor; [discriminate|exact F3]. }
  rewrite Hit.
  assert (Hst : format_strikethrough_text line = line).
  { apply format_strikethrough_absent.
    destruct (Fout "-"%char) as (F1 & F2 & F3); [cbn; tauto|].
    replace line
      with ((pre ++ str "[" ++ text ++ str "](") ++ url ++ str ")" ++ post)
      by (unfold line, md_link; rewrite <- !app_assoc; reflexivity).
    apply (occursb2_sides "-"%char); [| |exact Hdd].
    - apply Forall_app. split; [exact F1|].
      constructor; [discriminate|]. apply Forall_app. split; [exact F2|].
      do 2 (constructor; [discriminate|]). constructor.
    - constructor; [discriminate|exact F3]. }
  rewrite Hst.
  apply format_lists_not_numbered.
  replace line with ((pre ++ str "[") ++ text ++ str "](" ++ url ++ str ")"
                     ++ post)
    by (unfold line, md_link; rewrite <- !app_assoc; reflexivity).
  now rewrite first_mark_bracket.
Qed.

Lemma pipeline_one_link_witness :
  exists st',
    format_rednotebook_as_markdown 0 lists_init
      (str "  see " ++ rn_link (str "the docs")
                         (str "http:" ++ str "//" ++ str "x-y.org/a_b/c_d")
       ++ str " now.")
    = Ok (st', str "  see " ++ md_link (str "the docs")
                                 (str "http:" ++ str "//"
                                  ++ str "x-y.org/a_b/c_d")
               ++ str " now.").
Proof.
  apply (pipeline_one_link 0 lists_init (str "  see ") (str "the docs")
           (str "http:") (str "x-y.org/a_b/c_d") (str " now."));
    reflexivity.
Defined.

(** ** Nested lists *)

Lemma feed_cons (f : formatter) (line : pystr) (rest : list pystr)
  (st st1 st2 : lists_state) (o : pystr) (os : list pystr) :
  f st line = Ok (st1, o) ->
  feed f st1 rest = Ok (st2, os) ->
  feed f st (line :: rest) = Ok (st2, o :: os).
Proof.
  intros H1 H2. cbn [feed]. rewrite H1. cbn [bind fst snd].
  rewrite H2. reflexivity.
Qed.

(** Ordered items at one column: the output, and the history they leave. *)
Lemma feed_items_history (w : pystr) (texts : list pystr) :
  forallb is_space w = true ->
  forall st, exists st',
    feed format_lists st (map (ordered_item w) texts)
    = Ok (st', numbered w (nth (length w) (ordered_list_history st) 1) texts)
    /\ nth (length w) (ordered_list_history st') 1
       = nth (length w) (ordered_list_history st) 1 + length texts
    /\ forall j, j < length w ->
                 nth j (ordered_list_history st') 1
                 = nth j (ordered_list_history st) 1.
Proof.
  intros Hw. induction texts as [|t texts IH]; intros st.
  - exists st. cbn. repeat split. lia.
  - destruct (format_lists_numbers st w t "+"%char " "%char Hw eq_refl)
      as (h' & Hrun & _ & Hnth & Hlow); [discriminate|reflexivity|].
    destruct (IH (MkLists h' (sequential_empty_lines st)))
      as (st' & Hfeed & Hlast & Hlow').
    cbn [ordered_list_history sequential_empty_lines] in *.
    exists st'. split; [|split].
    + cbn [map]. rewrite Hnth in Hfeed.
      exact (feed_cons format_lists _ _ st _ st' _ _ Hrun Hfeed).
    + rewrite Hlast, Hnth. cbn [length]. lia.
    + intros j Hj. now rewrite (Hlow' j Hj), (Hlow j Hj).
Qed.

Lemma format_lists_dash (st : lists_state) (w t : pystr) :
  forallb is_space w = true ->
  format_lists st (unordered_item w t)
  = Ok (MkLists (firstn (length w + 1) (ordered_list_history st))
          (sequential_empty_lines st),
        unordered_item w t).
Proof.
  intros Hw. unfold unordered_item.
  destruct (list_item_at w t "-"%char " "%char Hw eq_refl eq_refl)
    as [Hm Hg].
  unfold format_lists. rewrite Hm.
  cbn [span_group span m_groups nth fst]. rewrite Hg. reflexivity.
Qed.

(** X18: the numbering of a sub-list starts again under each item of the
    list above it.  Ordered items at a column, one ordered item at a column
    to the left of it, and ordered items at the first column again: the
    first run is numbered from the history on, the item to the left takes
    the number of its own column, and the second run starts at 1. *)
Theorem nested_list_restarts (st : lists_state) (w1 w2 a : pystr)
  (ts1 ts2 : list pystr) :
  forallb is_space w1 = true ->
  forallb is_space w2 = true ->
  length w1 < length w2 ->
  exists st',
    feed format_lists st
      (map (ordered_item w2) ts1 ++ ordered_item w1 a
       :: map (ordered_item w2) ts2)
    = Ok (st',
          numbered w2 (nth (length w2) (ordered_list_history st) 1) ts1
          ++ numbered w1 (nth (length w1) (ordered_list_history st) 1) [a]
          ++ numbered w2 1 ts2).
Proof.
  intros Hw1 Hw2 Hlt.
  destruct (feed_items_history w2 ts1 Hw2 st) as (st1 & F1 & _ & Hlow1).
  destruct (format_lists_numbers st1 w1 a "+"%char " "%char Hw1 eq_refl)
    as (h' & Hrun & Hlen & _ & _); [discriminate|reflexivity|].
  destruct (feed_items_history w2 ts2 Hw2
              (MkLists h' (sequential_empty_lines st1)))
    as (st2 & F2 & _ & _).
  cbn [ordered_list_history] in F2.
  rewrite (nth_overflow h') in F2 by lia.
  rewrite (Hlow1 (length w1) Hlt) in Hrun.
  exists st2. apply (feed_app format_lists _ _ st st1 st2 _ _ F1).
  cbn [numbered app].
  exact (feed_cons format_lists _ _ st1 _ st2 _ _ Hrun F2).
Qed.

Lemma nested_list_restarts_witness :
  exists st',
    feed format_lists lists_init
      (map (ordered_item (str "  ")) [str "a"; str "b"]
       ++ ordered_item [] (str "c")
       :: map (ordered_item (str "  ")) [str "d"])
    = Ok (st',
          numbered (str "  ") (nth 2 (ordered_list_history lists_init) 1)
            [str "a"; str "b"]
          ++ numbered [] (nth 0 (ordered_list_history lists_init) 1)
               [str "c"]
          ++ numbered (str "  ") 1 [str "d"]).
Proof.
  apply (nested_list_restarts lists_init [] (str "  ") (str "c")
           [str "a"; str "b"] [str "d"] eq_refl eq_refl).
  cbn. lia.
Defined.

(** X19: an unordered item between ordered items.  When it stands at the
    column of the ordered items or to the right of it, their numbering goes
    on behind it; when it stands to the left, their numbering starts again
    at 1. *)
Theorem unordered_item_between_ordered (st : lists_state) (w w0 u : pystr)
  (ts1 ts2 : list pystr) :
  forallb is_space w = true ->
  forallb is_space w0 = true ->
  let n := nth (length w) (ordered_list_history st) 1 in
  exists st',
    feed format_lists st
      (map (ordered_item w) ts1 ++ unordered_item w0 u
       :: map (ordered_item w) ts2)
    = Ok (st',
          numbered w n ts1 ++ unordered_item w0 u
          :: numbered w (if length w0 <? length w then 1
                         else n + length ts1) ts2).
Proof.
  intros Hw Hw0 n.
  destruct (feed_items_history w ts1 Hw st) as (st1 & F1 & Hlast & _).
  pose proof (format_lists_dash st1 w0 u Hw0) as Hrun.
  destruct (feed_items_history w ts2 Hw
              (MkLists (firstn (length w0 + 1) (ordered_list_history st1))
                 (sequential_empty_lines st1)))
    as (st2 & F2 & _ & _).
  cbn [ordered_list_history] in F2.
  rewrite nth_firstn in F2.
  replace (length w <? length w0 + 1) with (negb (length w0 <? length w))
    in F2.
  - exists st2. apply (feed_app format_lists _ _ st st1 st2 _ _ F1).
    apply (feed_cons format_lists _ _ st1 _ st2 _ _ Hrun).
    destruct (length w0 <? length w); cbn [negb] in F2; [exact F2|].
    fold n in Hlast. now rewrite <- Hlast.
  - destruct (Nat.ltb_spec (length w0) (length w)),
      (Nat.ltb_spec (length w) (length w0 + 1)); cbn [negb];
      try reflexivity; lia.
Qed.

Lemma unordered_item_between_ordered_witness :
  exists st',
    feed format_lists lists_init
      (map (ordered_item (str " ")) [str "a"; str "b"]
       ++ unordered_item (str " ") (str "c")
       :: map (ordered_item (str " ")) [str "d"])
    = Ok (st',
          numbered (str " ") 1 [str "a"; str "b"]
          ++ unordered_item (str " ") (str "c")
          :: numbered (str " ") 3 [str "d"]).
Proof.
  apply (unordered_item_between_ordered lists_init (str " ") (str " ")
           (str "c") [str "a"; str "b"] [str "d"] eq_refl eq_refl).
Defined.

(** ** Rule lines *)

Lemma repeat_not_In (c x : ascii) (n : nat) :
  x <> c -> ~ In x (repeat c n).
Proof. intros Hne Hin. apply repeat_spec in Hin. contradiction. Qed.

Lemma format_headers_equals_only (padding : Z) (n : nat) :
  format_headers padding (repeat "="%char n) = repeat "="%char n.
Proof.
  set (line := repeat "="%char n).
  assert (Hcw : count_while is_equals line = n).
  { unfold line. rewrite <- (app_nil_r (repeat _ n)).
    rewrite count_while_repeat by reflexivity. cbn. lia. }
  destruct n as [|n'].
  - reflexivity.
  - unfold format_headers.
    rewrite (re_search_first header_start_pattern line
               (MkMatch line 0 (S n') []) 0).
    + unfold group, slice. cbn [m_start m_end m_string skipn].
      rewrite Nat.sub_0_r.
      replace (firstn (S n') line) with line
        by (symmetry; apply firstn_all2; unfold line;
            rewrite repeat_length; lia).
      replace (pystr_eqb line line) with true; [reflexivity|].
      symmetry. now apply pystr_eqb_true.
    + lia.
    + intros p Hp. lia.
    + unfold header_start_pattern. now rewrite Hcw.
Qed.

(** X20: a line made of dashes only, or of equals signs only, comes out of
    the pipeline as it went in, whatever its length, the padding and the
    state. *)
Theorem pipeline_rule_line (padding : Z) (st : lists_state) (c : ascii)
  (n : nat) :
  c = "-"%char \/ c = "="%char ->
  exists st',
    format_rednotebook_as_markdown padding st (repeat c n)
    = Ok (st', repeat c n).
Proof.
  intros Hc. set (line := repeat c n).
  assert (Hno : forall x, x <> c -> ~ In x line)
    by (intros x Hx; now apply repeat_not_In).
  assert (Hx : underscore <> c /\ dquote <> c /\ backtick <> c
               /\ "/"%char <> c)
    by (destruct Hc; subst c; repeat split; discriminate).
  destruct Hx as (N1 & N2 & N3 & N4).
  assert (Hq : occursb qq line = false)
    by (apply (occursb_absent dquote [dquote]); now apply Hno).
  rewrite pipeline_unfold.
  rewrite (format_inner_underscores_plain line Hq (Hno _ N1)).
  rewrite (@format_links_absent line Hq), (@format_images_absent line Hq).
  assert (Hh : format_headers padding line = line).
  { destruct Hc; subst c.
    - apply format_headers_absent. unfold line. now destruct n.
    - apply format_headers_equals_only. }
  rewrite Hh. unfold format_code_blocks.
  rewrite (@sub_balanced_absent (str "``") _ line _
             (occursb_absent backtick [backtick] line (Hno _ N3))).
  unfold format_italic_text.
  rewrite (@sub_balanced_absent (str "//") _ line _
             (occursb_absent "/"%char ["/"%char] line (Hno _ N4))).
  assert (Hs : format_strikethrough_text line = line).
  { destruct Hc; subst c.
    - unfold format_strikethrough_text, line.
      rewrite repeat_length.
      replace (pystr_eqb (repeat "-"%char n) (repeat "-"%char n)) with true;
        [reflexivity|].
      symmetry. now apply pystr_eqb_true.
    - apply format_strikethrough_absent.
      apply (occursb_absent "-"%char ["-"%char]). now apply Hno. }
  rewrite Hs. apply format_lists_not_numbered.
  unfold line. destruct n as [|n']; [reflexivity|].
  cbn [repeat count_while].
  replace (is_space c) with false
    by (destruct Hc; subst c; reflexivity).
  unfold class_at. cbn [nth_error].
  destruct Hc; subst c; reflexivity.
Qed.

Lemma pipeline_rule_line_witness :
  exists st',
    format_rednotebook_as_markdown 1 (MkLists [2] 0) (repeat "-"%char 20)
    = Ok (st', repeat "-"%char 20).
Proof.
  apply (pipeline_rule_line 1 (MkLists [2] 0) "-"%char 20). now left.
Defined.

(** * The earlier transformers *)

(** ** The header transformer *)

(** A line is a run of equals signs, or two such runs around a text that
    has no equals sign at either end. *)
Lemma equals_runs_split (line : pystr) :
  (exists n, line = repeat "="%char n)
  \/ (exists j t k,
         line = repeat "="%char j ++ t ++ repeat "="%char k
         /\ t <> []
         /\ hd_error t <> Some "="%char
         /\ hd_error (rev t) <> Some "="%char).
Proof.
  assert (Hrun : forall s, s = repeat "="%char (count_while is_equals s)
                               ++ skipn (count_while is_equals s) s).
  { intros s. rewrite <- (firstn_skipn (count_while is_equals s) s) at 1.
    f_equal.
    rewrite (Forall_is_equals (count_while_firstn is_equals s)) at 1.
    f_equal. rewrite length_firstn.
    pose proof (count_while_le is_equals s). lia. }
  assert (Hstop : forall s e u, skipn (count_while is_equals s) s = e :: u ->
                                e <> "="%char).
  { intros s e u E. destruct (@skipn_cons_next s u e _ E) as (_ & Hn & _).
    apply count_while_stop in Hn. intros ->. discriminate. }
  pose proof (Hrun line) as Hline.
  destruct (skipn (count_while is_equals line) line) as [|c rest] eqn:E.
  - left. exists (count_while is_equals line).
    now rewrite app_nil_r in Hline.
  - right. pose proof (Hstop line c rest E) as Hc.
    set (r := rev (c :: rest)).
    pose proof (Hrun r) as Hr.
    destruct (skipn (count_while is_equals r) r) as [|e u] eqn:Eu.
    + exfalso. rewrite app_nil_r in Hr.
      assert (Hin : In c r) by (unfold r; apply in_rev;
                                rewrite rev_involutive; now left).
      rewrite Hr in Hin. apply repeat_spec in Hin. contradiction.
    + pose proof (Hstop r e u Eu) as He.
      exists (count_while is_equals line), (rev (e :: u)),
        (count_while is_equals r).
      assert (Hrest : c :: rest
                      = rev (e :: u) ++ repeat "="%char (count_while is_equals r)).
      { rewrite <- (rev_involutive (c :: rest)). fold r.
        rewrite Hr at 1. now rewrite rev_app_distr, rev_repeat. }
      repeat split.
      * rewrite Hline at 1. now rewrite Hrest.
      * intros H. apply (f_equal (@rev ascii)) in H.
        rewrite rev_involutive in H. discriminate.
      * destruct (rev (e :: u)) as [|d t'] eqn:Et.
        -- apply (f_equal (@rev ascii)) in Et.
           rewrite rev_involutive in Et. discriminate.
        -- cbn [app] in Hrest. injection Hrest as <- _. cbn. congruence.
      * rewrite rev_involutive. cbn. congruence.
Qed.

Lemma not_equals_before (s : pystr) :
  forall p, p < count_while is_equals s -> not_equals_pattern s p = None.
Proof.
  intros p Hp. unfold not_equals_pattern.
  destruct (nth_error s p) as [c|] eqn:E; [|reflexivity].
  replace (is_equals c) with true; [reflexivity|]. symmetry.
  pose proof (count_while_firstn is_equals s) as HF.
  rewrite Forall_forall in HF. apply HF.
  apply (nth_error_In _ p). now rewrite nth_error_firstn, (proj2 (Nat.ltb_lt _ _) Hp).
Qed.

(** The first character other than [=] behind a run of [j] equals signs. *)
Lemma search_not_equals (j : nat) (c : ascii) (u : pystr) :
  c <> "="%char ->
  let s := repeat "="%char j ++ c :: u in
  re_search not_equals_pattern s = Some (MkMatch s j (j + 1) [])
  /\ startswith (str "=") s = (0 <? j).
Proof.
  intros Hc s.
  assert (Hcw : count_while is_equals s = j).
  { unfold s. rewrite count_while_repeat by reflexivity.
    cbn [count_while]. unfold is_equals.
    replace (Ascii.eqb c "="%char) with false; [lia|].
    symmetry. now apply Ascii.eqb_neq. }
  split.
  - apply re_search_first with (a := j).
    + unfold s. rewrite length_app, repeat_length. lia.
    + intros p Hp. apply not_equals_before. now rewrite Hcw.
    + unfold not_equals_pattern, s.
      rewrite nth_error_app2 by (rewrite repeat_length; lia).
      rewrite repeat_length, Nat.sub_diag. cbn [nth_error]. unfold is_equals.
      replace (Ascii.eqb c "="%char) with false; [reflexivity|].
      symmetry. now apply Ascii.eqb_neq.
  - unfold startswith, s, str. cbn [list_ascii_of_string].
    destruct j as [|j']; cbn [repeat app prefixb].
    + replace (Ascii.eqb "="%char c) with false; [reflexivity|].
      symmetry. apply Ascii.eqb_neq. congruence.
    + reflexivity.
Qed.

Lemma search_not_equals_none (n : nat) :
  re_search not_equals_pattern (repeat "="%char n) = None.
Proof.
  apply re_search_none. intros p _. unfold not_equals_pattern.
  destruct (nth_error (repeat "="%char n) p) as [c|] eqn:E; [|reflexivity].
  apply nth_error_In, repeat_spec in E. now subst c.
Qed.

Lemma endswith_rev (p s : pystr) : endswith p s = startswith (rev p) (rev s).
Proof. reflexivity. Qed.

Lemma rev_runs (j k : nat) (t : pystr) :
  rev (repeat "="%char j ++ t ++ repeat "="%char k)
  = repeat "="%char k ++ rev t ++ repeat "="%char j.
Proof. now rewrite !rev_app_distr, !rev_repeat, <- app_assoc. Qed.

Lemma slice_runs (j k : nat) (t : pystr) :
  let line := repeat "="%char j ++ t ++ repeat "="%char k in
  slice j (length line - k) line = t.
Proof.
  intros line.
  replace (length line - k) with (length (repeat "="%char j) + length t)
    by (unfold line; rewrite !length_app, !repeat_length; lia).
  rewrite <- (repeat_length "="%char j) at 1. apply slice_mid.
Qed.

(** What the header transformer does to two runs of equals signs around a
    text. *)
Lemma HeaderTransformer_runs (base_level : Z) (j k : nat) (t : pystr) :
  t <> [] ->
  hd_error t <> Some "="%char ->
  hd_error (rev t) <> Some "="%char ->
  let line := repeat "="%char j ++ t ++ repeat "="%char k in
  HeaderTransformer base_level line
  = Ok (if (0 <? j) && (j =? k) && (0 <? base_level + Z.of_nat j)%Z
        then repeat_char "#"%char (base_level + Z.of_nat j) ++ str " "
             ++ lstrip t
        else line).
Proof.
  intros Hne Hhd Hlast line.
  assert (Ht : exists c u, t = c :: u /\ c <> "="%char).
  { destruct t as [|c u]; [contradiction|]. exists c, u.
    split; [reflexivity|]. cbn in Hhd. congruence. }
  destruct Ht as (c & u & Et & Hc).
  assert (Hr : exists z v, rev t = z :: v /\ z <> "="%char).
  { destruct (rev t) as [|z v] eqn:Er.
    - apply (f_equal (@rev ascii)) in Er. rewrite rev_involutive in Er.
      contradiction.
    - exists z, v. split; [reflexivity|]. cbn in Hlast. congruence. }
  destruct Hr as (z & v & Er & Hz).
  destruct (search_not_equals j c (u ++ repeat "="%char k) Hc) as [S1 P1].
  destruct (search_not_equals k z (v ++ repeat "="%char j) Hz) as [S2 P2].
  assert (L1 : repeat "="%char j ++ c :: u ++ repeat "="%char k = line)
    by (unfold line; now rewrite Et).
  assert (L2 : repeat "="%char k ++ z :: v ++ repeat "="%char j = rev line)
    by (unfold line; now rewrite rev_runs, Er).
  rewrite L1 in S1, P1. rewrite L2 in S2, P2.
  unfold HeaderTransformer. rewrite endswith_rev.
  change (rev (str "=")) with (str "="). rewrite P1, P2.
  destruct j as [|j']; [reflexivity|].
  destruct k as [|k']; [reflexivity|].
  cbn [Nat.ltb Nat.leb negb orb andb]. rewrite S1, S2.
  cbn [start_of bind m_start].
  destruct (S j' =? S k') eqn:Ejk; cbn [negb andb]; [|reflexivity].
  apply Nat.eqb_eq in Ejk.
  destruct (0 <? base_level + Z.of_nat (S j'))%Z; [|reflexivity].
  unfold slice_neg. rewrite Ejk at 3. unfold line.
  now rewrite (slice_runs (S j') (S k') t).
Qed.

(** What the header formatter does to the same line. *)
Lemma format_headers_runs (padding : Z) (j k : nat) (t : pystr) :
  t <> [] ->
  hd_error t <> Some "="%char ->
  hd_error (rev t) <> Some "="%char ->
  hd_error (rev t) <> Some newline ->
  let line := repeat "="%char j ++ t ++ repeat "="%char k in
  format_headers padding line
  = if (0 <? j) && (j =? k)
    then repeat_char "#"%char (padding + Z.of_nat j) ++ str " " ++ lstrip t
    else line.
Proof.
  intros Hne Hhd Hlast Hnl line.
  destruct (header_searches j k t Hne Hhd Hlast Hnl) as [Hs He].
  destruct (header_groups j k t) as [Gs Ge].
  unfold format_headers. fold line in Hs, He, Gs, Ge. rewrite Hs, He.
  destruct j as [|j']; [reflexivity|]. rewrite Gs.
  replace (pystr_eqb (repeat "="%char (S j')) line) with false.
  2:{ symmetry. apply pystr_eqb_false. intros E.
      apply (f_equal (@length ascii)) in E. unfold line in E.
      rewrite !length_app, !repeat_length in E.
      destruct t; [contradiction|]. cbn [length] in E. lia. }
  destruct k as [|k']; [reflexivity|]. rewrite Ge.
  cbn [Nat.ltb Nat.leb andb].
  destruct (S j' =? S k') eqn:Ejk.
  - apply Nat.eqb_eq in Ejk. rewrite <- Ejk.
    replace (pystr_eqb (repeat "="%char (S j')) (repeat "="%char (S j')))
      with true by (symmetry; now apply pystr_eqb_true).
    cbn [negb]. rewrite repeat_length. do 3 f_equal.
    replace (length line - S j') with (length line - S k') by lia.
    apply (slice_runs (S j') (S k') t).
  - apply Nat.eqb_neq in Ejk.
    replace (pystr_eqb (repeat "="%char (S k')) (repeat "="%char (S j')))
      with false; [reflexivity|].
    symmetry. apply pystr_eqb_false, repeat_equals_neq. congruence.
Qed.

Lemma count_while_runs (j : nat) (t rest : pystr) :
  t <> [] -> hd_error t <> Some "="%char ->
  count_while is_equals (repeat "="%char j ++ t ++ rest) = j.
Proof.
  intros Hne Hhd. rewrite count_while_repeat by reflexivity.
  destruct t as [|c u]; [contradiction|]. cbn [app count_while].
  unfold is_equals. replace (Ascii.eqb c "="%char) with false; [lia|].
  symmetry. apply Ascii.eqb_neq. cbn in Hhd. congruence.
Qed.

Lemma HeaderTransformer_equals_only (base_level : Z) (n : nat) :
  HeaderTransformer base_level (repeat "="%char n)
  = Ok (repeat "="%char n).
Proof.
  unfold HeaderTransformer. rewrite search_not_equals_none.
  now destruct (_ || _).
Qed.

(** X21: on a line without a newline, with a positive sum of the base level
    and the length of the leading run of equals signs, the header
    transformer of [rn2md_transformers.py] does not raise and returns what
    the header formatter of [formatters.py] returns for that padding. *)
Theorem HeaderTransformer_agrees_with_format_headers (base_level : Z)
  (line : pystr) :
  ~ In newline line ->
  (0 < base_level + Z.of_nat (count_while is_equals line))%Z ->
  HeaderTransformer base_level line = Ok (format_headers base_level line).
Proof.
  intros Hnl Hpos.
  destruct (equals_runs_split line)
    as [[n ->]|(j & t & k & -> & Hne & Hhd & Hlast)].
  - now rewrite HeaderTransformer_equals_only, format_headers_equals_only.
  - rewrite (count_while_runs j t _ Hne Hhd) in Hpos.
    assert (Hlnl : hd_error (rev t) <> Some newline).
    { intros H. apply Hnl. rewrite !in_app_iff. right. left.
      apply in_rev. destruct (rev t); [discriminate|].
      injection H as ->. now left. }
    rewrite (HeaderTransformer_runs base_level j k t Hne Hhd Hlast).
    rewrite (format_headers_runs base_level j k t Hne Hhd Hlast Hlnl).
    replace (0 <? base_level + Z.of_nat j)%Z with true
      by (symmetry; now apply Z.ltb_lt).
    now rewrite andb_true_r.
Qed.

Lemma HeaderTransformer_agrees_with_format_headers_witness :
  HeaderTransformer (-1) (str "==  Plan =B= ==")
  = Ok (format_headers (-1) (str "==  Plan =B= ==")).
Proof.
  apply (HeaderTransformer_agrees_with_format_headers (-1)
           (str "==  Plan =B= ==")).
  - vm_compute. intuition discriminate.
  - vm_compute. reflexivity.
Defined.

(** X22: the header transformer never raises, and it returns either the
    line it was sent or a header that starts with at least one hash sign:
    with a base level that cancels the level of the line, the line is
    kept. *)
Theorem HeaderTransformer_keeps_or_hashes (base_level : Z) (line : pystr) :
  HeaderTransformer base_level line = Ok line
  \/ exists n t,
       HeaderTransformer base_level line
       = Ok (repeat "#"%char (S n) ++ " "%char :: t).
Proof.
  destruct (equals_runs_split line)
    as [[n ->]|(j & t & k & -> & Hne & Hhd & Hlast)].
  - left. apply HeaderTransformer_equals_only.
  - rewrite (HeaderTransformer_runs base_level j k t Hne Hhd Hlast).
    destruct ((0 <? j) && (j =? k)); cbn [andb]; [|now left].
    destruct (0 <? base_level + Z.of_nat j)%Z eqn:E; [|now left].
    apply Z.ltb_lt in E. right.
    exists (Nat.pred (Z.to_nat (base_level + Z.of_nat j))), (lstrip t).
    unfold repeat_char.
    replace (S (Nat.pred (Z.to_nat (base_level + Z.of_nat j))))
      with (Z.to_nat (base_level + Z.of_nat j)) by lia.
    reflexivity.
Qed.

(** ** The list transformer *)

Lemma strip_blank (b : pystr) : forallb is_space b = true -> strip b = [].
Proof.
  intros Hb. apply forallb_Forall_space in Hb.
  assert (Hcw : count_while is_space b = length b).
  { rewrite <- (app_nil_r b) at 1. induction Hb as [|c b Hc _ IH];
      [reflexivity|]. cbn [app count_while length]. now rewrite Hc, IH. }
  unfold strip, rstrip. unfold lstrip at 2. now rewrite Hcw, skipn_all.
Qed.

Lemma lstrip_keeps (s : pystr) (c : ascii) :
  In c s -> is_space c = false -> In c (lstrip s).
Proof.
  intros Hin Hc. unfold lstrip.
  rewrite <- (firstn_skipn (count_while is_space s) s) in Hin.
  apply in_app_iff in Hin. destruct Hin as [Hin|Hin]; [|exact Hin].
  pose proof (count_while_firstn is_space s) as HF.
  rewrite Forall_forall in HF. specialize (HF c Hin). congruence.
Qed.

Lemma strip_nonblank (s : pystr) (c : ascii) :
  In c s -> is_space c = false -> strip s <> [].
Proof.
  intros Hin Hc. unfold strip, rstrip.
  assert (H : In c (rev (lstrip (rev (lstrip s))))).
  { apply -> in_rev. apply lstrip_keeps; [|exact Hc].
    apply -> in_rev. now apply lstrip_keeps. }
  intros E. rewrite E in H. contradiction.
Qed.

Lemma strip_not_blank (s : pystr) :
  forallb is_space s = false -> strip s <> [].
Proof.
  intros H.
  assert (Hex : exists c, In c s /\ is_space c = false).
  { induction s as [|c s IH]; [discriminate|].
    cbn [forallb] in H. destruct (is_space c) eqn:E.
    - destruct (IH H) as (d & Hd & Hs). exists d. split; [now right|exact Hs].
    - exists c. split; [now left|exact E]. }
  destruct Hex as (c & Hin & Hc). exact (strip_nonblank s c Hin Hc).
Qed.

Lemma slice_one (s : pystr) (i : nat) (c : ascii) :
  nth_error s i = Some c -> slice i (i + 1) s = [c].
Proof.
  intros H. unfold slice. replace (i + 1 - i) with 1 by lia.
  rewrite (skipn_nth_cons s i H). reflexivity.
Qed.

(** What one turn of the list transformer does to the counters of an
    ordered item at column [i]. *)
Lemma counter_step (h : list nat) (i : nat) :
  let c := dl_del_from h (i + 1) in
  let c1 := fst (dl_getitem 0 c i) in
  let c2 := dl_setitem 0 c1 i (snd (dl_getitem 0 c i) + 1) in
  let c3 := fst (dl_getitem 0 c2 i) in
  snd (dl_getitem 0 c2 i) = S (nth i h 0)
  /\ length c3 = S i
  /\ nth i c3 0 = S (nth i h 0)
  /\ forall j, j < i -> nth j c3 0 = nth j h 0.
Proof.
  intros c c1 c2 c3.
  unfold dl_getitem, dl_fill in *. cbn [fst snd] in *.
  assert (Hc : forall j, j <= i -> nth j c 0 = nth j h 0).
  { intros j Hj. unfold c, dl_del_from. rewrite nth_firstn.
    now replace (j <? i + 1) with true by (symmetry; apply Nat.ltb_lt; lia). }
  assert (Hlc : length c <= S i).
  { unfold c, dl_del_from. rewrite length_firstn. lia. }
  assert (Hl1 : length c1 = S i).
  { unfold c1. rewrite length_app, repeat_length. lia. }
  assert (Hn1 : forall j, nth j c1 0 = nth j c 0).
  { intros j. unfold c1. apply nth_fill. }
  assert (Hc2 : c2 = firstn i c1 ++ [nth i h 0 + 1]).
  { unfold c2, dl_setitem, dl_fill.
    replace (S i - length c1) with 0 by lia. cbn [repeat].
    rewrite app_nil_r, Hn1, (Hc i (le_n i)).
    rewrite skipn_all2 by lia. reflexivity. }
  assert (Hl2 : length c2 = S i).
  { rewrite Hc2, length_app, length_firstn. cbn [length]. lia. }
  assert (Hc3 : c3 = c2).
  { unfold c3. replace (S i - length c2) with 0 by lia.
    cbn [repeat]. apply app_nil_r. }
  assert (Hni : nth i c2 0 = S (nth i h 0)).
  { rewrite Hc2, app_nth2 by (rewrite length_firstn; lia).
    rewrite length_firstn.
    replace (i - Nat.min i (length c1)) with 0 by lia. cbn [nth]. lia. }
  repeat split.
  - fold c3. now rewrite Hc3.
  - now rewrite Hc3.
  - now rewrite Hc3.
  - intros j Hj. rewrite Hc3, Hc2, app_nth1 by (rewrite length_firstn; lia).
    rewrite nth_firstn.
    replace (j <? i) with true by (symmetry; now apply Nat.ltb_lt).
    rewrite Hn1. apply Hc. lia.
Qed.

(** The list transformer on an item, from the match of the list pattern. *)
Lemma ListTransformer_item (st : lists_state) (line : pystr) (m : rmatch) :
  re_match list_item_pattern line = Some m ->
  let i := count_while is_space line in
  exists c,
    nth_error line i = Some c
    /\ is_list_marker c = true
    /\ class_at is_space line (S i) = true
    /\ ListTransformer st line
       = if Ascii.eqb c "+"%char
         then
           let counter := dl_del_from (ordered_list_history st) (i + 1) in
           let c1 := fst (dl_getitem 0 counter i) in
           let c2 :=
             dl_setitem 0 c1 i (snd (dl_getitem 0 counter i) + 1) in
           Ok (MkLists (fst (dl_getitem 0 c2 i)) 0,
               firstn i line
               ++ (str_of_nat (snd (dl_getitem 0 c2 i)) ++ str ".")
               ++ skipn (i + 1) line)
         else Ok (MkLists (dl_del_from (ordered_list_history st) (i + 1)) 0,
                  line).
Proof.
  intros Hm i. pose proof Hm as Hm'.
  apply list_item_match in Hm'. fold i in Hm'.
  destruct Hm' as (-> & Hmark & Hsp).
  unfold class_at in Hmark.
  destruct (nth_error line i) as [c|] eqn:Hc; [|discriminate].
  exists c. repeat split; trivial.
  assert (Hs : strip line <> []).
  { apply (strip_nonblank line c); [eapply nth_error_In; eauto|].
    now apply is_list_marker_not_space. }
  unfold ListTransformer. rewrite Hm.
  destruct (strip line) as [|x xs]; [contradiction|].
  unfold group_n, span_group.
  cbn [nth m_groups m_string span fst snd].
  rewrite (slice_one line i c Hc).
  replace (pystr_eqb [c] (str "+")) with (Ascii.eqb c "+"%char).
  - destruct (Ascii.eqb c "+"%char); [|reflexivity].
    unfold dl_getitem. reflexivity.
  - unfold pystr_eqb.
    destruct (list_eq_dec ascii_dec [c] (str "+")) as [E|E].
    + injection E as ->. reflexivity.
    + destruct (Ascii.eqb_spec c "+"%char) as [->|]; [now elim E|reflexivity].
Qed.

Lemma ListTransformer_blank (st : lists_state) (b : pystr) :
  forallb is_space b = true ->
  ListTransformer st b
  = Ok (MkLists (if 2 <=? sequential_empty_lines st + 1 then []
                 else ordered_list_history st)
          (sequential_empty_lines st + 1), b).
Proof.
  intros Hb. unfold ListTransformer. now rewrite (strip_blank b Hb).
Qed.

(** The list transformer on an item at the white space [w]. *)
Lemma ListTransformer_at (st : lists_state) (w r' : pystr) (c r0 : ascii) :
  forallb is_space w = true ->
  is_list_marker c = true ->
  is_space r0 = true ->
  let line := w ++ c :: r0 :: r' in
  let i := length w in
  ListTransformer st line
  = if Ascii.eqb c "+"%char
    then
      let counter := dl_del_from (ordered_list_history st) (i + 1) in
      let c1 := fst (dl_getitem 0 counter i) in
      let c2 := dl_setitem 0 c1 i (snd (dl_getitem 0 counter i) + 1) in
      Ok (MkLists (fst (dl_getitem 0 c2 i)) 0,
          w ++ str_of_nat (snd (dl_getitem 0 c2 i)) ++ "."%char :: r0 :: r')
    else Ok (MkLists (dl_del_from (ordered_list_history st) (i + 1)) 0, line).
Proof.
  intros Hw Hc Hr line i.
  destruct (list_item_at w r' c r0 Hw Hc Hr) as [Hm Hg]. fold line in Hm, Hg.
  destruct (ListTransformer_item st line _ Hm) as (d & Hd & _ & _ & Hrun).
  assert (Hi : count_while is_space line = i).
  { unfold line, i. apply count_while_app_stop.
    - now apply forallb_Forall_space.
    - now apply is_list_marker_not_space. }
  rewrite Hi in Hd, Hrun.
  assert (d = c).
  { unfold line, i in Hd. rewrite nth_error_app2, Nat.sub_diag in Hd by lia.
    cbn in Hd. congruence. }
  subst d. rewrite Hrun.
  destruct (Ascii.eqb c "+"%char); [|reflexivity].
  cbv zeta. do 2 f_equal.
  unfold line, i. rewrite firstn_length_app.
  replace (length w + 1) with (length (w ++ [c]))
    by (rewrite length_app; reflexivity).
  replace (w ++ c :: r0 :: r') with ((w ++ [c]) ++ r0 :: r')
    by (now rewrite <- app_assoc).
  rewrite skipn_length_app. rewrite <- !app_assoc. reflexivity.
Qed.

Lemma ListTransformer_numbers (st : lists_state) (w t : pystr) :
  forallb is_space w = true ->
  exists h',
    ListTransformer st (ordered_item w t)
    = Ok (MkLists h' 0,
          w ++ str_of_nat (S (nth (length w) (ordered_list_history st) 0))
          ++ "."%char :: " "%char :: t)
    /\ length h' = S (length w)
    /\ nth (length w) h' 0 = S (nth (length w) (ordered_list_history st) 0)
    /\ forall j, j < length w ->
                 nth j h' 0 = nth j (ordered_list_history st) 0.
Proof.
  intros Hw.
  pose proof (ListTransformer_at st w t "+"%char " "%char Hw eq_refl eq_refl)
    as Hrun.
  cbv zeta in Hrun. change (Ascii.eqb "+"%char "+"%char) with true in Hrun.
  cbv iota in Hrun.
  destruct (counter_step (ordered_list_history st) (length w))
    as (Hn & Hlen & Hnth & Hlow).
  eexists. split; [|split; [exact Hlen|split; [exact Hnth|exact Hlow]]].
  unfold ordered_item. rewrite Hrun, Hn. reflexivity.
Qed.

(** Ordered items at one column through the list transformer. *)
Lemma feed_items_legacy (w : pystr) (texts : list pystr) :
  forallb is_space w = true ->
  forall st, exists st',
    feed ListTransformer st (map (ordered_item w) texts)
    = Ok (st',
          numbered w (S (nth (length w) (ordered_list_history st) 0)) texts)
    /\ nth (length w) (ordered_list_history st') 0
       = nth (length w) (ordered_list_history st) 0 + length texts
    /\ (texts <> [] -> sequential_empty_lines st' = 0).
Proof.
  intros Hw. induction texts as [|t texts IH]; intros st.
  - exists st. cbn. repeat split; [lia|contradiction].
  - destruct (ListTransformer_numbers st w t Hw)
      as (h' & Hrun & _ & Hnth & _).
    destruct (IH (MkLists h' 0)) as (st' & Hfeed & Hlast & Hsel).
    cbn [ordered_list_history sequential_empty_lines] in *.
    exists st'. split; [|split].
    + cbn [map numbered]. rewrite Hnth in Hfeed.
      exact (feed_cons ListTransformer _ _ st _ st' _ _ Hrun Hfeed).
    + rewrite Hlast, Hnth. cbn [length]. lia.
    + intros _. destruct texts as [|t' texts'].
      * cbn in Hfeed. now injection Hfeed as <-.
      * apply Hsel. discriminate.
Qed.

Lemma feed_runs_legacy (w : pystr) (groups : list (pystr * list pystr)) :
  forallb is_space w = true ->
  forallb blank_then_items groups = true ->
  forall st, sequential_empty_lines st = 0 -> exists st',
    feed ListTransformer st (runs_doc w groups)
    = Ok (st',
          numbered_runs w (S (nth (length w) (ordered_list_history st) 0))
            groups).
Proof.
  intros Hw. induction groups as [|[b ts] groups IH]; intros Hg st Hsel.
  - exists st. reflexivity.
  - cbn [forallb] in Hg. apply andb_true_iff in Hg. destruct Hg as [Hg Hgs].
    unfold blank_then_items in Hg. cbn [fst snd] in Hg.
    apply andb_true_iff in Hg. destruct Hg as [Hb Hts].
    pose proof (ListTransformer_blank st b Hb) as Hrun.
    rewrite Hsel in Hrun. cbn [Nat.add Nat.leb] in Hrun.
    destruct (feed_items_legacy w ts Hw (MkLists (ordered_list_history st) 1))
      as (st1 & F1 & Hlast & Hsel1).
    cbn [ordered_list_history] in F1, Hlast.
    destruct (IH Hgs st1) as (st2 & F2).
    { apply Hsel1. destruct ts; [discriminate|discriminate]. }
    rewrite Hlast in F2.
    exists st2. unfold runs_doc. cbn [flat_map fst snd numbered_runs].
    apply (feed_cons ListTransformer _ _ st _ st2 _ _ Hrun).
    exact (feed_app ListTransformer _ _ _ st1 st2 _ _ F1 F2).
Qed.

(** X23: through the list transformer of [rn2md_transformers.py] the
    numbering of ordered items goes on across single blank lines: a run of
    items that is not empty, followed by any number of blank lines each
    followed by a further run that is not empty, is numbered consecutively
    from one more than the counter of the column. *)
Theorem ListTransformer_continues_across_blanks (st : lists_state)
  (w t0 : pystr) (ts0 : list pystr) (groups : list (pystr * list pystr)) :
  forallb is_space w = true ->
  forallb blank_then_items groups = true ->
  let n := S (nth (length w) (ordered_list_history st) 0) in
  exists st',
    feed ListTransformer st
      (map (ordered_item w) (t0 :: ts0) ++ runs_doc w groups)
    = Ok (st',
          numbered w n (t0 :: ts0)
          ++ numbered_runs w (n + length (t0 :: ts0)) groups).
Proof.
  intros Hw Hg n.
  destruct (feed_items_legacy w (t0 :: ts0) Hw st)
    as (st1 & F1 & Hlast & Hsel).
  destruct (feed_runs_legacy w groups Hw Hg st1) as (st2 & F2).
  { apply Hsel. discriminate. }
  rewrite Hlast in F2. exists st2.
  exact (feed_app ListTransformer _ _ st st1 st2 _ _ F1 F2).
Qed.

Lemma ListTransformer_continues_across_blanks_witness :
  exists st',
    feed ListTransformer (MkLists [] 1)
      (map (ordered_item []) [str "a"]
       ++ runs_doc [] [([], [str "b"]); (str " ", [str "c"; str "d"])])
    = Ok (st',
          numbered [] 1 [str "a"]
          ++ numbered_runs [] (1 + length [str "a"])
               [([], [str "b"]); (str " ", [str "c"; str "d"])]).
Proof.
  apply (ListTransformer_continues_across_blanks (MkLists [] 1) []
           (str "a") [] [([], [str "b"]); (str " ", [str "c"; str "d"])]
           eq_refl eq_refl).
Defined.

(** X24: the list transformer numbers the marker [+] only: an item with
    the marker [-] or [|] is returned as it is; the counters to the right of
    the marker are dropped, the others kept, and the count of blank lines is
    back at 0. *)
Theorem ListTransformer_keeps_other_items (st : lists_state) (w r' : pystr)
  (c r0 : ascii) :
  forallb is_space w = true ->
  c = "-"%char \/ c = "|"%char ->
  is_space r0 = true ->
  ListTransformer st (w ++ c :: r0 :: r')
  = Ok (MkLists (firstn (length w + 1) (ordered_list_history st)) 0,
        w ++ c :: r0 :: r').
Proof.
  intros Hw Hc Hr.
  assert (Hm : is_list_marker c = true) by (destruct Hc; now subst c).
  rewrite (ListTransformer_at st w r' c r0 Hw Hm Hr).
  destruct Hc; subst c; reflexivity.
Qed.

Lemma ListTransformer_keeps_other_items_witness :
  ListTransformer (MkLists [3; 1; 5] 1) (str " " ++ "|"%char :: " "%char
                                         :: str "a")
  = Ok (MkLists (firstn (length (str " ") + 1) [3; 1; 5]) 0,
        str " " ++ "|"%char :: " "%char :: str "a").
Proof.
  apply (ListTransformer_keeps_other_items (MkLists [3; 1; 5] 1) (str " ")
           (str "a") "|"%char " "%char eq_refl (or_intror eq_refl) eq_refl).
Defined.

(** ** The list transformer and the list formatter *)

Lemma nth_map_S (h : list nat) (j : nat) : nth j (map S h) 1 = S (nth j h 0).
Proof. exact (map_nth S h 0 j). Qed.

(** One line that is neither blank nor an item with the marker [|]: the two
    return the same line, and the history of the formatter stays the
    counters of the transformer plus one. *)
Lemma lists_step_agree (st_new st_old : lists_state) (line : pystr) :
  plain_or_item line = true ->
  ordered_list_history st_new = map S (ordered_list_history st_old) ->
  exists st_new' st_old' out,
    format_lists st_new line = Ok (st_new', out)
    /\ ListTransformer st_old line = Ok (st_old', out)
    /\ ordered_list_history st_new'
       = map S (ordered_list_history st_old').
Proof.
  intros Hok Hrel. unfold plain_or_item in Hok.
  apply andb_true_iff in Hok. destruct Hok as [Hnb Hbar].
  apply negb_true_iff in Hnb, Hbar.
  pose proof (strip_not_blank line Hnb) as Hs.
  destruct (re_match list_item_pattern line) as [m|] eqn:Hm.
  - destruct (ListTransformer_item st_old line m Hm)
      as (c & Hc & Hmark & Hsp & Hold).
    set (i := count_while is_space line) in *.
    assert (Hnew := Hm). apply list_item_match in Hnew. fold i in Hnew.
    destruct Hnew as (-> & _ & _).
    assert (Hcases : c = "-"%char \/ c = "+"%char).
    { unfold is_bar_item in Hbar. fold i in Hbar. rewrite Hsp in Hbar.
      rewrite andb_true_r in Hbar. unfold class_at in Hbar.
      rewrite Hc in Hbar. revert Hmark Hbar. clear. ascii_cases c; tauto. }
    unfold format_lists. rewrite Hm.
    cbn [span_group span m_groups nth fst]. unfold getitem. rewrite Hc.
    cbn [bind]. rewrite Hold.
    destruct Hcases; subst c.
    + change (Ascii.eqb "-"%char "-"%char) with true.
      change (Ascii.eqb "-"%char "+"%char) with false. cbv iota.
      do 3 eexists. repeat split.
      cbn [ordered_list_history]. unfold dl_del_from.
      now rewrite Hrel, firstn_map.
    + change (Ascii.eqb "+"%char "-"%char) with false.
      change (Ascii.eqb "+"%char "+"%char) with true. cbv iota.
      destruct (history_step (ordered_list_history st_new) i)
        as (Hn & Hlen & Hnth & Hlow).
      destruct (counter_step (ordered_list_history st_old) i)
        as (Hn' & Hlen' & Hnth' & Hlow').
      destruct (dl_getitem 1 (ordered_list_history st_new) i)
        as [h1 n] eqn:E1.
      destruct (dl_getitem 1 h1 i) as [h2 n2] eqn:E2.
      cbn [fst snd] in Hn, Hlen, Hnth, Hlow. rewrite E2 in *.
      cbn [fst snd] in Hlen, Hnth, Hlow.
      cbv zeta. do 3 eexists. split; [reflexivity|]. split.
      * do 2 f_equal. rewrite Hn', Hn, Hrel, nth_map_S.
        rewrite <- !app_assoc. reflexivity.
      * cbn [ordered_list_history].
        apply (nth_ext _ _ 1 1).
        -- now rewrite length_map, Hlen, Hlen'.
        -- intros j Hj. rewrite Hlen in Hj. rewrite nth_map_S.
           destruct (Nat.eq_dec j i) as [->|Hne].
           ++ now rewrite Hnth, Hnth', Hrel, nth_map_S.
           ++ rewrite Hlow, Hlow' by lia. now rewrite Hrel, nth_map_S.
  - exists (MkLists [] 0), (MkLists [] 0), line. repeat split.
    + now apply format_lists_prose.
    + unfold ListTransformer. rewrite Hm.
      destruct (strip line); [contradiction|reflexivity].
Qed.

(** X25: on a document without blank lines and without items of the marker
    [|], the list transformer of [rn2md_transformers.py] and the list
    formatter of [formatters.py] return the same lines, when the history of
    the formatter starts as the counters of the transformer plus one (as it
    does for two fresh ones); the same then holds at the end. *)
Theorem ListTransformer_agrees_with_format_lists (lines : list pystr)
  (st_new st_old : lists_state) :
  forallb plain_or_item lines = true ->
  ordered_list_history st_new = map S (ordered_list_history st_old) ->
  exists st_new' st_old' out,
    feed format_lists st_new lines = Ok (st_new', out)
    /\ feed ListTransformer st_old lines = Ok (st_old', out)
    /\ ordered_list_history st_new'
       = map S (ordered_list_history st_old').
Proof.
  revert st_new st_old.
  induction lines as [|line lines IH]; intros st_new st_old Hok Hrel.
  - exists st_new, st_old, []. repeat split. exact Hrel.
  - cbn [forallb] in Hok. apply andb_true_iff in Hok.
    destruct Hok as [Hline Hrest].
    destruct (lists_step_agree st_new st_old line Hline Hrel)
      as (sn & so & out & Fn & Fo & Hrel').
    destruct (IH sn so Hrest Hrel') as (sn' & so' & outs & Gn & Go & Hrel'').
    exists sn', so', (out :: outs). repeat split.
    + exact (feed_cons format_lists _ _ st_new _ sn' _ _ Fn Gn).
    + exact (feed_cons ListTransformer _ _ st_old _ so' _ _ Fo Go).
    + exact Hrel''.
Qed.

Lemma ListTransformer_agrees_with_format_lists_witness :
  exists st_new' st_old' out,
    feed format_lists lists_init
      [str "+ a"; str "  + b"; str "- c"; str "+ d"; str "text"; str "+ e"]
    = Ok (st_new', out)
    /\ feed ListTransformer lists_init
         [str "+ a"; str "  + b"; str "- c"; str "+ d"; str "text"; str "+ e"]
       = Ok (st_old', out)
    /\ ordered_list_history st_new' = map S (ordered_list_history st_old').
Proof.
  apply (ListTransformer_agrees_with_format_lists
           [str "+ a"; str "  + b"; str "- c"; str "+ d"; str "text";
            str "+ e"] lists_init lists_init eq_refl eq_refl).
Defined.

(** ** The delimiter scans of the two modules *)

Lemma spans_intersect_sorted (a b : nat * nat) :
  fst a <= snd a -> fst b <= snd b ->
  _SpansIntersect a b = _spans_intersect a b.
Proof.
  destruct a as [lo1 hi1], b as [lo2 hi2]. cbn [fst snd]. intros H1 H2.
  unfold _SpansIntersect, _spans_intersect. cbn [fst snd].
  now rewrite !Nat.min_l, !Nat.max_r by assumption.
Qed.

Lemma link_match_group2 (s : pystr) (p : nat) (l : rmatch) :
  link_pattern s p = Some l ->
  fst (span_group 2 l) <= snd (span_group 2 l).
Proof.
  unfold link_pattern. destruct (skipn p s) as [|c s']; [discriminate|].
  destruct (Ascii.eqb c "["%char); [|discriminate].
  destruct (link_body s') as [[k j]|]; [|discriminate].
  intros H. injection H as <-. cbn. lia.
Qed.

Lemma existsb_ext_In (A : Type) (f g : A -> bool) (l : list A) :
  (forall x, In x l -> f x = g x) -> existsb f l = existsb g l.
Proof.
  induction l as [|a l IH]; intros H; [reflexivity|].
  cbn [existsb]. rewrite (H a (or_introl eq_refl)). f_equal.
  apply IH. intros x Hx. apply H. now right.
Qed.

Lemma occurs_in_link_eq (m : rmatch) :
  m_start m <= m_end m -> _OccursInLink m = negb (_not_in_link m).
Proof.
  intros Hm. unfold _OccursInLink, _not_in_link. rewrite negb_involutive.
  apply existsb_ext_In. intros l Hl. apply re_finditer_In in Hl.
  destruct Hl as (p & _ & Hl).
  apply spans_intersect_sorted; [exact Hm|].
  exact (link_match_group2 _ p l Hl).
Qed.

Lemma occurs_in_backtick_eq (m : rmatch) :
  m_start m <= m_end m -> _OccursInBacktick m = negb (_not_in_backticks m).
Proof.
  intros Hm. unfold _OccursInBacktick, _not_in_backticks.
  rewrite negb_involutive.
  apply existsb_ext_In. intros b Hb. apply re_finditer_In in Hb.
  destruct Hb as (p & _ & Hb). apply backtick_match_shape in Hb.
  apply spans_intersect_sorted; [exact Hm|]. cbn [span fst snd]. lia.
Qed.

Lemma filter_filter (A : Type) (f g : A -> bool) (l : list A) :
  filter g (filter f l) = filter (fun x => f x && g x) l.
Proof.
  induction l as [|a l IH]; [reflexivity|]. cbn [filter].
  destruct (f a); cbn [filter andb]; [destruct (g a)|]; now rewrite IH.
Qed.

(** The matches that the earlier module keeps are those that the default
    predicates of [_filter_matches] keep. *)
Lemma find_non_escaped_eq (pat : pattern) (s : pystr) :
  wf_pattern pat s ->
  _FindNonEscapedPattens pat s = _filter_matches pat s None.
Proof.
  intros Hwf. unfold _FindNonEscapedPattens, _filter_matches.
  rewrite filter_filter. apply filter_ext_in. intros m Hm.
  apply re_finditer_In in Hm. destruct Hm as (p & Hp & Hm).
  destruct (Hwf p m Hp Hm) as (Hs & He & _).
  assert (Hle : m_start m <= m_end m) by lia.
  rewrite (occurs_in_link_eq m Hle), (occurs_in_backtick_eq m Hle).
  cbn [forallb]. now rewrite !negb_involutive, andb_true_r.
Qed.

Lemma Grouper_chunks_pairs (A : Type) (l : list A) :
  forall fuel, length l <= fuel ->
    _Grouper_chunks fuel l 2
    = map (fun p => [fst p; snd p]) (zip_shared l).
Proof.
  induction l as [| a | a b l IH] using list_ind2; intros fuel Hf.
  - destruct fuel; reflexivity.
  - destruct fuel; reflexivity.
  - destruct fuel as [|fuel]; [cbn [length] in Hf; lia|].
    cbn [_Grouper_chunks length Nat.ltb Nat.leb firstn skipn zip_shared map
         fst snd].
    f_equal. apply IH. cbn [length] in Hf. lia.
Qed.

Lemma Grouper_pairs (A : Type) (l : list A) :
  _Grouper l 2 = map (fun p => [fst p; snd p]) (zip_shared l).
Proof. unfold _Grouper. now apply Grouper_chunks_pairs. Qed.

Lemma fold_chunks_pairs (ps : list (rmatch * rmatch)) :
  forall line,
    fold_left
      (fun acc chunk =>
         cur <- acc ;;
         p <- unpack_chunk chunk ;;
         Ok (firstn (m_start (fst p)) cur
             ++ (str "_" ++ slice (m_end (fst p)) (m_start (snd p)) cur
                 ++ str "_")
             ++ skipn (m_end (snd p)) cur))
      (map (fun p => [fst p; snd p]) ps) (Ok line)
    = Ok (fold_left (sub_pair (str "_") (str "_")) ps line).
Proof.
  induction ps as [|[mlo mhi] ps IH]; intros cur; [reflexivity|].
  cbn [map fold_left bind unpack_chunk fst snd].
  rewrite <- IH. unfold sub_pair. now rewrite <- !app_assoc.
Qed.

(** X26: the inner underscore escaper and the italic transformer of the
    earlier module return, for every line, what the underscore formatter
    and the italic formatter of [formatters.py] return, and the italic
    transformer never raises.  Leaving the ends of the spans unsorted
    changes nothing, since no match and no protected span ends before it
    starts, and the chunks of two of [_Grouper] are the pairs of
    [zip(delims, delims)]. *)
Theorem earlier_scans_are_the_formatters (line : pystr) :
  InnerUnderscoreEscaper line = format_inner_underscores line
  /\ ItalicTransformer line = Ok (format_italic_text line).
Proof.
  split.
  - unfold InnerUnderscoreEscaper, format_inner_underscores.
    now rewrite (find_non_escaped_eq _ _ (underscore_wf line)).
  - unfold ItalicTransformer, format_italic_text, _sub_balanced_delims.
    rewrite (find_non_escaped_eq _ _ (@lit_wf (str "//") line)).
    rewrite Grouper_pairs, <- map_rev.
    change (sub_ends (SubStr (str "_"))) with (str "_", str "_").
    apply fold_chunks_pairs.
Qed.

(** ** One pair of delimiters through the earlier transformers *)

(** The three slices that a pair of doubled characters cuts a line into. *)
Lemma pair_slices (x : ascii) (a b c : pystr) :
  let s := a ++ [x; x] ++ b ++ [x; x] ++ c in
  firstn (length a) s = a
  /\ slice (length a + 2) (length a + 2 + length b) s = b
  /\ skipn (length a + 2 + length b + 2) s = c.
Proof.
  intros s. repeat split.
  - apply firstn_length_app.
  - unfold s.
    replace (a ++ [x; x] ++ b ++ [x; x] ++ c)
      with ((a ++ [x; x]) ++ b ++ [x; x] ++ c)
      by (now rewrite <- app_assoc).
    replace (length a + 2) with (length (a ++ [x; x]))
      by (rewrite length_app; reflexivity).
    apply slice_mid.
  - unfold s.
    replace (a ++ [x; x] ++ b ++ [x; x] ++ c)
      with ((a ++ [x; x] ++ b ++ [x; x]) ++ c)
      by (now rewrite <- !app_assoc).
    replace (length a + 2 + length b + 2)
      with (length (a ++ [x; x] ++ b ++ [x; x]))
      by (rewrite !length_app; cbn [length]; lia).
    apply skipn_length_app.
Qed.

(** X27: the strikethrough transformer of [rn2md_transformers.py] turns a
    line with one pair of [--], otherwise without dash, backtick or double
    quote and with some other character, into the text before the pair,
    [**OBSOLETE**(], the text between the pair without the [.], [!] and [?]
    at its end, [)] and the text behind the pair. *)
Theorem StrikethroughTransformer_one_pair (a b c : pystr) :
  lacks ["-"%char; backtick; dquote] (a ++ b ++ c) = true ->
  a ++ b ++ c <> [] ->
  StrikethroughTransformer (a ++ str "--" ++ b ++ str "--" ++ c)
  = Ok (a ++ str "**OBSOLETE**(" ++ rstrip_chars (str ".!?") b ++ str ")"
        ++ c).
Proof.
  intros H Hne.
  pose proof (lacks_Forall _ _ "-"%char H (or_introl eq_refl)) as Hall.
  apply lacks_three in H. destruct H as (Ha & Hb & Hc).
  change (str "--") with ["-"%char; "-"%char].
  set (s := a ++ ["-"%char; "-"%char] ++ b ++ ["-"%char; "-"%char] ++ c).
  assert (Hguard : only_dashes s = false).
  { destruct (a ++ b ++ c) as [|ch rest] eqn:E; [contradiction|].
    assert (Hin : In ch s).
    { assert (Hin : In ch (a ++ b ++ c)) by (rewrite E; now left).
      unfold s. rewrite !in_app_iff in Hin. rewrite !in_app_iff. cbn [In].
      rewrite ?in_app_iff. tauto. }
    assert (Hch : ch <> "-"%char) by (inversion Hall; assumption).
    unfold only_dashes. destruct s as [|y ys]; [reflexivity|].
    apply not_true_iff_false. intros Hf.
    rewrite forallb_forall in Hf. specialize (Hf ch Hin).
    apply Ascii.eqb_eq in Hf. congruence. }
  assert (Hq : ~ In dquote s)
    by (apply not_In_pair; [discriminate| | |];
        eapply lacks_not_In; eauto; cbn; auto).
  assert (Hbt : ~ In backtick s)
    by (apply not_In_pair; [discriminate| | |];
        eapply lacks_not_In; eauto; cbn; auto).
  unfold StrikethroughTransformer. rewrite Hguard.
  change (str "--") with ["-"%char; "-"%char].
  rewrite (find_non_escaped_eq _ _ (@lit_wf ["-"%char; "-"%char] s)).
  unfold _filter_matches. unfold s at 1.
  rewrite (lit2_pair_matches "-"%char a b c).
  2:{ apply (lacks_Forall _ _ _ Ha). now left. }
  2:{ apply (lacks_Forall _ _ _ Hb). now left. }
  2:{ apply (lacks_Forall _ _ _ Hc). now left. }
  fold s. cbn [filter].
  assert (Hd : forall m, m_string m = s ->
                         forallb (fun p : pred => p m)
                           [_not_in_link; _not_in_backticks] = true)
    by (intros m Hm; exact (default_filter_free s m Hm Hq Hbt)).
  rewrite !Hd by reflexivity.
  destruct (pair_slices "-"%char a b c) as (S1 & S2 & S3). fold s in S1, S2, S3.
  cbn [_Grouper _Grouper_chunks length Nat.ltb Nat.leb firstn skipn rev app
       fold_left bind unpack_chunk fst snd m_start m_end].
  rewrite S1, S2, S3. now rewrite <- !app_assoc.
Qed.

Lemma StrikethroughTransformer_one_pair_witness :
  StrikethroughTransformer (str "buy " ++ str "--" ++ str "milk!" ++ str "--"
                            ++ str " eggs")
  = Ok (str "buy " ++ str "**OBSOLETE**(" ++ rstrip_chars (str ".!?")
                                               (str "milk!")
        ++ str ")" ++ str " eggs").
Proof.
  apply (StrikethroughTransformer_one_pair (str "buy ") (str "milk!")
           (str " eggs") eq_refl).
  discriminate.
Defined.

(** X28: the code block transformer of [rn2md_transformers.py] turns a line
    with one pair of double backticks and no other backtick into the text
    before the pair, a backtick, the text between the pair without the [.],
    [!] and [?] at its end, a backtick and the text behind the pair. *)
Theorem CodeBlockTransformer_one_pair (a b c : pystr) :
  lacks [backtick] (a ++ b ++ c) = true ->
  CodeBlockTransformer (a ++ str "``" ++ b ++ str "``" ++ c)
  = Ok (a ++ str "`" ++ rstrip_chars (str ".!?") b ++ str "`" ++ c).
Proof.
  intros H. apply lacks_three in H. destruct H as (Ha & Hb & Hc).
  change (str "``") with [backtick; backtick].
  unfold CodeBlockTransformer.
  change (str "``") with [backtick; backtick].
  rewrite (lit2_pair_matches backtick a b c).
  2:{ apply (lacks_Forall _ _ _ Ha). now left. }
  2:{ apply (lacks_Forall _ _ _ Hb). now left. }
  2:{ apply (lacks_Forall _ _ _ Hc). now left. }
  destruct (pair_slices backtick a b c) as (S1 & S2 & S3).
  set (s := a ++ [backtick; backtick] ++ b ++ [backtick; backtick] ++ c)
    in *.
  cbn [_Grouper _Grouper_chunks length Nat.ltb Nat.leb firstn skipn rev app
       fold_left bind unpack_chunk fst snd m_start m_end].
  rewrite S1, S2, S3. now rewrite <- !app_assoc.
Qed.

Lemma CodeBlockTransformer_one_pair_witness :
  CodeBlockTransformer (str "run " ++ str "``" ++ str "make all." ++ str "``"
                        ++ str " now")
  = Ok (str "run " ++ str "`" ++ rstrip_chars (str ".!?") (str "make all.")
        ++ str "`" ++ str " now").
Proof.
  apply (CodeBlockTransformer_one_pair (str "run ") (str "make all.")
           (str " now") eq_refl).
Defined.

(** * Items and headers through the pipeline *)

Lemma feed_ext (f g : formatter) (lines : list pystr) :
  (forall st line, In line lines -> f st line = g st line) ->
  forall st, feed f st lines = feed g st lines.
Proof.
  induction lines as [|line lines IH]; intros H st; [reflexivity|].
  cbn [feed]. rewrite (H st line (or_introl eq_refl)).
  destruct (g st line) as [[st1 o]|e]; [|reflexivity].
  cbn [bind fst snd]. rewrite IH; [reflexivity|].
  intros st' l Hl. apply H. now right.
Qed.

(** X29: a run of ordered items at one column, each without RedNotebook
    tokens and without underscores, comes out of the whole pipeline
    numbered one after the other from the number that the history holds
    for the column: the list formatter keeps its history from one line of
    the pipeline to the next. *)
Theorem pipeline_numbers_plain_items (padding : Z) (st : lists_state)
  (w : pystr) (texts : list pystr) :
  forallb is_space w = true ->
  forallb (fun t => no_rednotebook_tokens (ordered_item w t)
                    && lacks [underscore] t) texts = true ->
  exists st',
    feed (format_rednotebook_as_markdown padding) st
      (map (ordered_item w) texts)
    = Ok (st', numbered w (nth (length w) (ordered_list_history st) 1) texts).
Proof.
  intros Hw Hts.
  destruct (feed_items w texts Hw st) as (st' & Hfeed & _).
  exists st'. rewrite <- Hfeed. apply feed_ext.
  intros st0 line Hin. apply in_map_iff in Hin.
  destruct Hin as (t & <- & Ht).
  rewrite forallb_forall in Hts. specialize (Hts t Ht).
  apply andb_true_iff in Hts. destruct Hts as [Hclean Hu].
  rewrite (@pipeline_no_tokens padding st0 _ Hclean).
  rewrite escape_no_underscore; [reflexivity| |apply code_mask_length].
  unfold ordered_item. intros Hin. apply in_app_iff in Hin.
  destruct Hin as [Hin|[Hin|[Hin|Hin]]]; try discriminate.
  - apply forallb_Forall_space in Hw. rewrite Forall_forall in Hw.
    specialize (Hw _ Hin). discriminate.
  - exact (lacks_not_In [underscore] t underscore Hu (or_introl eq_refl) Hin).
Qed.

Lemma pipeline_numbers_plain_items_witness :
  exists st',
    feed (format_rednotebook_as_markdown 0) lists_init
      (map (ordered_item (str " ")) [str "tea, 2x"; str "[b](u) and `c`"])
    = Ok (st', numbered (str " ")
                 (nth (length (str " ")) (ordered_list_history lists_init) 1)
                 [str "tea, 2x"; str "[b](u) and `c`"]).
Proof.
  apply (pipeline_numbers_plain_items 0 lists_init (str " ")
           [str "tea, 2x"; str "[b](u) and `c`"] eq_refl eq_refl).
Defined.

(** X30: a header line comes out of the whole pipeline as a Markdown
    header: [k] equals signs, a title and [k] equals signs again, with a
    title that is not empty and holds no equals sign, underscore, double
    quote, backtick, slash, dash or newline, and with padding + k positive,
    give padding + k hash signs, a space and the title without its leading
    white space. *)
Theorem pipeline_header_line (padding : Z) (st : lists_state) (k : nat)
  (t : pystr) :
  0 < k ->
  (0 < padding + Z.of_nat k)%Z ->
  t <> [] ->
  lacks ["="%char; underscore; dquote; backtick; "/"%char; "-"%char;
         newline] t = true ->
  exists st',
    format_rednotebook_as_markdown padding st
      (repeat "="%char k ++ t ++ repeat "="%char k)
    = Ok (st', repeat_char "#"%char (padding + Z.of_nat k) ++ str " "
               ++ lstrip t).
Proof.
  intros Hk Hpos Hne Ht.
  set (cs := ["="%char; underscore; dquote; backtick; "/"%char; "-"%char;
              newline]) in Ht.
  set (line := repeat "="%char k ++ t ++ repeat "="%char k).
  set (out := repeat_char "#"%char (padding + Z.of_nat k) ++ str " "
              ++ lstrip t).
  assert (Hin : forall x, In x cs -> x <> "="%char -> ~ In x line).
  { intros x Hx Hxe H. unfold line in H. rewrite !in_app_iff in H.
    destruct H as [H|[H|H]].
    - apply repeat_spec in H. contradiction.
    - exact (lacks_not_In cs t x Ht Hx H).
    - apply repeat_spec in H. contradiction. }
  assert (Hout : forall x, In x cs -> x <> "#"%char -> x <> " "%char ->
                           ~ In x out).
  { intros x Hx N1 N2 H. unfold out, repeat_char in H.
    rewrite !in_app_iff in H. destruct H as [H|[H|H]].
    - apply repeat_spec in H. contradiction.
    - cbn in H. intuition congruence.
    - unfold lstrip in H.
      rewrite <- (firstn_skipn (count_while is_space t) t) in Ht.
      rewrite lacks_app in Ht. apply andb_true_iff in Ht.
      exact (lacks_not_In cs _ x (proj2 Ht) Hx H). }
  assert (Hq : occursb qq line = false).
  { apply (occursb_absent dquote [dquote]), Hin;
      [unfold cs; cbn; tauto|discriminate]. }
  assert (Hhd : hd_error t <> Some "="%char).
  { destruct t as [|c u]; [contradiction|]. cbn. intros E.
    injection E as ->.
    apply (lacks_not_In cs _ "="%char Ht); now left. }
  assert (Hlast : forall x, In x cs -> hd_error (rev t) <> Some x).
  { intros x Hx E. apply (lacks_not_In cs t x Ht Hx).
    apply in_rev. destruct (rev t); [discriminate|].
    injection E as ->. now left. }
  rewrite pipeline_unfold.
  rewrite (format_inner_underscores_plain line Hq).
  2:{ apply Hin; [unfold cs; cbn; tauto|discriminate]. }
  rewrite (@format_links_absent line Hq), (@format_images_absent line Hq).
  unfold line at 1.
  rewrite (format_headers_runs padding k k t Hne Hhd).
  2:{ apply Hlast. now left. }
  2:{ apply Hlast. unfold cs. cbn. tauto. }
  replace ((0 <? k) && (k =? k)) with true.
  2:{ symmetry. apply andb_true_intro.
      split; [now apply Nat.ltb_lt|apply Nat.eqb_refl]. }
  fold out.
  unfold format_code_blocks.
  rewrite (@sub_balanced_absent (str "``") _ out _).
  2:{ apply (occursb_absent backtick [backtick]), Hout;
        [unfold cs; cbn; tauto|discriminate|discriminate]. }
  unfold format_italic_text.
  rewrite (@sub_balanced_absent (str "//") _ out _).
  2:{ apply (occursb_absent "/"%char ["/"%char]), Hout;
        [unfold cs; cbn; tauto|discriminate|discriminate]. }
  rewrite (@format_strikethrough_absent out).
  2:{ apply (occursb_absent "-"%char ["-"%char]), Hout;
        [unfold cs; cbn; tauto|discriminate|discriminate]. }
  apply format_lists_not_numbered.
  unfold out, repeat_char.
  destruct (Z.to_nat (padding + Z.of_nat k)) as [|n] eqn:E; [lia|].
  reflexivity.
Qed.

Lemma pipeline_header_line_witness :
  exists st',
    format_rednotebook_as_markdown 1 (MkLists [4] 1)
      (repeat "="%char 2 ++ str " To do: a+b " ++ repeat "="%char 2)
    = Ok (st', repeat_char "#"%char (1 + Z.of_nat 2) ++ str " "
               ++ lstrip (str " To do: a+b ")).
Proof.
  apply (pipeline_header_line 1 (MkLists [4] 1) 2 (str " To do: a+b "));
    [lia|lia|discriminate|reflexivity].
Defined.
